(** * Real-time messaging core of the health application back end

    A shallow embedding of the chat models ([models/Conversation],
    [models/Message]), the chat controller and the Socket.IO handlers
    ([utils/socketHandlers.js]), with the properties of the messaging
    specification stated and settled against them.

    Conventions of the embedding.
    - A user id is the string form of its ObjectId: the code compares
      ids through [toString()] everywhere and keys the [unreadCount]
      Map and the [onlineUsers] Map by that string.
    - Ids of conversations and messages are ObjectIds generated at
      creation; they are natural numbers drawn from a counter of the
      database, which gives the freshness the driver guarantees.
    - A [Date] is a number of milliseconds ([Z]); [Date.now()] and
      [new Date()] are an argument [now] of the operation that calls them,
      one instant for the handling of one event or request.
    - In [step], [run] and [run_ops] a handler runs to its end before the
      next event is taken; the interleaving of the awaited store operations
      of two calls is written out where a property is about it
      ([run_schedule] for [findOrCreate], [run_sends] for [send_message]).
    - The content of a message is a JavaScript string, the list of its
      UTF-16 code units; the other strings are only compared or passed on.
    - A collection is the list of its documents in insertion order;
      [findOne] returns the first match in that order.
    - Mongoose's [doc.save()] writes the modified paths of the document
      only; it is modelled by field-level updates of the stored document
      with the same id, and the in-memory document is threaded through
      the methods as the code threads [this]. *)

From stdpp Require Import gmap strings list fin_maps sorting.
From Stdlib Require Import ZArith Lia.

Set Warnings "-clear-no-such-hyp".

Local Open Scope Z_scope.
Local Open Scope string_scope.
Local Open Scope list_scope.
Local Open Scope nat_scope.

(** ** Data model *)

Abbreviation UserId := string (only parsing).
Abbreviation ObjectId := nat (only parsing).
Abbreviation SocketId := nat (only parsing).
Abbreviation Date := Z (only parsing).

(** A JavaScript string, where the code looks inside it (the content of a
    message): the sequence of its UTF-16 code units, which is what [length]
    counts and what [trim] works on. *)
Abbreviation JsString := (list N) (only parsing).

(** The JavaScript string of an ASCII literal. *)
Definition js (s : string) : JsString := map Ascii.N_of_ascii (String.list_ascii_of_string s).

Inductive ConversationType := direct | group.

(** A document of the Conversation collection ([ConversationSchema]). *)
Record Conversation := mkConversation {
  c_id : ObjectId;
  participants : list UserId;
  lastMessage : option ObjectId;
  lastMessageAt : Date;
  unreadCount : gmap string nat;
  isActive : bool;
  conversationType : ConversationType
}.

(** An entry of [readBy] ([user], [readAt]) or of [deliveredTo]
    ([user], [deliveredAt]). *)
Record Receipt := mkReceipt {
  r_user : UserId;
  r_at : Date
}.

(** A document of the Message collection ([MessageSchema]). *)
Record Message := mkMessage {
  m_id : ObjectId;
  conversation : ObjectId;
  sender : UserId;
  content : JsString;
  messageType : string;
  readBy : list Receipt;
  deliveredTo : list Receipt;
  isDeleted : bool;
  createdAt : Date
}.

(** The part of a User document the chat code reads. *)
Record User := mkUser {
  u_name : string;
  role : string
}.

Record Database := mkDatabase {
  conversations : list Conversation;
  messages : list Message;
  users : gmap string User;
  nextId : ObjectId
}.

Definition is_direct (c : Conversation) : bool :=
  match conversationType c with direct => true | group => false end.

(** [participants.some(p => p.toString() === userId)]. *)
Definition has_participant (userId : UserId) (c : Conversation) : bool :=
  existsb (String.eqb userId) (participants c).

(** [unreadCount.get(userId) || 0]. *)
Definition unread_of (c : Conversation) (userId : UserId) : nat :=
  default 0 (unreadCount c !! userId).

Definition set_unread (key : string) (n : nat) (c : Conversation) : Conversation :=
  mkConversation (c_id c) (participants c) (lastMessage c) (lastMessageAt c)
    (<[key:=n]> (unreadCount c)) (isActive c) (conversationType c).

Definition set_last (mid : ObjectId) (at_ : Date) (c : Conversation) : Conversation :=
  mkConversation (c_id c) (participants c) (Some mid) at_
    (unreadCount c) (isActive c) (conversationType c).

Definition push_readBy (r : Receipt) (m : Message) : Message :=
  mkMessage (m_id m) (conversation m) (sender m) (content m) (messageType m)
    (readBy m ++ [r]) (deliveredTo m) (isDeleted m) (createdAt m).

Definition push_deliveredTo (r : Receipt) (m : Message) : Message :=
  mkMessage (m_id m) (conversation m) (sender m) (content m) (messageType m)
    (readBy m) (deliveredTo m ++ [r]) (isDeleted m) (createdAt m).

(** ** Conversation model ([models/Conversation]) *)

Module ConversationModel.

(** [Conversation.findById(id)]. *)
Definition findById (id : ObjectId) (db : Database) : option Conversation :=
  List.find (λ c, Nat.eqb (c_id c) id) (conversations db).

(** Field-level update of the stored conversation [id]: what a [save()] of
    a modified document and [findByIdAndUpdate] send to the store. *)
Definition findByIdAndUpdate (id : ObjectId) (f : Conversation → Conversation)
    (db : Database) : Database :=
  mkDatabase
    (map (λ c, if Nat.eqb (c_id c) id then f c else c) (conversations db))
    (messages db) (users db) (nextId db).

(** [hasUnreadMessages(userId)]: [count && count > 0]. *)
Definition hasUnreadMessages (this : Conversation) (userId : UserId) : bool :=
  match unreadCount this !! userId with
  | Some count => Nat.ltb 0 count
  | None => false
  end.

(** [incrementUnread(userId)]: the document [this] is updated in place and
    saved; the save sets the one modified key of the stored map. The
    document returned is [this] after the call. *)
Definition incrementUnread (userId : UserId) (this : Conversation) (db : Database)
    : Conversation * Database :=
  let currentCount := unread_of this userId in
  (set_unread userId (currentCount + 1) this,
   findByIdAndUpdate (c_id this) (set_unread userId (currentCount + 1)) db).

(** [resetUnread(userId)]. *)
Definition resetUnread (userId : UserId) (this : Conversation) (db : Database)
    : Conversation * Database :=
  (set_unread userId 0 this,
   findByIdAndUpdate (c_id this) (set_unread userId 0) db).

(** [getOtherParticipant(userId)]. *)
Definition getOtherParticipant (this : Conversation) (userId : UserId) : option UserId :=
  List.find (λ p, negb (String.eqb p userId)) (participants this).

(** The filter of [findBetweenUsers]:
    [{participants: {$all: [userId1, userId2]}, conversationType: 'direct'}];
    [$all] holds when the array contains every listed value. *)
Definition between_users (userId1 userId2 : UserId) (c : Conversation) : bool :=
  has_participant userId1 c && has_participant userId2 c && is_direct c.

(** [findBetweenUsers(userId1, userId2)]. *)
Definition findBetweenUsers (userId1 userId2 : UserId) (db : Database)
    : option Conversation :=
  List.find (between_users userId1 userId2) (conversations db).

(** The document built by [Conversation.create({participants: [userId1,
    userId2], unreadCount: {[userId1]: 0, [userId2]: 0}})]: the other fields
    take the defaults of the schema. *)
Definition new_conversation (id : ObjectId) (now : Date) (userId1 userId2 : UserId)
    : Conversation :=
  mkConversation id [userId1; userId2] None now
    (<[userId2:=0]> (<[userId1:=0]> ∅)) true direct.

(** [Conversation.create(...)] as [findOrCreate] calls it. *)
Definition create (now : Date) (userId1 userId2 : UserId) (db : Database)
    : Conversation * Database :=
  let c := new_conversation (nextId db) now userId1 userId2 in
  (c, mkDatabase (conversations db ++ [c]) (messages db) (users db) (S (nextId db))).

(** [findOrCreate(userId1, userId2)]. *)
Definition findOrCreate (now : Date) (userId1 userId2 : UserId) (db : Database)
    : Conversation * Database :=
  match findBetweenUsers userId1 userId2 db with
  | Some conversation => (conversation, db)
  | None => create now userId1 userId2 db
  end.

End ConversationModel.

(** ** Message model ([models/Message]) *)

Module MessageModel.

(** [Message.findById(id)]. *)
Definition findById (id : ObjectId) (db : Database) : option Message :=
  List.find (λ m, Nat.eqb (m_id m) id) (messages db).

(** The write a [save()] of a modified message sends to the store. *)
Definition update (id : ObjectId) (f : Message → Message) (db : Database) : Database :=
  mkDatabase (conversations db)
    (map (λ m, if Nat.eqb (m_id m) id then f m else m) (messages db))
    (users db) (nextId db).

(** [isReadBy(userId)]. *)
Definition isReadBy (this : Message) (userId : UserId) : bool :=
  existsb (λ read, String.eqb (r_user read) userId) (readBy this).

(** [isDeliveredTo(userId)]. *)
Definition isDeliveredTo (this : Message) (userId : UserId) : bool :=
  existsb (λ delivery, String.eqb (r_user delivery) userId) (deliveredTo this).

(** [MessageSchema.post('save', ...)]: runs after every save of a message
    document, a new one or a modified one; its errors are caught. *)
Definition post_save (doc : Message) (db : Database) : Database :=
  ConversationModel.findByIdAndUpdate (conversation doc)
    (set_last (m_id doc) (createdAt doc)) db.

(** [markAsRead(userId)]. *)
Definition markAsRead (now : Date) (userId : UserId) (this : Message) (db : Database)
    : Message * Database :=
  if isReadBy this userId then (this, db)
  else
    let read := mkReceipt userId now in
    (push_readBy read this,
     post_save (push_readBy read this) (update (m_id this) (push_readBy read) db)).

(** [markAsDelivered(userId)]. *)
Definition markAsDelivered (now : Date) (userId : UserId) (this : Message) (db : Database)
    : Message * Database :=
  if isDeliveredTo this userId then (this, db)
  else
    let delivery := mkReceipt userId now in
    (push_deliveredTo delivery this,
     post_save (push_deliveredTo delivery this)
       (update (m_id this) (push_deliveredTo delivery) db)).

(** The white space [String.prototype.trim] strips: the WhiteSpace and
    LineTerminator code points of ECMAScript, all of them single code units
    (TAB, LF, VT, FF, CR, SP, NBSP, U+1680, U+2000 to U+200A, U+2028, U+2029,
    U+202F, U+205F, U+3000 and U+FEFF). *)
Definition is_white_space (u : N) : bool :=
  existsb (N.eqb u)
    [9; 10; 11; 12; 13; 32; 160; 5760; 8232; 8233; 8239; 8287; 12288; 65279]%N
  || (N.leb 8192 u && N.leb u 8202).

(** The [trim: true] setter of [content]: [String.prototype.trim]. *)
Fixpoint trim_start (s : JsString) : JsString :=
  match s with
  | u :: s' => if is_white_space u then trim_start s' else s
  | [] => []
  end.

Definition trim (s : JsString) : JsString :=
  rev (trim_start (rev (trim_start s))).

Definition messageTypes : list string := ["text"; "image"; "file"; "system"].

(** The validators of the schema on the fields a send provides, run on
    the value the setter left: [content] is required (a string of non-zero
    [length]) and its [length] is at most 5000, [messageType] is one of the
    enumeration. *)
Definition validate (content : JsString) (messageType : string) : bool :=
  negb (Nat.eqb (length (trim content)) 0)
  && Nat.leb (length (trim content)) 5000
  && existsb (String.eqb messageType) messageTypes.

(** [Message.create({conversation, sender, content, messageType})]:
    [None] is the validation error it throws; a valid document is inserted
    and the post-save hook runs. *)
Definition create (conversationId : ObjectId) (userId : UserId)
    (content : JsString) (messageType : string) (now : Date) (db : Database)
    : option (Message * Database) :=
  if validate content messageType then
    let doc := mkMessage (nextId db) conversationId userId (trim content)
                 messageType [] [] false now in
    Some (doc, post_save doc
                 (mkDatabase (conversations db) (messages db ++ [doc])
                    (users db) (S (nextId db))))
  else None.

End MessageModel.

(** ** Chat controller ([controllers/chatController]) *)

(** The outcome of a request handler: a success body with its status, a
    failure body with its status and error text, or an exception left to
    the error middleware. *)
Inductive Response (A : Type) : Type :=
| Json (status : nat) (data : A)
| Failed (status : nat) (error : string)
| Threw.
Arguments Json {A} status data.
Arguments Failed {A} status error.
Arguments Threw {A}.

(** [.sort({createdAt: -1})]. *)
Definition newer_first (a b : Message) : Prop := (createdAt b ≤ createdAt a)%Z.

Global Instance newer_first_dec (a b : Message) : Decision (newer_first a b) :=
  decide (createdAt b ≤ createdAt a)%Z.

(** [.sort({lastMessageAt: -1})]. *)
Definition later_first (a b : Conversation) : Prop :=
  (lastMessageAt b ≤ lastMessageAt a)%Z.

Global Instance later_first_dec (a b : Conversation) : Decision (later_first a b) :=
  decide (lastMessageAt b ≤ lastMessageAt a)%Z.

(** An entry of the list [getConversations] answers: [_id], [participant],
    [lastMessage], [lastMessageAt] and [unreadCount]. The timestamps
    [createdAt] and [updatedAt] of the conversation are not in the model. *)
Record ConversationView := mkView {
  v_id : ObjectId;
  v_participant : option (UserId * User);
  v_lastMessage : option Message;
  v_lastMessageAt : Date;
  v_unreadCount : nat
}.

Module ChatController.

(** [.populate('participants', ...)]: each participant id with its user
    document; Mongoose leaves out of a populated array the ids that resolve
    to no document. *)
Definition populate_participants (db : Database) (c : Conversation)
    : list (UserId * User) :=
  omap (λ p, match users db !! p with
             | Some usr => Some (p, usr)
             | None => None
             end) (participants c).

(** [.populate({path: 'lastMessage', ...})]. *)
Definition populate_lastMessage (db : Database) (c : Conversation) : option Message :=
  match lastMessage c with
  | Some mid => MessageModel.findById mid db
  | None => None
  end.

(** The entry [getConversations] builds for a conversation. *)
Definition format_conversation (userId : UserId) (db : Database) (conv : Conversation)
    : ConversationView :=
  let otherParticipant :=
    List.find (λ p, negb (String.eqb (fst p) userId)) (populate_participants db conv) in
  mkView (c_id conv) otherParticipant (populate_lastMessage db conv)
    (lastMessageAt conv) (unread_of conv userId).

(** [getConversations]: [userId] is [req.user.id]; the [count] of the body
    is the length of the list. *)
Definition getConversations (userId : UserId) (db : Database)
    : Response (list ConversationView) :=
  let conversations :=
    merge_sort later_first
      (List.filter (λ c, has_participant userId c && isActive c) (conversations db)) in
  Json 200 (map (format_conversation userId db) conversations).

(** [getConversation]: [userId] is [req.user.id], [id] is [req.params.id]. *)
Definition getConversation (userId : UserId) (id : ObjectId) (db : Database)
    : Response Conversation :=
  match ConversationModel.findById id db with
  | None => Failed 404 "Conversation not found"
  | Some conversation =>
    if negb (has_participant userId conversation)
    then Failed 403 "Not authorized to access this conversation"
    else Json 200 conversation
  end.

(** [createConversation]: [userId] is [req.user.id], [participantId] is
    [req.body.participantId] (absent, or empty, is falsy). *)
Definition createConversation (now : Date) (userId : UserId)
    (participantId : option UserId) (db : Database)
    : Response Conversation * Database :=
  match participantId with
  | None => (Failed 400 "Please provide participantId", db)
  | Some pid =>
    if String.eqb pid "" then (Failed 400 "Please provide participantId", db)
    else
      match users db !! pid with
      | None => (Failed 404 "User not found", db)
      | Some participant =>
        match users db !! userId with
        | None => (Threw, db)
        | Some currentUser =>
          if String.eqb (role currentUser) "patient"
             && String.eqb (role participant) "patient"
          then (Failed 403 "Patients can only chat with doctors", db)
          else if String.eqb (role currentUser) "doctor"
                  && String.eqb (role participant) "doctor"
          then (Failed 403 "Doctors can only chat with patients", db)
          else
            let '(conversation, db') :=
              ConversationModel.findOrCreate now userId pid db in
            (Json 201 conversation, db')
        end
      end
  end.

(** The filter of the message query of [getMessages]:
    [{conversation: id, isDeleted: false}], with
    [createdAt: {$lt: beforeMessage.createdAt}] when the cursor resolves. *)
Definition messages_query (id : ObjectId) (bound : option Date) (m : Message) : bool :=
  Nat.eqb (conversation m) id
  && negb (isDeleted m)
  && match bound with
     | Some t => Z.ltb (createdAt m) t
     | None => true
     end.

(** The cursor of [getMessages]: the creation time of the message
    [before], when [before] is given and resolves. *)
Definition before_bound (before : option ObjectId) (db : Database) : option Date :=
  match before with
  | Some b =>
    match MessageModel.findById b db with
    | Some beforeMessage => Some (createdAt beforeMessage)
    | None => None
    end
  | None => None
  end.

(** [getMessages]: [limit] is [req.query.limit] once parsed (default 50),
    [before] is [req.query.before]. *)
Definition getMessages (userId : UserId) (id : ObjectId) (limit : option positive)
    (before : option ObjectId) (db : Database) : Response (list Message) :=
  match ConversationModel.findById id db with
  | None => Failed 404 "Conversation not found"
  | Some conversation =>
    if negb (has_participant userId conversation)
    then Failed 403 "Not authorized to access this conversation"
    else
      let bound := before_bound before db in
      let messages :=
        take (Pos.to_nat (default 50%positive limit))
          (merge_sort newer_first
             (List.filter (messages_query id bound) (messages db))) in
      Json 200 (reverse messages)
  end.

(** The filter of the query of [markAsRead]:
    [{conversation: id, sender: {$ne: userId}, 'readBy.user': {$ne: userId}}]. *)
Definition unread_query (id : ObjectId) (userId : UserId) (m : Message) : bool :=
  Nat.eqb (conversation m) id
  && negb (String.eqb (sender m) userId)
  && negb (MessageModel.isReadBy m userId).

(** The loop [for (const message of unreadMessages) await
    message.markAsRead(userId)]. *)
Definition mark_each (now : Date) (userId : UserId) (unreadMessages : list Message)
    (db : Database) : Database :=
  fold_left (λ d message, snd (MessageModel.markAsRead now userId message d))
    unreadMessages db.

(** [markAsRead]: the data of the success body is the number of messages
    the query returned. *)
Definition markAsRead (now : Date) (userId : UserId) (id : ObjectId) (db : Database)
    : Response nat * Database :=
  match ConversationModel.findById id db with
  | None => (Failed 404 "Conversation not found", db)
  | Some conversation =>
    if negb (has_participant userId conversation)
    then (Failed 403 "Not authorized to access this conversation", db)
    else
      let unreadMessages := List.filter (unread_query id userId) (messages db) in
      let db1 := mark_each now userId unreadMessages db in
      let db2 := snd (ConversationModel.resetUnread userId conversation db1) in
      (Json 200 (length unreadMessages), db2)
  end.

End ChatController.

(** ** Socket.IO handlers ([utils/socketHandlers.js]) *)

(** The rooms the handlers name: [`user:${userId}`] and
    [`conversation:${conversationId}`]; the two prefixes keep the names
    apart. The room every socket has under its own id is addressed by
    [to_socket] below. *)
Inductive Room :=
| UserRoom (userId : UserId)
| ConversationRoom (conversationId : ObjectId).

Global Instance Room_eq_dec : EqDecision Room.
Proof. solve_decision. Defined.

Global Instance Room_countable : Countable Room :=
  inj_countable'
    (λ r, match r with UserRoom u => inl u | ConversationRoom c => inr c end)
    (λ x, match x with inl u => UserRoom u | inr c => ConversationRoom c end)
    (λ r, match r with UserRoom _ => eq_refl | ConversationRoom _ => eq_refl end).

(** A connected socket: [socket.user.id], [socket.user.name] and the rooms
    it has joined. *)
Record Socket := mkSocket {
  s_user : UserId;
  s_name : string;
  s_rooms : gset Room
}.

(** The state of the server process: the store, the module-level
    [onlineUsers] Map and the connected sockets of the [io] server. A
    disconnected socket is no longer in [sockets]: Socket.IO takes it out of
    every room and of the server before the [disconnect] handler runs. *)
Record State := mkState {
  db : Database;
  onlineUsers : gmap string SocketId;
  sockets : gmap SocketId Socket;
  nextSocket : SocketId
}.

Definition with_db (d : Database) (st : State) : State :=
  mkState d (onlineUsers st) (sockets st) (nextSocket st).

(** The events the server emits. *)
Inductive Emitted :=
| user_online (userId : UserId) (name : string)
| user_offline (userId : UserId) (name : string)
| new_message (message : Message) (conversationId : ObjectId)
| message_sent (tempId : option string) (message : Message)
| message_delivered (messageId conversationId : ObjectId)
| message_read_receipt (messageId conversationId : ObjectId) (readBy : UserId)
    (readAt : Date)
| user_typing (conversationId : ObjectId) (userId : UserId) (name : string)
| user_stop_typing (conversationId : ObjectId) (userId : UserId)
| error (message : string).

(** An emitted event together with the socket that receives it. *)
Definition Delivery : Type := SocketId * Emitted.

(** The payload of [send_message]; [messageType] defaults to ['text']. *)
Record SendData := mkSendData {
  conversationId : ObjectId;
  sd_content : JsString;
  sd_messageType : option string;
  tempId : option string
}.

Module SocketHandlers.

(** The sockets in a room. *)
Definition room_sockets (r : Room) (st : State) : list SocketId :=
  omap (λ '(sid, sock), if bool_decide (r ∈ s_rooms sock) then Some sid else None)
    (map_to_list (sockets st)).

(** [io.to(room).emit(ev)]. *)
Definition to_room (r : Room) (ev : Emitted) (st : State) : list Delivery :=
  map (λ sid, (sid, ev)) (room_sockets r st).

(** [socket.to(room).emit(ev)]: the room without the socket itself. *)
Definition to_room_except (self : SocketId) (r : Room) (ev : Emitted) (st : State)
    : list Delivery :=
  map (λ sid, (sid, ev))
    (List.filter (λ sid, negb (Nat.eqb sid self)) (room_sockets r st)).

(** [socket.broadcast.emit(ev)]: every connected socket but the socket
    itself. *)
Definition broadcast (self : SocketId) (ev : Emitted) (st : State) : list Delivery :=
  map (λ sid, (sid, ev))
    (List.filter (λ sid, negb (Nat.eqb sid self)) (map fst (map_to_list (sockets st)))).

(** [io.to(socketId).emit(ev)]: the room of a socket id holds that socket as
    long as it is connected. *)
Definition to_socket (sid : SocketId) (ev : Emitted) (st : State) : list Delivery :=
  match sockets st !! sid with
  | Some _ => [(sid, ev)]
  | None => []
  end.

(** [joinUserConversations(socket, userId)]: the rooms of the active
    conversations of the user. *)
Definition joinUserConversations (userId : UserId) (d : Database) : gset Room :=
  list_to_set
    (map (λ c, ConversationRoom (c_id c))
       (List.filter (λ c, has_participant userId c && isActive c) (conversations d))).

(** [io.on('connection', ...)], up to the registration of the handlers: the
    socket has passed the authentication middleware, which set
    [socket.user]. *)
Definition connection (userId : UserId) (name : string) (st : State)
    : State * list Delivery :=
  let sid := nextSocket st in
  let sock :=
    mkSocket userId name ({[UserRoom userId]} ∪ joinUserConversations userId (db st)) in
  let st' :=
    mkState (db st) (<[userId:=sid]> (onlineUsers st))
      (<[sid:=sock]> (sockets st)) (S sid) in
  (st', broadcast sid (user_online userId name) st').

(** [socket.join(room)]. *)
Definition join (sid : SocketId) (r : Room) (st : State) : State :=
  mkState (db st) (onlineUsers st)
    (alter (λ sock, mkSocket (s_user sock) (s_name sock) ({[r]} ∪ s_rooms sock))
       sid (sockets st))
    (nextSocket st).

(** [socket.on('join_conversation', ...)]. *)
Definition join_conversation (sid : SocketId) (conversationId : ObjectId) (st : State)
    : State * list Delivery :=
  match sockets st !! sid with
  | None => (st, [])
  | Some sock =>
    let userId := s_user sock in
    match ConversationModel.findById conversationId (db st) with
    | None => (st, [(sid, error "Conversation not found")])
    | Some conversation =>
      if negb (has_participant userId conversation)
      then (st, [(sid, error "Not authorized")])
      else (join sid (ConversationRoom conversationId) st, [])
    end
  end.

(** The loop [for (const participantId of otherParticipants) await
    conversation.incrementUnread(participantId)]. *)
Definition increment_others (otherParticipants : list UserId)
    (conversation : Conversation) (d : Database) : Conversation * Database :=
  fold_left (λ cd participantId,
               ConversationModel.incrementUnread participantId (fst cd) (snd cd))
    otherParticipants (conversation, d).

(** The loop that marks the message delivered to the recipients that are
    online and tells each of them. *)
Fixpoint deliver_online (st : State) (conversationId : ObjectId) (now : Date)
    (otherParticipants : list UserId) (message : Message) (d : Database)
    : Database * list Delivery :=
  match otherParticipants with
  | [] => (d, [])
  | participantId :: rest =>
    match onlineUsers st !! participantId with
    | Some participantSocketId =>
      let '(message', d') :=
        MessageModel.markAsDelivered now participantId message d in
      let '(d'', out) := deliver_online st conversationId now rest message' d' in
      (d'', to_socket participantSocketId
              (message_delivered (m_id message) conversationId) st ++ out)
    | None => deliver_online st conversationId now rest message d
    end
  end.

(** [socket.on('send_message', ...)]. *)
Definition send_message (sid : SocketId) (data : SendData) (now : Date) (st : State)
    : State * list Delivery :=
  match sockets st !! sid with
  | None => (st, [])
  | Some sock =>
    let userId := s_user sock in
    match ConversationModel.findById (conversationId data) (db st) with
    | None => (st, [(sid, error "Conversation not found")])
    | Some conversation =>
      if negb (has_participant userId conversation)
      then (st, [(sid, error "Not authorized")])
      else
        match MessageModel.create (conversationId data) userId (sd_content data)
                (default "text" (sd_messageType data)) now (db st) with
        | None => (st, [(sid, error "Failed to send message")])
        | Some (message, db1) =>
          let otherParticipants :=
            List.filter (λ p, negb (String.eqb p userId)) (participants conversation) in
          let db2 := snd (increment_others otherParticipants conversation db1) in
          let '(db3, delivered) :=
            deliver_online st (conversationId data) now otherParticipants message db2 in
          (with_db db3 st,
           to_room (ConversationRoom (conversationId data))
             (new_message message (conversationId data)) st
           ++ [(sid, message_sent (tempId data) message)]
           ++ delivered)
        end
    end
  end.

(** [socket.on('message_read', ...)]. *)
Definition message_read (sid : SocketId) (messageId conversationId : ObjectId)
    (now : Date) (st : State) : State * list Delivery :=
  match sockets st !! sid with
  | None => (st, [])
  | Some sock =>
    let userId := s_user sock in
    match MessageModel.findById messageId (db st) with
    | None => (st, [])
    | Some message =>
      let '(message', db1) := MessageModel.markAsRead now userId message (db st) in
      (with_db db1 st,
       match onlineUsers st !! sender message' with
       | Some senderSocketId =>
         to_socket senderSocketId
           (message_read_receipt messageId conversationId userId now) st
       | None => []
       end)
    end
  end.

(** [socket.on('typing_start', ...)]. *)
Definition typing_start (sid : SocketId) (conversationId : ObjectId) (st : State)
    : State * list Delivery :=
  match sockets st !! sid with
  | None => (st, [])
  | Some sock =>
    let userId := s_user sock in
    match ConversationModel.findById conversationId (db st) with
    | None => (st, [])
    | Some conversation =>
      if negb (has_participant userId conversation) then (st, [])
      else
        (st, to_room_except sid (ConversationRoom conversationId)
               (user_typing conversationId userId (s_name sock)) st)
    end
  end.

(** [socket.on('typing_stop', ...)]. *)
Definition typing_stop (sid : SocketId) (conversationId : ObjectId) (st : State)
    : State * list Delivery :=
  match sockets st !! sid with
  | None => (st, [])
  | Some sock =>
    (st, to_room_except sid (ConversationRoom conversationId)
           (user_stop_typing conversationId (s_user sock)) st)
  end.

(** [socket.on('disconnect', ...)]: the socket has left its rooms and the
    server when the handler runs. *)
Definition disconnect (sid : SocketId) (st : State) : State * list Delivery :=
  match sockets st !! sid with
  | None => (st, [])
  | Some sock =>
    let st' :=
      mkState (db st) (delete (s_user sock) (onlineUsers st))
        (delete sid (sockets st)) (nextSocket st) in
    (st', broadcast sid (user_offline (s_user sock) (s_name sock)) st')
  end.

(** [getOnlineUsers()]. *)
Definition getOnlineUsers (st : State) : list UserId :=
  map fst (map_to_list (onlineUsers st)).

(** [isUserOnline(userId)]. *)
Definition isUserOnline (userId : UserId) (st : State) : bool :=
  bool_decide (is_Some (onlineUsers st !! userId)).

End SocketHandlers.

(** ** The server as a transition system *)

(** What reaches the server: the socket events of a connection and the two
    requests of the chat routes that write to the store. *)
Inductive Event :=
| Connect (userId : UserId) (name : string)
| JoinConversation (sid : SocketId) (conversationId : ObjectId)
| SendMessage (sid : SocketId) (data : SendData) (now : Date)
| MessageRead (sid : SocketId) (messageId conversationId : ObjectId) (now : Date)
| TypingStart (sid : SocketId) (conversationId : ObjectId)
| TypingStop (sid : SocketId) (conversationId : ObjectId)
| Disconnect (sid : SocketId)
| PostConversation (now : Date) (userId : UserId) (participantId : option UserId)
| PatchRead (now : Date) (userId : UserId) (id : ObjectId).

Definition step (ev : Event) (st : State) : State * list Delivery :=
  match ev with
  | Connect userId name => SocketHandlers.connection userId name st
  | JoinConversation sid cid => SocketHandlers.join_conversation sid cid st
  | SendMessage sid data now => SocketHandlers.send_message sid data now st
  | MessageRead sid mid cid now => SocketHandlers.message_read sid mid cid now st
  | TypingStart sid cid => SocketHandlers.typing_start sid cid st
  | TypingStop sid cid => SocketHandlers.typing_stop sid cid st
  | Disconnect sid => SocketHandlers.disconnect sid st
  | PostConversation now userId participantId =>
    (with_db (snd (ChatController.createConversation now userId participantId (db st))) st,
     [])
  | PatchRead now userId id =>
    (with_db (snd (ChatController.markAsRead now userId id (db st))) st, [])
  end.

(** The events handled one after the other, with everything emitted. *)
Fixpoint run (evs : list Event) (st : State) : State * list Delivery :=
  match evs with
  | [] => (st, [])
  | ev :: rest =>
    let '(st1, out1) := step ev st in
    let '(st2, out2) := run rest st1 in
    (st2, out1 ++ out2)
  end.

(** A process starts with no socket and nobody online. *)
Definition initial (d : Database) : State := mkState d ∅ ∅ 0.

(** A well-formed store: its conversations have distinct ids, below the id
    counter. *)
Definition db_wf (d : Database) : Prop :=
  NoDup (map c_id (conversations d))
  ∧ Forall (λ c, c_id c < nextId d) (conversations d).

(** The store after some operations: it is still well formed, and every
    conversation is still there with the participants it had. *)
Definition db_grows (d d' : Database) : Prop :=
  (db_wf d → db_wf d')
  ∧ ∀ id c, db_wf d → ConversationModel.findById id d = Some c →
            ∃ c', ConversationModel.findById id d' = Some c'
                  ∧ participants c' = participants c.

(** Socket ids are drawn from the counter. *)
Definition sockets_inv (st : State) : Prop :=
  ∀ sid sock, sockets st !! sid = Some sock → sid < nextSocket st.

(** A socket is in the room of a conversation only if its user is a
    participant of that conversation. *)
Definition rooms_inv (st : State) : Prop :=
  ∀ sid sock cid,
    sockets st !! sid = Some sock → ConversationRoom cid ∈ s_rooms sock →
    ∃ c, ConversationModel.findById cid (db st) = Some c
         ∧ has_participant (s_user sock) c = true.

Definition state_inv (st : State) : Prop :=
  db_wf (db st) ∧ sockets_inv st ∧ rooms_inv st.

(** ** Sends and resets on one conversation *)

(** What happens to one conversation: a [send_message] of a socket, a
    [resetUnread] of a participant, and the mark-as-read request of a
    participant, which ends with a [resetUnread]. *)
Inductive ConversationOp :=
| SendOp (sid : SocketId) (content : JsString) (messageType tempId : option string)
    (now : Date)
| ResetOp (userId : UserId)
| ReadOp (userId : UserId) (now : Date).

(** The message of the [message_sent] confirmation: a send succeeded when
    there is one. *)
Definition sent_message (out : list Delivery) : option Message :=
  head (omap (λ d, match snd d with message_sent _ m => Some m | _ => None end) out).

(** [ops] on the conversation [cid], from [st], handled one after the other
    (each handler runs to its end before the next operation starts): the
    final state and the messages sent, in order; [None] when a send fails,
    when the conversation is missing at a reset or when the request is
    refused. Handlers that overlap are the subject of [run_sends]. *)
Fixpoint run_ops (cid : ObjectId) (ops : list ConversationOp) (st : State)
    : option (State * list Message) :=
  match ops with
  | [] => Some (st, [])
  | SendOp sid content messageType tempId now :: rest =>
    let '(st1, out) :=
      SocketHandlers.send_message sid (mkSendData cid content messageType tempId) now st in
    match sent_message out with
    | None => None
    | Some m =>
      match run_ops cid rest st1 with
      | Some (st', ms) => Some (st', m :: ms)
      | None => None
      end
    end
  | ResetOp userId :: rest =>
    match ConversationModel.findById cid (db st) with
    | None => None
    | Some c =>
      run_ops cid rest (with_db (snd (ConversationModel.resetUnread userId c (db st))) st)
    end
  | ReadOp userId now :: rest =>
    match ChatController.markAsRead now userId cid (db st) with
    | (Json _ _, d') => run_ops cid rest (with_db d' st)
    | _ => None
    end
  end.

Definition is_reset (p : UserId) (op : ConversationOp) : bool :=
  match op with
  | ResetOp u | ReadOp u _ => String.eqb u p
  | SendOp _ _ _ _ _ => false
  end.

Definition has_reset (p : UserId) (ops : list ConversationOp) : bool :=
  existsb (is_reset p) ops.

(** The operations that follow the last reset of [p] (all of them when [p]
    never resets). *)
Fixpoint after_last_reset (p : UserId) (ops : list ConversationOp)
    : list ConversationOp :=
  match ops with
  | [] => []
  | op :: rest => if has_reset p ops then after_last_reset p rest else ops
  end.

(** A send of a socket whose user is not [p]. *)
Definition is_send_by_other (st : State) (p : UserId) (op : ConversationOp) : bool :=
  match op with
  | SendOp sid _ _ _ _ =>
    match sockets st !! sid with
    | Some sock => negb (String.eqb (s_user sock) p)
    | None => false
    end
  | ResetOp _ | ReadOp _ _ => false
  end.

Definition sends_by_others (st : State) (p : UserId) (ops : list ConversationOp) : nat :=
  length (List.filter (is_send_by_other st p) ops).

Definition is_send (op : ConversationOp) : bool :=
  match op with
  | SendOp _ _ _ _ _ => true
  | _ => false
  end.

Definition count_sends (ops : list ConversationOp) : nat :=
  length (List.filter is_send ops).

(** No mark-as-read request comes after the last send: each one is followed
    by a later send. *)
Fixpoint settled (ops : list ConversationOp) : bool :=
  match ops with
  | [] => true
  | ReadOp _ _ :: rest => existsb is_send rest && settled rest
  | _ :: rest => settled rest
  end.

(** ** Overlapping calls of [findOrCreate] *)

(** A call of [findOrCreate] between its two awaited store operations. *)
Inductive Call :=
| Calling (userId1 userId2 : UserId)
| Creating (userId1 userId2 : UserId)
| Resolved (conversation : Conversation).

(** The next store operation of a call: the lookup of [findBetweenUsers],
    then, when it found nothing, the [create]. *)
Definition call_step (now : Date) (k : Call) (d : Database) : Call * Database :=
  match k with
  | Calling userId1 userId2 =>
    match ConversationModel.findBetweenUsers userId1 userId2 d with
    | Some conversation => (Resolved conversation, d)
    | None => (Creating userId1 userId2, d)
    end
  | Creating userId1 userId2 =>
    let '(conversation, d') := ConversationModel.create now userId1 userId2 d in
    (Resolved conversation, d')
  | Resolved _ => (k, d)
  end.

(** A schedule names, operation after operation, the call that goes next. *)
Fixpoint run_schedule (now : Date) (schedule : list nat) (calls : list Call)
    (d : Database) : list Call * Database :=
  match schedule with
  | [] => (calls, d)
  | i :: rest =>
    match calls !! i with
    | Some k =>
      let '(k', d') := call_step now k d in
      run_schedule now rest (<[i:=k']> calls) d'
    | None => run_schedule now rest calls d
    end
  end.

(** The schedule in which call [i] finishes before call [i + 1] starts. *)
Definition sequential (n : nat) : list nat :=
  flat_map (λ i, [i; i]) (seq 0 n).

Definition resolved_id (k : Call) : option ObjectId :=
  match k with
  | Resolved c => Some (c_id c)
  | _ => None
  end.

(** The calls made one after the other, each [findOrCreate] whole. *)
Fixpoint one_by_one (now : Date) (pairs : list (UserId * UserId)) (d : Database)
    : list Call * Database :=
  match pairs with
  | [] => ([], d)
  | (userId1, userId2) :: rest =>
    let '(conversation, d') := ConversationModel.findOrCreate now userId1 userId2 d in
    let '(ks, d'') := one_by_one now rest d' in
    (Resolved conversation :: ks, d'')
  end.

Definition calling (pair : UserId * UserId) : Call := Calling pair.1 pair.2.

(** ** Overlapping [send_message] handlers *)

(** A [send_message] handler between awaited store operations: before the
    conversation is loaded ([findById]), with the conversation loaded and
    the participant check passed, with the message created and counted
    ([Message.create] and the [incrementUnread] loop), and finished, with the
    message it sent if any. The handler awaits more often than this (after
    the create, after each increment and after each delivery); these stages
    are enough to show what overlapping handlers do. [userId] is the user
    of the socket, fixed when the socket connected. *)
Inductive Sending :=
| Loading (sid : SocketId) (data : SendData) (now : Date)
| Storing (sid : SocketId) (userId : UserId) (data : SendData) (now : Date)
    (conversation : Conversation)
| Delivering (sid : SocketId) (userId : UserId) (data : SendData) (now : Date)
    (conversation : Conversation) (message : Message)
| Finished (message : option Message).

(** The next stage of a handler: the new stage, the state and what is
    emitted. The conversation a handler holds is the one it loaded. *)
Definition send_step (k : Sending) (st : State) : Sending * State * list Delivery :=
  match k with
  | Loading sid data now =>
    match sockets st !! sid with
    | None => (Finished None, st, [])
    | Some sock =>
      let userId := s_user sock in
      match ConversationModel.findById (conversationId data) (db st) with
      | None => (Finished None, st, [(sid, error "Conversation not found")])
      | Some conversation =>
        if negb (has_participant userId conversation)
        then (Finished None, st, [(sid, error "Not authorized")])
        else (Storing sid userId data now conversation, st, [])
      end
    end
  | Storing sid userId data now conversation =>
    match MessageModel.create (conversationId data) userId (sd_content data)
            (default "text" (sd_messageType data)) now (db st) with
    | None =>
      (Finished None, st, SocketHandlers.to_socket sid (error "Failed to send message") st)
    | Some (message, db1) =>
      let otherParticipants :=
        List.filter (λ p, negb (String.eqb p userId)) (participants conversation) in
      let db2 := snd (SocketHandlers.increment_others otherParticipants conversation db1) in
      (Delivering sid userId data now conversation message, with_db db2 st, [])
    end
  | Delivering sid userId data now conversation message =>
    let otherParticipants :=
      List.filter (λ p, negb (String.eqb p userId)) (participants conversation) in
    let '(db3, delivered) :=
      SocketHandlers.deliver_online st (conversationId data) now otherParticipants
        message (db st) in
    (Finished (Some message), with_db db3 st,
     SocketHandlers.to_room (ConversationRoom (conversationId data))
       (new_message message (conversationId data)) st
     ++ SocketHandlers.to_socket sid (message_sent (tempId data) message) st
     ++ delivered)
  | Finished _ => (k, st, [])
  end.

(** A schedule names, stage after stage, the handler that goes next. *)
Fixpoint run_sends (schedule : list nat) (ks : list Sending) (st : State)
    : list Sending * State :=
  match schedule with
  | [] => (ks, st)
  | i :: rest =>
    match ks !! i with
    | Some k =>
      let '(k', st', _) := send_step k st in
      run_sends rest (<[i:=k']> ks) st'
    | None => run_sends rest ks st
    end
  end.

(** The id of the message a finished handler sent. *)
Definition sent_id (k : Sending) : option ObjectId :=
  match k with
  | Finished (Some message) => Some (m_id message)
  | _ => None
  end.

(** ** Predicates of the specification *)

(** An active direct conversation whose participants are exactly [a] and
    [b]. *)
Definition active_direct_exactly (a b : UserId) (c : Conversation) : Prop :=
  isActive c = true ∧ conversationType c = direct
  ∧ ∀ x, x ∈ participants c ↔ x = a ∨ x = b.

(** A valid recipient of a message: a participant of its conversation other
    than its sender. *)
Definition valid_recipient (d : Database) (m : Message) (userId : UserId) : bool :=
  match ConversationModel.findById (conversation m) d with
  | Some c => has_participant userId c && negb (String.eqb userId (sender m))
  | None => false
  end.

(** Two versions of a conversation that differ at most in the last-message
    pointer and its time. *)
Definition same_but_last (c c' : Conversation) : Prop :=
  c_id c' = c_id c ∧ participants c' = participants c
  ∧ unreadCount c' = unreadCount c ∧ isActive c' = isActive c
  ∧ conversationType c' = conversationType c.

(** What the [markAsRead] of the document [x] that appends [r] writes to
    the stored message [m]. *)
Definition marked (r : Receipt) (x m : Message) : Message :=
  if Nat.eqb (m_id m) (m_id x) then push_readBy r m else m.

(** The unread-count map after the increments of one send, and a
    conversation with its map replaced. *)
Definition bump (others : list UserId) (uc : gmap string nat) : gmap string nat :=
  fold_left (λ uc' p, <[p:=default 0 (uc' !! p) + 1]> uc') others uc.

Definition set_counts (uc : gmap string nat) (c : Conversation) : Conversation :=
  mkConversation (c_id c) (participants c) (lastMessage c) (lastMessageAt c)
    uc (isActive c) (conversationType c).

(** The last-message pointer of [c'] after the sends that produced [msgs],
    from a conversation [c]: the last of the messages when there is one. *)
Definition points_to_last (msgs : list Message) (c c' : Conversation) : Prop :=
  match last msgs with
  | Some m => lastMessage c' = Some (m_id m) ∧ lastMessageAt c' = createdAt m
  | None => lastMessage c' = lastMessage c ∧ lastMessageAt c' = lastMessageAt c
  end.

(** Ascending creation time. *)
Definition older_first (a b : Message) : Prop := (createdAt a ≤ createdAt b)%Z.

(** ** Example data *)

Definition users_ex : gmap string User :=
  <["P":=mkUser "Pat" "patient"]>
    (<["D":=mkUser "Doc" "doctor"]>
       (<["X":=mkUser "Xen" "patient"]> (<["R":=mkUser "Root" "admin"]> ∅))).

(** An empty store. *)
Definition db_empty : Database := mkDatabase [] [] users_ex 0.

(** A store whose only conversation, between P and D, is inactive. *)
Definition db_inactive : Database :=
  mkDatabase [mkConversation 0 ["P"; "D"] None 0%Z ∅ false direct] [] users_ex 1.

(** A store whose only conversation is direct and has three participants. *)
Definition db_three : Database :=
  mkDatabase [mkConversation 0 ["P"; "D"; "X"] None 0%Z ∅ true direct] [] users_ex 1.

(** P and D in conversation 0: D wrote message 1, then P wrote message 2. *)
Definition msg1 : Message := mkMessage 1 0 "D" (js "Hi") "text" [] [] false 1%Z.
Definition msg2 : Message := mkMessage 2 0 "P" (js "Hello") "text" [] [] false 2%Z.
Definition db_chat : Database :=
  mkDatabase
    [mkConversation 0 ["P"; "D"] (Some 2) 2%Z (<["P":=1]> (<["D":=1]> ∅)) true direct]
    [msg1; msg2] users_ex 3.

(** P and D connected, as sockets 0 and 1, on the store of their chat. *)
Definition st_chat : State :=
  (run [Connect "P" "Pat"; Connect "D" "Doc"] (initial db_chat)).1.

(** P sends, D resets, D sends, P marks the conversation read, P sends. *)
Definition ops_chat : list ConversationOp :=
  [SendOp 0 (js "a") None None 10%Z; ResetOp "D";
   SendOp 1 (js "b") None (Some "t") 11%Z; ReadOp "P" 12%Z;
   SendOp 0 (js "c") (Some "text") None 13%Z].

(** The events that connect P, D and X, as sockets 0, 1 and 2. *)
Definition evs_three : list Event :=
  [Connect "P" "Pat"; Connect "D" "Doc"; Connect "X" "Xen"].

(** Sixty messages of P in conversation 0, message [i] created at time
    [i], and the ids of the messages of a response. *)
Definition db_sixty : Database :=
  mkDatabase [mkConversation 0 ["P"; "D"] (Some 60) 60%Z ∅ true direct]
    (map (λ i, mkMessage i 0 "P" (js "m") "text" [] [] false (Z.of_nat i)) (seq 1 60))
    users_ex 61.

Definition response_ids (r : Response (list Message)) : option (list ObjectId) :=
  match r with
  | Json _ msgs => Some (map m_id msgs)
  | _ => None
  end.

(** P and D connect, P asks for the conversation with D, both join its
    room, P sends Hello, D marks the conversation read. *)
Definition evs_hello : list Event :=
  [Connect "P" "Pat"; Connect "D" "Doc"; PostConversation 1%Z "P" (Some "D");
   JoinConversation 0 0; JoinConversation 1 0;
   SendMessage 0 (mkSendData 0 (js "Hello") None (Some "t1")) 2%Z;
   PatchRead 3%Z "D" 0].

(** ** Further notions for the properties of the handlers *)

(** A string of white space only (the empty string included). *)
Definition blank (s : JsString) : bool := forallb MessageModel.is_white_space s.

(** The participants a send of [userId] counts as recipients. *)
Definition others_of (userId : UserId) (c : Conversation) : list UserId :=
  List.filter (λ p, negb (String.eqb p userId)) (participants c).

(** The document [Message.create] builds for a send. *)
Definition sent_doc (d : Database) (cid : ObjectId) (userId : UserId)
    (content : JsString) (mtype : option string) (now : Date) : Message :=
  mkMessage (nextId d) cid userId (MessageModel.trim content) (default "text" mtype)
    [] [] false now.

(** A message with delivery records added at the end. *)
Definition add_delivered (rs : list Receipt) (m : Message) : Message :=
  mkMessage (m_id m) (conversation m) (sender m) (content m) (messageType m)
    (readBy m) (deliveredTo m ++ rs) (isDeleted m) (createdAt m).

(** The recipients that are in [onlineUsers], their delivery records, and
    the [message_delivered] events sent to their registered sockets. *)
Definition online_of (st : State) (ps : list UserId) : list UserId :=
  List.filter (λ p, bool_decide (is_Some (onlineUsers st !! p))) ps.

Definition online_receipts (st : State) (now : Date) (ps : list UserId) : list Receipt :=
  map (λ p, mkReceipt p now) (online_of st ps).

Definition delivery_events (st : State) (cid mid : ObjectId) (ps : list UserId)
    : list Delivery :=
  flat_map (λ p, match onlineUsers st !! p with
                 | Some s => SocketHandlers.to_socket s (message_delivered mid cid) st
                 | None => []
                 end) ps.

(** Every entry of [onlineUsers] names a connected socket of that user. *)
Definition presence_inv (st : State) : Prop :=
  ∀ u s, onlineUsers st !! u = Some s →
         ∃ sock, sockets st !! s = Some sock ∧ s_user sock = u.

(** ** The writes to the store *)

(** The document [doc] is in the store, whatever its receipts there. *)
Definition stored_as (doc : Message) (d : Database) : Prop :=
  ∃ m, m ∈ messages d ∧ m_id m = m_id doc ∧ conversation m = conversation doc
       ∧ createdAt m = createdAt doc.

(** The store has a conversation [cid] with the participants [ps]. *)
Definition has_conversation (cid : ObjectId) (ps : list UserId) (d : Database) : Prop :=
  ∃ c, c ∈ conversations d ∧ c_id c = cid ∧ participants c = ps.

(** The writes the handlers send to the store: a receipt pushed on a
    message, the post-save hook of a message that is stored, an unread
    counter set for a participant, a new message and a new conversation. *)
Inductive StoreWrite (d : Database) : Database → Prop :=
| write_readBy (id : ObjectId) (r : Receipt) :
    StoreWrite d (MessageModel.update id (push_readBy r) d)
| write_deliveredTo (id : ObjectId) (r : Receipt) :
    StoreWrite d (MessageModel.update id (push_deliveredTo r) d)
| write_last (doc : Message) :
    stored_as doc d → StoreWrite d (MessageModel.post_save doc d)
| write_unread (cid : ObjectId) (ps : list UserId) (key : UserId) (n : nat) :
    has_conversation cid ps d → key ∈ ps →
    StoreWrite d (ConversationModel.findByIdAndUpdate cid (set_unread key n) d)
| write_message (doc : Message) :
    m_id doc = nextId d →
    StoreWrite d (mkDatabase (conversations d) (messages d ++ [doc]) (users d)
               (S (nextId d)))
| write_conversation (now : Date) (a b : UserId) :
    StoreWrite d (ConversationModel.create now a b d).2.

Definition StoreWrites : relation Database := rtc StoreWrite.

(** [m'] is [m] with receipts added at the end of its two lists. *)
Definition receipts_added (m m' : Message) : Prop :=
  m_id m' = m_id m ∧ conversation m' = conversation m ∧ sender m' = sender m
  ∧ content m' = content m ∧ messageType m' = messageType m
  ∧ isDeleted m' = isDeleted m ∧ createdAt m' = createdAt m
  ∧ readBy m `prefix_of` readBy m' ∧ deliveredTo m `prefix_of` deliveredTo m'.

(** The messages of [d] are those of [d'], in the same order and up to
    added receipts, followed by new ones. *)
Definition messages_kept (d d' : Database) : Prop :=
  ∃ kept added, messages d' = kept ++ added
                ∧ Forall2 receipts_added (messages d) kept.

(** The last-message pointer of a conversation names a stored message of
    that conversation, created at the time of last activity. *)
Definition last_inv (d : Database) : Prop :=
  ∀ c mid, c ∈ conversations d → lastMessage c = Some mid →
    ∃ m, m ∈ messages d ∧ m_id m = mid ∧ conversation m = c_id c
         ∧ createdAt m = lastMessageAt c.

(** Only participants have an unread counter. *)
Definition unread_inv (d : Database) : Prop :=
  ∀ c key, c ∈ conversations d → is_Some (unreadCount c !! key) →
           key ∈ participants c.

(** Ids are drawn from the counter of the store: those of the conversations
    and those of the messages are distinct and below it. *)
Definition ids_wf (d : Database) : Prop :=
  db_wf d ∧ NoDup (map m_id (messages d))
  ∧ Forall (λ m, m_id m < nextId d) (messages d).

(** A conversation as the code creates it: [findOrCreate] is the only
    writer of the collection, what it creates is active and direct with two
    participants, and no code path changes the participants, the type or
    the active flag of a conversation. *)
Definition as_created (c : Conversation) : Prop :=
  isActive c = true ∧ conversationType c = direct ∧ length (participants c) = 2.

Definition conversations_inv (d : Database) : Prop :=
  Forall as_created (conversations d).

(** * Properties *)

(** ** The stores *)

Section Stores.

Implicit Types (d : Database) (c : Conversation) (m : Message).

Lemma find_map_id {A} (key : A → nat) (f : A → A) (id id' : nat) (l : list A) :
  (∀ x, key (f x) = key x) →
  List.find (λ x, Nat.eqb (key x) id)
    (map (λ x, if Nat.eqb (key x) id' then f x else x) l)
  = (if Nat.eqb id id' then f else (λ x, x)) <$> List.find (λ x, Nat.eqb (key x) id) l.
Proof.
  intros Hkey. induction l as [|x l IH]; simpl.
  - by destruct (Nat.eqb id id').
  - destruct (Nat.eqb (key x) id') eqn:E'.
    + rewrite Hkey. destruct (Nat.eqb (key x) id) eqn:E; [|done].
      apply Nat.eqb_eq in E, E'. subst. by rewrite Nat.eqb_refl.
    + destruct (Nat.eqb (key x) id) eqn:E; [|done].
      apply Nat.eqb_eq in E. subst. by rewrite E'.
Qed.

Lemma find_some_id {A} (key : A → nat) (id : nat) (l : list A) (x : A) :
  List.find (λ x, Nat.eqb (key x) id) l = Some x → key x = id ∧ x ∈ l.
Proof.
  intros H. apply find_some in H as [Hin Heq].
  split; [by apply Nat.eqb_eq | by apply list_elem_of_In].
Qed.

Lemma c_id_set_last mid t c : c_id (set_last mid t c) = c_id c.
Proof. done. Qed.

Lemma c_id_set_unread k n c : c_id (set_unread k n c) = c_id c.
Proof. done. Qed.

Lemma findById_update_conversation id id' f d :
  (∀ c, c_id (f c) = c_id c) →
  ConversationModel.findById id (ConversationModel.findByIdAndUpdate id' f d)
  = (if Nat.eqb id id' then f else (λ c, c)) <$> ConversationModel.findById id d.
Proof. intros Hf. unfold ConversationModel.findById. simpl. by apply find_map_id. Qed.

Lemma findById_update_message id id' f d :
  (∀ m, m_id (f m) = m_id m) →
  MessageModel.findById id (MessageModel.update id' f d)
  = (if Nat.eqb id id' then f else (λ m, m)) <$> MessageModel.findById id d.
Proof. intros Hf. unfold MessageModel.findById. simpl. by apply find_map_id. Qed.

Lemma isReadBy_push (r : Receipt) m userId :
  MessageModel.isReadBy (push_readBy r m) userId
  = MessageModel.isReadBy m userId || String.eqb (r_user r) userId.
Proof.
  unfold MessageModel.isReadBy. simpl. rewrite existsb_app. simpl.
  by rewrite orb_false_r.
Qed.

Lemma isDeliveredTo_push (r : Receipt) m userId :
  MessageModel.isDeliveredTo (push_deliveredTo r m) userId
  = MessageModel.isDeliveredTo m userId || String.eqb (r_user r) userId.
Proof.
  unfold MessageModel.isDeliveredTo. simpl. rewrite existsb_app. simpl.
  by rewrite orb_false_r.
Qed.

End Stores.

(** ** Read and delivery records *)

(** The stored message after a mark that found no record. *)
Lemma first_mark_stored (now : Date) (userId : UserId) (this : Message)
    (d : Database) :
  MessageModel.findById (m_id this)
    (MessageModel.post_save (push_readBy (mkReceipt userId now) this)
       (MessageModel.update (m_id this) (push_readBy (mkReceipt userId now)) d))
  = push_readBy (mkReceipt userId now) <$> MessageModel.findById (m_id this) d
  ∧ MessageModel.findById (m_id this)
      (MessageModel.post_save (push_deliveredTo (mkReceipt userId now) this)
         (MessageModel.update (m_id this) (push_deliveredTo (mkReceipt userId now)) d))
    = push_deliveredTo (mkReceipt userId now) <$> MessageModel.findById (m_id this) d.
Proof.
  split.
  - change (MessageModel.findById (m_id this)
              (MessageModel.update (m_id this) (push_readBy (mkReceipt userId now)) d)
            = push_readBy (mkReceipt userId now) <$> MessageModel.findById (m_id this) d).
    rewrite findById_update_message by done. by rewrite Nat.eqb_refl.
  - change (MessageModel.findById (m_id this)
              (MessageModel.update (m_id this)
                 (push_deliveredTo (mkReceipt userId now)) d)
            = push_deliveredTo (mkReceipt userId now)
                <$> MessageModel.findById (m_id this) d).
    rewrite findById_update_message by done. by rewrite Nat.eqb_refl.
Qed.

(** C4. [markAsRead] and [markAsDelivered] are idempotent: a second call
    for the same message and recipient, at any later time, returns the
    document and the store of the first call unchanged; the record of the
    recipient is the one the first call found or appended (with the time of
    the first call), in the document and in the store. *)
Theorem mark_idempotent (now1 now2 : Date) (userId : UserId) (this : Message)
    (d : Database) :
  let m1 := (MessageModel.markAsRead now1 userId this d).1 in
  let d1 := (MessageModel.markAsRead now1 userId this d).2 in
  let m2 := (MessageModel.markAsDelivered now1 userId this d).1 in
  let d2 := (MessageModel.markAsDelivered now1 userId this d).2 in
  (MessageModel.markAsRead now2 userId m1 d1 = (m1, d1)
   ∧ readBy m1 = (if MessageModel.isReadBy this userId then readBy this
                  else readBy this ++ [mkReceipt userId now1])
   ∧ MessageModel.findById (m_id this) d1
     = (if MessageModel.isReadBy this userId then (λ m, m)
        else push_readBy (mkReceipt userId now1))
         <$> MessageModel.findById (m_id this) d)
  ∧ (MessageModel.markAsDelivered now2 userId m2 d2 = (m2, d2)
     ∧ deliveredTo m2 = (if MessageModel.isDeliveredTo this userId then deliveredTo this
                         else deliveredTo this ++ [mkReceipt userId now1])
     ∧ MessageModel.findById (m_id this) d2
       = (if MessageModel.isDeliveredTo this userId then (λ m, m)
          else push_deliveredTo (mkReceipt userId now1))
           <$> MessageModel.findById (m_id this) d).
Proof.
  simpl. pose proof (first_mark_stored now1 userId this d) as [Hr Hd].
  unfold MessageModel.markAsRead, MessageModel.markAsDelivered. split.
  - destruct (MessageModel.isReadBy this userId) eqn:E; simpl.
    + rewrite E. by rewrite option_fmap_id.
    + rewrite isReadBy_push. simpl. by rewrite String.eqb_refl, orb_true_r.
  - destruct (MessageModel.isDeliveredTo this userId) eqn:E; simpl.
    + rewrite E. by rewrite option_fmap_id.
    + rewrite isDeliveredTo_push. simpl. by rewrite String.eqb_refl, orb_true_r.
Qed.

(** An identity that is not a recipient of the message still gets a read
    record: X is no participant of conversation 0, P is the sender of
    message 2. *)
Lemma mark_invalid_recipient_recorded :
  valid_recipient db_chat msg2 "X" = false
  ∧ readBy (MessageModel.markAsRead 7%Z "X" msg2 db_chat).1 = [mkReceipt "X" 7%Z]
  ∧ valid_recipient db_chat msg2 "P" = false
  ∧ deliveredTo (MessageModel.markAsDelivered 7%Z "P" msg2 db_chat).1
    = [mkReceipt "P" 7%Z]
  ∧ (MessageModel.findById 2 (MessageModel.markAsRead 7%Z "X" msg2 db_chat).2
     ≠ MessageModel.findById 2 db_chat).
Proof. repeat split; try reflexivity. vm_compute. discriminate. Qed.

(** C5, as the code has it. For an identity that is not a valid recipient
    of the message, [markAsRead] and [markAsDelivered] return normally (they
    have no error result) and check nothing but the presence of a record of
    that identity: with a record present the call changes nothing; without
    one it appends the record of the identity and the current time to the
    respective list, in the document and in the store, and leaves the other
    list and the records already there as they were. *)
Theorem mark_invalid_recipient (now : Date) (userId : UserId) (this : Message)
    (d : Database) :
  valid_recipient d this userId = false →
  let m1 := (MessageModel.markAsRead now userId this d).1 in
  let d1 := (MessageModel.markAsRead now userId this d).2 in
  let m2 := (MessageModel.markAsDelivered now userId this d).1 in
  let d2 := (MessageModel.markAsDelivered now userId this d).2 in
  (if MessageModel.isReadBy this userId then m1 = this ∧ d1 = d
   else readBy m1 = readBy this ++ [mkReceipt userId now]
        ∧ deliveredTo m1 = deliveredTo this
        ∧ MessageModel.findById (m_id this) d1
          = push_readBy (mkReceipt userId now) <$> MessageModel.findById (m_id this) d)
  ∧ (if MessageModel.isDeliveredTo this userId then m2 = this ∧ d2 = d
     else deliveredTo m2 = deliveredTo this ++ [mkReceipt userId now]
          ∧ readBy m2 = readBy this
          ∧ MessageModel.findById (m_id this) d2
            = push_deliveredTo (mkReceipt userId now)
                <$> MessageModel.findById (m_id this) d).
Proof.
  intros _. simpl.
  pose proof (first_mark_stored now userId this d) as [Hr Hd].
  unfold MessageModel.markAsRead, MessageModel.markAsDelivered in *.
  split.
  - destruct (MessageModel.isReadBy this userId); simpl in *; [done|].
    by rewrite Hr.
  - destruct (MessageModel.isDeliveredTo this userId); simpl in *; [done|].
    by rewrite Hd.
Qed.

Lemma mark_invalid_recipient_witness :
  valid_recipient db_chat msg2 "X" = false
  ∧ readBy (MessageModel.markAsRead 7%Z "X" msg2 db_chat).1
    = readBy msg2 ++ [mkReceipt "X" 7%Z].
Proof.
  split; [reflexivity|].
  exact (proj1 (proj1 (mark_invalid_recipient 7%Z "X" msg2 db_chat eq_refl))).
Defined.

(** Over the socket, an identity outside the conversation marks a message
    read: X, connected as socket 2, on message 2 of the chat of P and D. *)
Example message_read_by_outsider :
  readBy <$> MessageModel.findById 2
               (db (SocketHandlers.message_read 2 2 0 7%Z
                      (run evs_three (initial db_chat)).1).1)
  = Some [mkReceipt "X" 7%Z].
Proof. vm_compute. reflexivity. Qed.

(** ** Find or create a conversation *)

Section FindOrCreate.

Implicit Types (d : Database) (c : Conversation) (a b : UserId).

Lemma has_participant_elem a c : has_participant a c = true ↔ a ∈ participants c.
Proof.
  unfold has_participant. rewrite existsb_exists. split.
  - intros (x & Hin & Heq). apply String.eqb_eq in Heq. subst.
    by apply list_elem_of_In.
  - intros Hin. exists a. split; [by apply list_elem_of_In | apply String.eqb_refl].
Qed.

Lemma between_users_spec a b c :
  ConversationModel.between_users a b c = true
  ↔ conversationType c = direct ∧ a ∈ participants c ∧ b ∈ participants c.
Proof.
  unfold ConversationModel.between_users, is_direct.
  rewrite !andb_true_iff, !has_participant_elem.
  destruct (conversationType c); naive_solver.
Qed.

Lemma between_users_new id now a b :
  ConversationModel.between_users a b (ConversationModel.new_conversation id now a b) = true
  ∧ ConversationModel.between_users b a (ConversationModel.new_conversation id now a b) = true.
Proof. split; apply between_users_spec; simpl; set_solver. Qed.

Lemma between_users_sym a b c :
  ConversationModel.between_users a b c = ConversationModel.between_users b a c.
Proof.
  unfold ConversationModel.between_users.
  by rewrite (andb_comm (has_participant a c)).
Qed.

Lemma findBetweenUsers_sym a b d :
  ConversationModel.findBetweenUsers a b d = ConversationModel.findBetweenUsers b a d.
Proof.
  unfold ConversationModel.findBetweenUsers.
  induction (conversations d) as [|c l IH]; simpl; [done|].
  by rewrite (between_users_sym a b), IH.
Qed.

Lemma new_conversation_exact id now a b :
  active_direct_exactly a b (ConversationModel.new_conversation id now a b).
Proof. repeat split; simpl; set_solver. Qed.

End FindOrCreate.

(** The lookup of [findOrCreate] asks for a direct conversation that
    contains both users and nothing more: on a store with an inactive
    conversation, or with a direct conversation of three participants, it
    returns that conversation. No code path writes such a store (see
    [conversations_inv]). *)
Example findBetweenUsers_reads_no_flag :
  ¬ active_direct_exactly "P" "D" (ConversationModel.findOrCreate 5%Z "P" "D" db_inactive).1
  ∧ (ConversationModel.findOrCreate 5%Z "P" "D" db_inactive).2 = db_inactive
  ∧ ¬ active_direct_exactly "P" "D" (ConversationModel.findOrCreate 5%Z "P" "D" db_three).1
  ∧ (ConversationModel.findOrCreate 5%Z "P" "D" db_three).2 = db_three.
Proof.
  repeat split.
  - intros (Hact & _). vm_compute in Hact. discriminate.
  - intros (_ & _ & Hp). specialize (Hp "X"). vm_compute in Hp.
    destruct Hp as [Hp _].
    destruct Hp as [Hp|Hp]; [by repeat constructor | discriminate | discriminate].
Qed.

(** [findOrCreate(A, B)] on any store. It returns a stored conversation
    exactly when the store has a direct conversation whose participants
    include both A and B: it then returns the first of them and creates
    nothing. Otherwise it creates one conversation, appended to the store:
    active, direct, with participants exactly A and B, no last message, and
    an unread-count map with the entries 0 for A and 0 for B. *)
Lemma findOrCreate_cases (now : Date) (a b : UserId) (d : Database) :
  match ConversationModel.findBetweenUsers a b d with
  | Some c =>
    ConversationModel.findOrCreate now a b d = (c, d)
    ∧ c ∈ conversations d
    ∧ conversationType c = direct ∧ a ∈ participants c ∧ b ∈ participants c
  | None =>
    (∀ c, c ∈ conversations d →
          ¬ (conversationType c = direct ∧ a ∈ participants c ∧ b ∈ participants c))
    ∧ ∃ c, ConversationModel.findOrCreate now a b d
           = (c, mkDatabase (conversations d ++ [c]) (messages d) (users d)
                   (S (nextId d)))
           ∧ c_id c = nextId d
           ∧ active_direct_exactly a b c
           ∧ participants c = [a; b]
           ∧ lastMessage c = None
           ∧ unreadCount c !! a = Some 0 ∧ unreadCount c !! b = Some 0
           ∧ dom (unreadCount c) = {[a; b]}
  end.
Proof.
  unfold ConversationModel.findOrCreate.
  destruct (ConversationModel.findBetweenUsers a b d) as [c|] eqn:E.
  - unfold ConversationModel.findBetweenUsers in E.
    apply find_some in E as [Hin Hb]. apply between_users_spec in Hb.
    split; [done|]. split; [by apply list_elem_of_In | done].
  - split.
    + intros c Hin Hc. unfold ConversationModel.findBetweenUsers in E.
      apply list_elem_of_In in Hin.
      pose proof (find_none _ _ E c Hin) as Hn.
      apply between_users_spec in Hc. congruence.
    + eexists. split; [reflexivity|]. split; [done|].
      split; [apply new_conversation_exact|]. simpl. split; [done|].
      split; [done|]. split.
      { destruct (decide (a = b)) as [->|Hne].
        - by rewrite lookup_insert_eq.
        - by rewrite lookup_insert_ne, lookup_insert_eq. }
      split; [by rewrite lookup_insert_eq|].
      rewrite !dom_insert_L. set_solver.
Qed.

(** The request for one conversation refuses a non-participant. *)
Lemma getConversation_forbidden (userId : UserId) (id : ObjectId) (d : Database)
    (c : Conversation) :
  ConversationModel.findById id d = Some c →
  has_participant userId c = false →
  ChatController.getConversation userId id d
  = Failed 403 "Not authorized to access this conversation".
Proof. intros Hc Hp. unfold ChatController.getConversation. by rewrite Hc, Hp. Qed.

(** ** The role rule of the find-or-create request *)

(** C10. For a caller and a target that both resolve to users, the request
    fails with status 403 and leaves the store as it is when both have the
    role patient or both have the role doctor; for every other pairing of
    roles it answers 201 with the result of [findOrCreate] on the caller
    and the target. *)
Theorem createConversation_roles (now : Date) (userId pid : UserId) (d : Database)
    (currentUser participant : User) :
  pid ≠ "" →
  users d !! pid = Some participant →
  users d !! userId = Some currentUser →
  let same r := role currentUser = r ∧ role participant = r in
  (same "patient" ∨ same "doctor" →
   ∃ msg, ChatController.createConversation now userId (Some pid) d = (Failed 403 msg, d))
  ∧ (¬ (same "patient" ∨ same "doctor") →
     ChatController.createConversation now userId (Some pid) d
     = (Json 201 (ConversationModel.findOrCreate now userId pid d).1,
        (ConversationModel.findOrCreate now userId pid d).2)).
Proof.
  intros Hne Hp Hu same. unfold ChatController.createConversation.
  apply String.eqb_neq in Hne. rewrite Hne, Hp, Hu.
  destruct (String.eqb_spec (role currentUser) "patient") as [Hcp|Hcp];
    destruct (String.eqb_spec (role participant) "patient") as [Hpp|Hpp];
    destruct (String.eqb_spec (role currentUser) "doctor") as [Hcd|Hcd];
    destruct (String.eqb_spec (role participant) "doctor") as [Hpd|Hpd];
    simpl; unfold same;
    (split;
     [ intros H; try (eexists; reflexivity);
       exfalso; destruct H as [[? ?]|[? ?]]; congruence
     | intros H; try (exfalso; apply H; tauto);
       by destruct (ConversationModel.findOrCreate now userId pid d) ]).
Qed.

Lemma createConversation_roles_witness :
  (∃ msg, ChatController.createConversation 5%Z "P" (Some "X") db_empty
          = (Failed 403 msg, db_empty))
  ∧ ChatController.createConversation 5%Z "P" (Some "D") db_empty
    = (Json 201 (ConversationModel.findOrCreate 5%Z "P" "D" db_empty).1,
       (ConversationModel.findOrCreate 5%Z "P" "D" db_empty).2).
Proof.
  split.
  - apply (createConversation_roles 5%Z "P" "X" db_empty
             (mkUser "Pat" "patient") (mkUser "Xen" "patient"));
      [discriminate | reflexivity | reflexivity | left; split; reflexivity].
  - apply (createConversation_roles 5%Z "P" "D" db_empty
             (mkUser "Pat" "patient") (mkUser "Doc" "doctor"));
      [discriminate | reflexivity | reflexivity |].
    intros [[_ H]|[H _]]; discriminate.
Defined.

(** ** Pages of messages *)

Global Instance newer_first_trans : Transitive newer_first.
Proof. unfold newer_first. intros x y z ??. lia. Qed.

Global Instance newer_first_total : Total newer_first.
Proof. unfold newer_first. intros x y. lia. Qed.

Section Pages.

Variables (id : ObjectId) (bound : option Date) (n : nat) (l : list Message).

Let cands := List.filter (ChatController.messages_query id bound) l.
Let page := reverse (take n (merge_sort newer_first cands)).

Lemma page_split : cands ≡ₚ drop n (merge_sort newer_first cands) ++ page.
Proof.
  unfold page. rewrite reverse_Permutation.
  rewrite (Permutation_app_comm (drop n _)), take_drop.
  symmetry. apply merge_sort_Permutation.
Qed.

Lemma page_length : length page = min n (length cands).
Proof.
  unfold page. rewrite length_reverse, length_take.
  by rewrite (Permutation_length (merge_sort_Permutation newer_first cands)).
Qed.

Lemma page_sorted : Sorted older_first page.
Proof.
  unfold page.
  apply (Sorted_reverse newer_first).
  apply StronglySorted_Sorted.
  apply (StronglySorted_app_1_l _ _ (drop n (merge_sort newer_first cands))).
  rewrite take_drop. apply StronglySorted_merge_sort; apply _.
Qed.

Lemma page_most_recent o m :
  o ∈ drop n (merge_sort newer_first cands) → m ∈ page →
  (createdAt o ≤ createdAt m)%Z.
Proof.
  unfold page. rewrite elem_of_reverse. intros Ho Hm.
  pose proof (StronglySorted_merge_sort newer_first cands) as Hs.
  rewrite <- (take_drop n) in Hs.
  exact (StronglySorted_app_1_elem_of _ _ _ _ _ Hs Hm Ho).
Qed.

Lemma page_matches m :
  m ∈ page → m ∈ l ∧ ChatController.messages_query id bound m = true.
Proof.
  unfold page. rewrite elem_of_reverse. intros Hm.
  apply subseteq_take in Hm.
  rewrite (merge_sort_Permutation newer_first cands) in Hm.
  unfold cands in Hm. apply list_elem_of_In, filter_In in Hm as [Hin Hq].
  split; [by apply list_elem_of_In | done].
Qed.

End Pages.

(** C3. For a participant of the conversation and a positive limit L (50
    when the request gives none), [getMessages] answers 200 with at most L
    messages of the conversation, none of them deleted, in ascending order
    of creation time; they are the min(L, number of candidates) most recent
    candidates, a candidate being a non-deleted message of the conversation
    that, when the cursor resolves to a message M, was created strictly
    before M. With a cursor M every message of the page is strictly older
    than M; without a cursor the candidates are all the non-deleted messages
    of the conversation. *)
Theorem getMessages_page (userId : UserId) (id : ObjectId) (limit : option positive)
    (before : option ObjectId) (d : Database) (c : Conversation) :
  ConversationModel.findById id d = Some c →
  has_participant userId c = true →
  let L := Pos.to_nat (default 50%positive limit) in
  ∃ msgs,
    ChatController.getMessages userId id limit before d = Json 200 msgs
    ∧ length msgs ≤ L
    ∧ Forall (λ m, m ∈ messages d ∧ conversation m = id ∧ isDeleted m = false) msgs
    ∧ Sorted older_first msgs
    ∧ (∀ M beforeMessage,
         before = Some M → MessageModel.findById M d = Some beforeMessage →
         Forall (λ m, (createdAt m < createdAt beforeMessage)%Z) msgs)
    ∧ (let cands :=
         List.filter
           (ChatController.messages_query id (ChatController.before_bound before d))
           (messages d) in
       ∃ older,
         cands ≡ₚ older ++ msgs
         ∧ length msgs = min L (length cands)
         ∧ ∀ o m, o ∈ older → m ∈ msgs → (createdAt o ≤ createdAt m)%Z)
    ∧ (before = None →
       ChatController.before_bound before d = None
       ∧ ∀ m, ChatController.messages_query id None m = true
              ↔ conversation m = id ∧ isDeleted m = false).
Proof.
  intros Hc Hp L. eexists. unfold ChatController.getMessages.
  rewrite Hc, Hp. simpl. split; [reflexivity|].
  set (bound := ChatController.before_bound before d). fold L.
  split. { rewrite page_length. lia. }
  split.
  { apply Forall_forall. intros m Hm. apply page_matches in Hm as [Hin Hq].
    unfold ChatController.messages_query in Hq.
    apply andb_true_iff in Hq as [Hq _]. apply andb_true_iff in Hq as [Hq1 Hq2].
    apply Nat.eqb_eq in Hq1. apply negb_true_iff in Hq2. done. }
  split; [apply page_sorted|].
  split.
  { intros M bm -> Hbm. apply Forall_forall. intros m Hm.
    apply page_matches in Hm as [_ Hq].
    unfold bound, ChatController.before_bound in Hq. rewrite Hbm in Hq.
    unfold ChatController.messages_query in Hq.
    apply andb_true_iff in Hq as [_ Hq]. by apply Z.ltb_lt in Hq. }
  split.
  { eexists. split; [apply page_split|]. split; [apply page_length|].
    apply page_most_recent. }
  intros ->. split; [done|]. intros m.
  unfold ChatController.messages_query.
  rewrite andb_true_r, andb_true_iff, Nat.eqb_eq, negb_true_iff. done.
Qed.

Lemma getMessages_page_witness :
  ∃ msgs,
    ChatController.getMessages "P" 0 (Some 1%positive) (Some 2) db_chat = Json 200 msgs
    ∧ length msgs ≤ 1
    ∧ Forall (λ m, (createdAt m < createdAt msg2)%Z) msgs.
Proof.
  destruct (getMessages_page "P" 0 (Some 1%positive) (Some 2) db_chat _ eq_refl eq_refl)
    as (msgs & Hres & Hlen & _ & _ & Hold & _).
  exists msgs. split; [exact Hres|]. split; [exact Hlen|].
  exact (Hold 2 msg2 eq_refl eq_refl).
Defined.

(** The most recent message first, then the page before it. *)
Example chat_pages :
  ChatController.getMessages "P" 0 (Some 1%positive) None db_chat = Json 200 [msg2]
  ∧ ChatController.getMessages "P" 0 (Some 1%positive) (Some 2) db_chat = Json 200 [msg1]
  ∧ ChatController.getMessages "P" 0 None None db_chat = Json 200 [msg1; msg2]
  ∧ ChatController.getMessages "X" 0 None None db_chat
    = Failed 403 "Not authorized to access this conversation".
Proof. repeat split; vm_compute; reflexivity. Qed.

(** Sixty messages, pages of fifty: messages 11 to 60, then, before
    message 11, messages 1 to 10. *)
Example sixty_pages :
  response_ids (ChatController.getMessages "P" 0 (Some 50%positive) None db_sixty)
  = Some (seq 11 50)
  ∧ response_ids (ChatController.getMessages "P" 0 (Some 50%positive) (Some 11) db_sixty)
    = Some (seq 1 10)
  ∧ response_ids (ChatController.getMessages "P" 0 (Some 50%positive) (Some 1) db_sixty)
    = Some [].
Proof. repeat split; vm_compute; reflexivity. Qed.

(** ** Overlapping and successive calls of [findOrCreate] *)

Section Calls.

Variable now : Date.

Implicit Types (d : Database) (c : Conversation) (a b : UserId) (k : Call).

(** The two store operations of a call, taken together, are
    [findOrCreate]. *)
Lemma call_step_twice a b d :
  (let '(k1, d1) := call_step now (Calling a b) d in call_step now k1 d1)
  = (Resolved (ConversationModel.findOrCreate now a b d).1,
     (ConversationModel.findOrCreate now a b d).2).
Proof.
  unfold call_step, ConversationModel.findOrCreate.
  by destruct (ConversationModel.findBetweenUsers a b d).
Qed.

Lemma run_schedule_call (done : list Call) a b (pend : list Call) sched d :
  run_schedule now (length done :: length done :: sched)
    (done ++ Calling a b :: pend) d
  = run_schedule now sched
      (done ++ Resolved (ConversationModel.findOrCreate now a b d).1 :: pend)
      (ConversationModel.findOrCreate now a b d).2.
Proof.
  pose proof (call_step_twice a b d) as H.
  cbn [run_schedule]. rewrite list_lookup_middle by done.
  destruct (call_step now (Calling a b) d) as [k1 d1] eqn:E1.
  rewrite insert_app_r_alt, Nat.sub_diag by lia. cbn [insert list_insert].
  rewrite list_lookup_middle by done. rewrite H.
  by rewrite insert_app_r_alt, Nat.sub_diag by lia.
Qed.

Lemma run_schedule_sequential (done : list Call) (pairs : list (UserId * UserId)) d :
  run_schedule now (flat_map (λ i, [i; i]) (seq (length done) (length pairs)))
    (done ++ map calling pairs) d
  = (done ++ (one_by_one now pairs d).1, (one_by_one now pairs d).2).
Proof.
  revert done d. induction pairs as [|[a b] pairs IH]; intros done d.
  - done.
  - cbn [length seq flat_map map app calling fst snd one_by_one].
    change (run_schedule now (length done :: length done ::
              flat_map (λ i, [i; i]) (seq (S (length done)) (length pairs)))
              (done ++ Calling a b :: map calling pairs) d
            = (done ++ (one_by_one now ((a, b) :: pairs) d).1,
               (one_by_one now ((a, b) :: pairs) d).2)).
    rewrite run_schedule_call. cbn [one_by_one].
    destruct (ConversationModel.findOrCreate now a b d) as [c d'].
    specialize (IH (done ++ [Resolved c]) d').
    rewrite length_app, Nat.add_1_r, <- !app_assoc in IH. cbn [app] in IH.
    cbn [fst snd]. rewrite IH.
    by destruct (one_by_one now pairs d') as [ks d''].
Qed.

Lemma find_snoc {A} (f : A → bool) (l : list A) (x : A) :
  List.find f l = None → List.find f (l ++ [x]) = if f x then Some x else None.
Proof.
  induction l as [|y l IH]; simpl; [done|].
  destruct (f y); [done | exact IH].
Qed.

Lemma one_by_one_found a b c d (pairs : list (UserId * UserId)) :
  ConversationModel.findBetweenUsers a b d = Some c →
  Forall (λ p, p = (a, b) ∨ p = (b, a)) pairs →
  one_by_one now pairs d = (replicate (length pairs) (Resolved c), d).
Proof.
  intros Hf Hall. induction Hall as [|p pairs Hp _ IH]; [done|].
  assert (ConversationModel.findOrCreate now p.1 p.2 d = (c, d)) as Hfc.
  { unfold ConversationModel.findOrCreate.
    destruct Hp as [->| ->]; simpl; [|rewrite findBetweenUsers_sym]; by rewrite Hf. }
  destruct p as [u1 u2]. cbn [one_by_one]. simpl in Hfc. rewrite Hfc, IH. done.
Qed.

End Calls.

(** Two overlapping calls for the same pair, P calling [findOrCreate(P, D)]
    and D calling [findOrCreate(D, P)] on a store without a conversation
    of theirs: both lookups run before either creation, two conversations
    are created and the calls resolve to different ids. *)
Lemma findOrCreate_overlap_creates_two :
  ConversationModel.findBetweenUsers "P" "D" db_empty = None
  ∧ map resolved_id
      (run_schedule 5%Z [0; 1; 0; 1] [Calling "P" "D"; Calling "D" "P"] db_empty).1
    = [Some 0; Some 1]
  ∧ length (conversations
              (run_schedule 5%Z [0; 1; 0; 1] [Calling "P" "D"; Calling "D" "P"]
                 db_empty).2)
    = 2.
Proof. repeat split. Qed.

(** C9, as the code has it. For a pair (A, B) without a direct conversation
    of both in the store, N >= 1 calls of [findOrCreate] for that pair, in
    either order of the two identities, that run one after the other (each
    call finishes before the next starts) create exactly one conversation,
    and all N calls resolve to it. The code takes no lock and declares no
    unique index: calls that overlap are not covered. *)
Theorem findOrCreate_sequential (now : Date) (a b : UserId) (d : Database)
    (pairs : list (UserId * UserId)) :
  ConversationModel.findBetweenUsers a b d = None →
  Forall (λ p, p = (a, b) ∨ p = (b, a)) pairs →
  pairs ≠ [] →
  ∃ c,
    run_schedule now (sequential (length pairs)) (map calling pairs) d
    = (replicate (length pairs) (Resolved c),
       mkDatabase (conversations d ++ [c]) (messages d) (users d) (S (nextId d)))
    ∧ c_id c = nextId d.
Proof.
  intros Hnone Hall Hne.
  pose proof (run_schedule_sequential now [] pairs d) as Hrun.
  cbn [length app] in Hrun. unfold sequential. rewrite Hrun. clear Hrun.
  destruct Hall as [|p pairs Hp Hall]; [done|].
  destruct p as [u1 u2]. cbn [one_by_one].
  assert (ConversationModel.findBetweenUsers u1 u2 d = None) as Hnone'.
  { destruct Hp as [[= -> ->]|[= -> ->]]; [done | by rewrite findBetweenUsers_sym]. }
  unfold ConversationModel.findOrCreate. rewrite Hnone'.
  unfold ConversationModel.create.
  set (c := ConversationModel.new_conversation (nextId d) now u1 u2).
  set (d' := mkDatabase _ _ _ _).
  assert (ConversationModel.findBetweenUsers a b d' = Some c) as Hfound.
  { unfold ConversationModel.findBetweenUsers, d'. simpl.
    rewrite find_snoc by exact Hnone.
    destruct (between_users_new (nextId d) now u1 u2) as [H1 H2].
    destruct Hp as [[= -> ->]|[= -> ->]]; fold c in H1, H2; by rewrite ?H1, ?H2. }
  rewrite (one_by_one_found now a b c d' pairs Hfound Hall).
  exists c. done.
Qed.

Lemma findOrCreate_sequential_witness :
  ∃ c,
    run_schedule 5%Z (sequential 3)
      (map calling [("P", "D"); ("D", "P"); ("P", "D")]) db_empty
    = (replicate 3 (Resolved c),
       mkDatabase (conversations db_empty ++ [c]) (messages db_empty)
         (users db_empty) (S (nextId db_empty)))
    ∧ c_id c = 0.
Proof.
  apply (findOrCreate_sequential 5%Z "P" "D" db_empty
           [("P", "D"); ("D", "P"); ("P", "D")]).
  - reflexivity.
  - repeat (constructor; [(by left) || (by right)|]). constructor.
  - discriminate.
Defined.

(** ** Marking a conversation read *)

Section MarkConversationRead.

Variables (now : Date) (userId : UserId).

Implicit Types (d : Database) (c : Conversation) (m x : Message).

Let read := mkReceipt userId now.

Lemma m_id_marked x m : m_id (marked read x m) = m_id m.
Proof. unfold marked. by destruct (Nat.eqb (m_id m) (m_id x)). Qed.

Lemma mark_each_cons x (ms : list Message) d :
  MessageModel.isReadBy x userId = false →
  ChatController.mark_each now userId (x :: ms) d
  = ChatController.mark_each now userId ms
      (MessageModel.post_save (push_readBy read x)
         (MessageModel.update (m_id x) (push_readBy read) d)).
Proof.
  intros Hx. unfold ChatController.mark_each. simpl.
  unfold MessageModel.markAsRead. by rewrite Hx.
Qed.

Lemma mark_each_messages (ms : list Message) d :
  Forall (λ x, MessageModel.isReadBy x userId = false) ms →
  messages (ChatController.mark_each now userId ms d)
  = map (λ m, fold_left (λ m' x, marked read x m') ms m) (messages d).
Proof.
  intros Hall. revert d. induction Hall as [|x ms Hx _ IH]; intros d.
  - simpl. by rewrite map_id.
  - rewrite mark_each_cons by done. rewrite IH. simpl. by rewrite map_map.
Qed.

Lemma fold_marked_absent (ms : list Message) m :
  m_id m ∉ map m_id ms → fold_left (λ m' x, marked read x m') ms m = m.
Proof.
  revert m. induction ms as [|x ms IH]; intros m Hm; simpl; [done|].
  simpl in Hm. apply not_elem_of_cons in Hm as [Hne Hm].
  unfold marked at 2. apply Nat.eqb_neq in Hne. rewrite Hne. by apply IH.
Qed.

Lemma fold_marked_present (ms : list Message) m :
  NoDup (map m_id ms) → m_id m ∈ map m_id ms →
  fold_left (λ m' x, marked read x m') ms m = push_readBy read m.
Proof.
  revert m. induction ms as [|x ms IH]; intros m Hnd Hm; simpl.
  - by apply elem_of_nil in Hm.
  - simpl in Hnd, Hm. apply NoDup_cons in Hnd as [Hx Hnd].
    unfold marked at 2. destruct (Nat.eqb (m_id m) (m_id x)) eqn:E.
    + apply Nat.eqb_eq in E. apply fold_marked_absent. simpl. by rewrite E.
    + apply Nat.eqb_neq in E. apply elem_of_cons in Hm as [Hm|Hm]; [done|].
      by apply IH.
Qed.

Lemma NoDup_map_inj {A} (key : A → nat) (l : list A) (x y : A) :
  NoDup (map key l) → x ∈ l → y ∈ l → key x = key y → x = y.
Proof.
  induction l as [|z l IH]; simpl; intros Hnd Hx Hy Hk.
  - by apply elem_of_nil in Hx.
  - apply NoDup_cons in Hnd as [Hz Hnd].
    apply elem_of_cons in Hx as [->|Hx]; apply elem_of_cons in Hy as [->|Hy];
      [done | | | by apply IH].
    + exfalso. apply Hz. rewrite Hk. apply list_elem_of_fmap_2. done.
    + exfalso. apply Hz. rewrite <- Hk. apply list_elem_of_fmap_2. done.
Qed.

Lemma NoDup_map_filter {A} (key : A → nat) (f : A → bool) (l : list A) :
  NoDup (map key l) → NoDup (map key (List.filter f l)).
Proof.
  induction l as [|z l IH]; simpl; intros Hnd; [done|].
  apply NoDup_cons in Hnd as [Hz Hnd]. destruct (f z); [|by apply IH].
  simpl. apply NoDup_cons. split; [|by apply IH].
  intros Hin. apply Hz. apply list_elem_of_fmap in Hin as (y & Hy & Hin).
  apply list_elem_of_In, filter_In in Hin as [Hin _].
  rewrite Hy. apply list_elem_of_fmap_2. by apply list_elem_of_In.
Qed.

(** With distinct message ids, the loop over the result of the query
    appends one record to each message of the result and to no other. *)
Lemma mark_each_query (id : ObjectId) d :
  NoDup (map m_id (messages d)) →
  messages
    (ChatController.mark_each now userId
       (List.filter (ChatController.unread_query id userId) (messages d)) d)
  = map (λ m, if ChatController.unread_query id userId m
              then push_readBy read m else m) (messages d).
Proof.
  intros Hnd. rewrite mark_each_messages.
  - apply map_ext_in. intros m Hm. apply list_elem_of_In in Hm.
    destruct (ChatController.unread_query id userId m) eqn:Hq.
    + apply fold_marked_present; [by apply NoDup_map_filter|].
      apply list_elem_of_fmap_2. apply list_elem_of_In, filter_In.
      split; [by apply list_elem_of_In | done].
    + apply fold_marked_absent. intros Hin.
      apply list_elem_of_fmap in Hin as (y & Hy & Hin).
      apply list_elem_of_In, filter_In in Hin as [Hin Hqy].
      apply list_elem_of_In in Hin.
      assert (m = y) as -> by (by apply (NoDup_map_inj m_id (messages d))).
      congruence.
  - apply Forall_forall. intros x Hx.
    apply list_elem_of_In, filter_In in Hx as [_ Hq].
    unfold ChatController.unread_query in Hq.
    apply andb_true_iff in Hq as [_ Hq]. by apply negb_true_iff in Hq.
Qed.

(** The loop touches the conversations through the post-save hook only:
    it may move the last-message pointer of the conversation of the
    messages, and nothing else. *)
Lemma mark_each_conversations (id : ObjectId) (ms : list Message) d :
  Forall (λ x, MessageModel.isReadBy x userId = false ∧ conversation x = id) ms →
  ∃ f : Conversation → Conversation,
    (∀ c, same_but_last c (f c))
    ∧ conversations (ChatController.mark_each now userId ms d)
      = map (λ c, if Nat.eqb (c_id c) id then f c else c) (conversations d).
Proof.
  intros Hall. revert d. induction Hall as [|x ms [Hx Hc] _ IH]; intros d.
  - exists (λ c, c). split; [done|]. simpl.
    rewrite <- (map_id (conversations d)) at 1. apply map_ext. intros c.
    by destruct (Nat.eqb (c_id c) id).
  - rewrite mark_each_cons by done.
    destruct (IH (MessageModel.post_save (push_readBy read x)
                    (MessageModel.update (m_id x) (push_readBy read) d)))
      as (f & Hf & ->).
    exists (λ c, f (set_last (m_id x) (createdAt x) c)). split.
    + intros c. destruct (Hf (set_last (m_id x) (createdAt x) c)) as (?&?&?&?&?).
      by repeat split.
    + simpl. rewrite map_map. apply map_ext. intros c. rewrite Hc.
      destruct (Nat.eqb (c_id c) id) eqn:E; simpl; by rewrite E.
Qed.

End MarkConversationRead.

(** The stored conversation after the mark-as-read request of a
    participant. *)
Lemma markAsRead_stored (now : Date) (userId : UserId) (id : ObjectId)
    (d : Database) (c : Conversation) :
  ConversationModel.findById id d = Some c →
  has_participant userId c = true →
  (ChatController.markAsRead now userId id d).1
  = Json 200 (length (List.filter (ChatController.unread_query id userId) (messages d)))
  ∧ (∃ c', ConversationModel.findById id (ChatController.markAsRead now userId id d).2
           = Some c'
           ∧ unreadCount c' = <[userId:=0]> (unreadCount c)
           ∧ participants c' = participants c
           ∧ isActive c' = isActive c
           ∧ conversationType c' = conversationType c)
  ∧ (∀ id', id' ≠ id →
            ConversationModel.findById id' (ChatController.markAsRead now userId id d).2
            = ConversationModel.findById id' d).
Proof.
  intros Hc Hp. unfold ChatController.markAsRead. rewrite Hc, Hp. simpl.
  set (ms := List.filter (ChatController.unread_query id userId) (messages d)).
  set (d1 := ChatController.mark_each now userId ms d).
  destruct (mark_each_conversations now userId id ms d) as (f & Hf & Hconv).
  { apply Forall_forall. intros x Hx.
    apply list_elem_of_In, filter_In in Hx as [_ Hq].
    unfold ChatController.unread_query in Hq.
    apply andb_true_iff in Hq as [Hq Hr]. apply andb_true_iff in Hq as [Hq _].
    apply negb_true_iff in Hr. by apply Nat.eqb_eq in Hq. }
  fold d1 in Hconv.
  destruct (find_some_id c_id id _ _ Hc) as [Hid _].
  assert (∀ id', ConversationModel.findById id' d1
                 = (if Nat.eqb id' id then f else (λ c, c))
                     <$> ConversationModel.findById id' d) as Hfind.
  { intros id'. unfold ConversationModel.findById. rewrite Hconv.
    apply find_map_id. intros x. by destruct (Hf x) as (? & _). }
  split; [done|]. split.
  { exists (set_unread userId 0 (f c)). rewrite Hid.
    rewrite findById_update_conversation by done.
    rewrite Hfind, Hc, Nat.eqb_refl. simpl.
    destruct (Hf c) as (_ & Hp' & Hu' & Ha' & Ht'). split; [done|]. simpl.
    by rewrite Hp', Hu', Ha', Ht'. }
  intros id' Hne. rewrite Hid. rewrite findById_update_conversation by done.
  rewrite Hfind. apply Nat.eqb_neq in Hne. rewrite Hne.
  by destruct (ConversationModel.findById id' d).
Qed.

(** P marks conversation 0 read. Message 1, from D, gets the read record of
    P. Message 2, which P sent and which carries no read record of P, gets
    none; and the last-message pointer of the conversation, which was
    message 2, is message 1 afterwards: the post-save hook ran on the save
    of the read record. *)
Lemma markAsRead_skips_own_and_moves_pointer :
  let d' := (ChatController.markAsRead 9%Z "P" 0 db_chat).2 in
  (ChatController.markAsRead 9%Z "P" 0 db_chat).1 = Json 200 1
  ∧ MessageModel.isReadBy msg2 "P" = false
  ∧ (λ m, MessageModel.isReadBy m "P") <$> MessageModel.findById 2 d' = Some false
  ∧ (λ m, MessageModel.isReadBy m "P") <$> MessageModel.findById 1 d' = Some true
  ∧ lastMessage <$> ConversationModel.findById 0 db_chat = Some (Some 2)
  ∧ lastMessage <$> ConversationModel.findById 0 d' = Some (Some 1)
  ∧ lastMessageAt <$> ConversationModel.findById 0 d' = Some 1%Z.
Proof. repeat split. Qed.

(** C7, as the code has it. For a participant u of conversation C, on a
    store with distinct message ids, mark-conversation-read answers 200; it
    appends the read record of u to every message of C that was sent by
    someone other than u and has no read record of u, and changes no other
    message, so that afterwards every message of C from another sender is
    read by u; it sets the unread counter of u to 0 and leaves every other
    entry of the unread-count map, the participants, the active flag and
    the type of C, and every other conversation, as they were. *)
Theorem markAsRead_conversation (now : Date) (userId : UserId) (id : ObjectId)
    (d : Database) (c : Conversation) :
  NoDup (map m_id (messages d)) →
  ConversationModel.findById id d = Some c →
  has_participant userId c = true →
  let d' := (ChatController.markAsRead now userId id d).2 in
  (ChatController.markAsRead now userId id d).1
  = Json 200 (length (List.filter (ChatController.unread_query id userId) (messages d)))
  ∧ messages d'
    = map (λ m, if ChatController.unread_query id userId m
                then push_readBy (mkReceipt userId now) m else m) (messages d)
  ∧ (∀ m, m ∈ messages d' → conversation m = id → sender m ≠ userId →
          MessageModel.isReadBy m userId = true)
  ∧ (∃ c', ConversationModel.findById id d' = Some c'
           ∧ unreadCount c' = <[userId:=0]> (unreadCount c)
           ∧ participants c' = participants c
           ∧ isActive c' = isActive c
           ∧ conversationType c' = conversationType c)
  ∧ (∀ id', id' ≠ id →
            ConversationModel.findById id' d' = ConversationModel.findById id' d).
Proof.
  intros Hnd Hc Hp.
  destruct (markAsRead_stored now userId id d c Hc Hp) as (Hres & Hconv & Hother).
  split; [done|].
  assert (messages (ChatController.markAsRead now userId id d).2
          = map (λ m, if ChatController.unread_query id userId m
                      then push_readBy (mkReceipt userId now) m else m) (messages d))
    as Hmsgs.
  { unfold ChatController.markAsRead. rewrite Hc, Hp. simpl.
    by apply mark_each_query. }
  split; [done|]. split; [|done].
  intros m Hm Hcm Hsm. rewrite Hmsgs in Hm.
  apply list_elem_of_fmap in Hm as (m0 & -> & _).
  destruct (ChatController.unread_query id userId m0) eqn:Hq.
  - rewrite isReadBy_push. simpl. by rewrite String.eqb_refl, orb_true_r.
  - unfold ChatController.unread_query in Hq.
    apply Nat.eqb_eq in Hcm. apply String.eqb_neq in Hsm.
    rewrite Hcm, Hsm in Hq. simpl in Hq. by apply negb_false_iff in Hq.
Qed.

Lemma markAsRead_conversation_witness :
  (ChatController.markAsRead 9%Z "P" 0 db_chat).1 = Json 200 1
  ∧ ∃ c', ConversationModel.findById 0 (ChatController.markAsRead 9%Z "P" 0 db_chat).2
          = Some c'
          ∧ unreadCount c' = <["P":=0]> (<["P":=1]> (<["D":=1]> ∅)).
Proof.
  assert (NoDup (map m_id (messages db_chat))) as Hnd.
  { apply (bool_decide_unpack _). by vm_compute. }
  destruct (markAsRead_conversation 9%Z "P" 0 db_chat _ Hnd eq_refl eq_refl)
    as (Hres & _ & _ & (c' & Hc' & Hun & _) & _).
  split; [exact Hres|]. exists c'. split; [exact Hc' | exact Hun].
Defined.

(** ** Sends and the last-message pointer and unread counters *)

Section Sends.

Implicit Types (d : Database) (c s : Conversation) (m : Message) (st : State)
  (p : UserId) (uc : gmap string nat).

Lemma bump_lookup (others : list UserId) uc p :
  NoDup others →
  default 0 (bump others uc !! p)
  = default 0 (uc !! p) + (if bool_decide (p ∈ others) then 1 else 0).
Proof.
  intros Hnd. revert uc. induction Hnd as [|x l Hx Hnd IH]; intros uc.
  - simpl. lia.
  - change (bump (x :: l) uc) with (bump l (<[x:=default 0 (uc !! x) + 1]> uc)).
    rewrite IH. destruct (decide (p = x)) as [->|Hne].
    + rewrite lookup_insert_eq. simpl.
      rewrite (bool_decide_eq_false_2 (x ∈ l)) by done.
      rewrite (bool_decide_eq_true_2 (x ∈ x :: l)) by set_solver. lia.
    + rewrite lookup_insert_ne by done.
      destruct (decide (p ∈ l)) as [Hin|Hin].
      * rewrite !bool_decide_eq_true_2 by set_solver. done.
      * rewrite !bool_decide_eq_false_2 by set_solver. done.
Qed.

Lemma set_counts_same c : set_counts (unreadCount c) c = c.
Proof. by destruct c. Qed.

Lemma increment_others_cons x (l : list UserId) (this : Conversation) d :
  SocketHandlers.increment_others (x :: l) this d
  = SocketHandlers.increment_others l (set_unread x (unread_of this x + 1) this)
      (ConversationModel.findByIdAndUpdate (c_id this)
         (set_unread x (unread_of this x + 1)) d).
Proof. reflexivity. Qed.

(** The loop of increments: the stored conversation ends with the map of
    the in-memory document, when the two maps agree at the start. *)
Lemma increment_others_stored (others : list UserId) (this : Conversation) s d :
  ConversationModel.findById (c_id this) d = Some s →
  unreadCount s = unreadCount this →
  ConversationModel.findById (c_id this)
    (SocketHandlers.increment_others others this d).2
  = Some (set_counts (bump others (unreadCount s)) s).
Proof.
  revert this s d. induction others as [|x l IH]; intros this s d Hs Huc.
  - simpl. by rewrite set_counts_same.
  - rewrite increment_others_cons.
    change (bump (x :: l) (unreadCount s))
      with (bump l (<[x:=default 0 (unreadCount s !! x) + 1]> (unreadCount s))).
    specialize (IH (set_unread x (unread_of this x + 1) this)
                  (set_unread x (unread_of this x + 1) s)
                  (ConversationModel.findByIdAndUpdate (c_id this)
                     (set_unread x (unread_of this x + 1)) d)).
    cbn [c_id set_unread] in IH. rewrite IH.
    + unfold unread_of. rewrite <- Huc. done.
    + rewrite findById_update_conversation by done.
      by rewrite Nat.eqb_refl, Hs.
    + simpl. by rewrite Huc.
Qed.

Lemma set_last_same mid t s :
  lastMessage s = Some mid → lastMessageAt s = t → set_last mid t s = s.
Proof. destruct s. simpl. by intros -> ->. Qed.

(** The delivery loop saves the message, and the hook sets the pointer
    the conversation already has. *)
Lemma deliver_online_stored st (cid' : ObjectId) now (ps : list UserId) m d s :
  ConversationModel.findById (conversation m) d = Some s →
  lastMessage s = Some (m_id m) →
  lastMessageAt s = createdAt m →
  ConversationModel.findById (conversation m)
    (SocketHandlers.deliver_online st cid' now ps m d).1
  = Some s.
Proof.
  revert m d. induction ps as [|x ps IH]; intros m d Hs Hl Ht; [done|].
  cbn [SocketHandlers.deliver_online].
  destruct (onlineUsers st !! x) as [sock|]; [|by apply IH].
  unfold MessageModel.markAsDelivered.
  destruct (MessageModel.isDeliveredTo m x).
  - specialize (IH m d Hs Hl Ht).
    by destruct (SocketHandlers.deliver_online st cid' now ps m d).
  - set (m' := push_deliveredTo (mkReceipt x now) m).
    set (d' := MessageModel.post_save m' (MessageModel.update (m_id m) _ d)).
    assert (ConversationModel.findById (conversation m') d' = Some s) as Hs'.
    { unfold d', MessageModel.post_save.
      rewrite findById_update_conversation by done. rewrite Nat.eqb_refl.
      change (set_last (m_id m) (createdAt m) <$>
                ConversationModel.findById (conversation m) d = Some s).
      rewrite Hs. simpl. by rewrite set_last_same. }
    specialize (IH m' d' Hs' Hl Ht).
    by destruct (SocketHandlers.deliver_online st cid' now ps m' d').
Qed.

Lemma sent_message_to_room r ev st (rest : list Delivery) :
  (∀ t m, ev ≠ message_sent t m) →
  sent_message (SocketHandlers.to_room r ev st ++ rest) = sent_message rest.
Proof.
  intros Hev. unfold sent_message, SocketHandlers.to_room.
  rewrite omap_app.
  induction (SocketHandlers.room_sockets r st) as [|x l IH]; [done|].
  simpl. destruct ev as [| | |t m| | | | |]; try exact IH. by destruct (Hev t m).
Qed.

(** A send that is confirmed: who sent, what was created, and the
    stored conversation afterwards. *)
Lemma send_message_sent sid cid content mtype tid now st st1 out m c :
  ConversationModel.findById cid (db st) = Some c →
  SocketHandlers.send_message sid (mkSendData cid content mtype tid) now st
  = (st1, out) →
  sent_message out = Some m →
  ∃ sock,
    sockets st !! sid = Some sock
    ∧ has_participant (s_user sock) c = true
    ∧ sockets st1 = sockets st
    ∧ sender m = s_user sock ∧ conversation m = cid
    ∧ m_id m = nextId (db st) ∧ createdAt m = now
    ∧ ConversationModel.findById cid (db st1)
      = Some (set_counts
                (bump (List.filter (λ p, negb (String.eqb p (s_user sock)))
                         (participants c))
                   (unreadCount c))
                (set_last (m_id m) (createdAt m) c)).
Proof.
  intros Hc Hsend Hsent. unfold SocketHandlers.send_message in Hsend.
  destruct (sockets st !! sid) as [sock|] eqn:Hsock;
    [|by injection Hsend as <- <-].
  cbn [conversationId] in Hsend. rewrite Hc in Hsend.
  destruct (has_participant (s_user sock) c) eqn:Hp;
    [|by injection Hsend as <- <-].
  cbn [negb] in Hsend.
  destruct (MessageModel.create _ _ _ _ _ _) as [[message db1]|] eqn:Hcreate;
    [|by injection Hsend as <- <-].
  cbn [sd_content sd_messageType tempId] in *.
  destruct (SocketHandlers.deliver_online st cid now _ message _)
    as [db3 delivered] eqn:Hdel.
  injection Hsend as <- <-.
  rewrite sent_message_to_room in Hsent by done.
  injection Hsent as <-.
  unfold MessageModel.create in Hcreate.
  destruct (MessageModel.validate _ _); [|done].
  injection Hcreate as <- <-.
  set (message := mkMessage _ _ _ _ _ _ _ _ _) in *.
  exists sock. repeat (split; [done|]).
  destruct (find_some_id c_id cid _ _ Hc) as [Hid _].
  set (db1 := MessageModel.post_save message _) in *.
  assert (ConversationModel.findById cid db1 = Some (set_last (m_id message) now c))
    as H1.
  { unfold db1, MessageModel.post_save.
    rewrite findById_update_conversation by done.
    cbn [conversation message]. rewrite Nat.eqb_refl.
    change (set_last (nextId (db st)) now <$> ConversationModel.findById cid (db st)
            = Some (set_last (nextId (db st)) now c)).
    by rewrite Hc. }
  pose proof (increment_others_stored
                (List.filter (λ p, negb (String.eqb p (s_user sock))) (participants c))
                c (set_last (m_id message) now c) db1) as H2.
  rewrite Hid in H2. specialize (H2 H1 eq_refl).
  pose proof (deliver_online_stored st cid now
                (List.filter (λ p, negb (String.eqb p (s_user sock))) (participants c))
                message _ _ H2 eq_refl eq_refl) as H3.
  generalize (f_equal fst Hdel). cbn [fst]. intros <-. exact H3.
Qed.

End Sends.

Section SendSequences.

Variable cid : ObjectId.

Implicit Types (c : Conversation) (st : State) (p : UserId)
  (ops : list ConversationOp).

Lemma after_last_reset_none p ops :
  has_reset p ops = false → after_last_reset p ops = ops.
Proof. destruct ops as [|op rest]; [done|]. simpl. unfold has_reset. by intros ->. Qed.

Lemma sends_by_others_sockets st st1 p ops :
  sockets st1 = sockets st → sends_by_others st1 p ops = sends_by_others st p ops.
Proof.
  intros Hs. unfold sends_by_others. f_equal. apply filter_ext. intros op.
  unfold is_send_by_other. destruct op; [|done|done]. by rewrite Hs.
Qed.

Lemma sent_some_last (ops : list ConversationOp) (msgs : list Message) c c0 c' :
  existsb is_send ops = true → length msgs = count_sends ops →
  points_to_last msgs c c' → points_to_last msgs c0 c'.
Proof.
  intros Hsend Hlen. unfold points_to_last.
  destruct (last msgs) eqn:E; [done|].
  apply last_None in E. subst msgs. exfalso.
  apply existsb_exists in Hsend as (op & Hin & Hop).
  unfold count_sends in Hlen. simpl in Hlen. symmetry in Hlen.
  apply length_zero_iff_nil in Hlen.
  assert (In op (List.filter is_send ops)) as Hin' by (by apply filter_In).
  by rewrite Hlen in Hin'.
Qed.

Lemma last_cons_some {A} (x : A) (l : list A) :
  last (x :: l) = match last l with Some y => Some y | None => Some x end.
Proof.
  destruct l as [|y l]; [done|]. rewrite last_cons_cons.
  destruct (last (y :: l)) eqn:E; [done|]. by apply last_None in E.
Qed.

Lemma elem_of_others p userId (l : list UserId) :
  p ∈ l →
  bool_decide (p ∈ List.filter (λ q, negb (String.eqb q userId)) l)
  = negb (String.eqb userId p).
Proof.
  intros Hin. destruct (String.eqb_spec userId p) as [->|Hne]; simpl.
  - apply bool_decide_eq_false_2. intros H.
    apply list_elem_of_In, filter_In in H as [_ H].
    by rewrite String.eqb_refl in H.
  - apply bool_decide_eq_true_2. apply list_elem_of_In, filter_In.
    split; [by apply list_elem_of_In|].
    apply negb_true_iff, String.eqb_neq. congruence.
Qed.

(** The counter clause across a reset of [u], whichever way it is made. *)
Lemma reset_counts u p (op : ConversationOp) ops st c c1 :
  is_reset p op = String.eqb u p ∧ is_send_by_other st p op = false →
  unread_of c1 p = (if String.eqb u p then 0 else unread_of c p) →
  (if has_reset p ops then 0 else unread_of c1 p)
  + sends_by_others st p (after_last_reset p ops)
  = (if has_reset p (op :: ops) then 0 else unread_of c p)
    + sends_by_others st p (after_last_reset p (op :: ops)).
Proof.
  intros [Hr Hs] Hu. cbn [after_last_reset].
  change (has_reset p (op :: ops)) with (is_reset p op || has_reset p ops).
  rewrite Hr. destruct (has_reset p ops) eqn:Hrest.
  - by rewrite orb_true_r.
  - rewrite orb_false_r, after_last_reset_none by done. rewrite Hu.
    destruct (String.eqb u p); [done|].
    unfold sends_by_others. cbn [List.filter]. by rewrite Hs.
Qed.

(** C2, for operations handled one after the other. In a conversation whose
    participants are pairwise distinct, after any sequence of sends that all
    succeed, interleaved with resets of unread counters (a [resetUnread]
    alone, or the mark-as-read request that ends with one), each handler
    finishing before the next operation starts, from any state: the number
    of messages created is the number N of sends; when no mark-as-read
    request follows the last send,
    the last-message pointer and the last-message time of the conversation
    are the id and the creation time of the Nth message if N > 0, and what
    they were if N = 0; and the unread counter of every participant p is the
    number of sends by others that follow the last reset of p, counted from
    the value the counter had at the start when p did not reset. *)
Theorem sends_pointer_and_unread ops st st' (msgs : list Message) c :
  ConversationModel.findById cid (db st) = Some c →
  NoDup (participants c) →
  run_ops cid ops st = Some (st', msgs) →
  ∃ c',
    ConversationModel.findById cid (db st') = Some c'
    ∧ participants c' = participants c
    ∧ length msgs = count_sends ops
    ∧ Forall (λ m, conversation m = cid) msgs
    ∧ (settled ops = true → points_to_last msgs c c')
    ∧ ∀ p, p ∈ participants c →
           unread_of c' p
           = (if has_reset p ops then 0 else unread_of c p)
             + sends_by_others st p (after_last_reset p ops).
Proof.
  revert st st' msgs c.
  induction ops as [|op rest IH]; intros st st' msgs c Hc Hnd Hrun.
  - injection Hrun as <- <-. exists c. unfold points_to_last. simpl.
    repeat split; done.
  - destruct op as [sid content mtype tid now|u|u now]; cbn [run_ops] in Hrun.
    + destruct (SocketHandlers.send_message _ _ _ _) as [st1 out] eqn:Hsend.
      destruct (sent_message out) as [m|] eqn:Hsent; [|done].
      destruct (run_ops cid rest st1) as [[st2 ms]|] eqn:Hrest; [|done].
      injection Hrun as <- <-.
      destruct (send_message_sent _ _ _ _ _ _ _ _ _ _ _ Hc Hsend Hsent)
        as (sock & Hsock & Hp & Hsocks & Hsender & Hconv & Hmid & Hat & Hc1).
      destruct (IH _ _ _ _ Hc1 Hnd Hrest)
        as (c' & Hc' & Hparts & Hlen & Hall & Hlast & Hunread).
      exists c'. split; [done|]. split; [done|].
      split. { unfold count_sends in *. simpl. by rewrite Hlen. }
      split. { by constructor. }
      split.
      { intros Hset. specialize (Hlast Hset).
        unfold points_to_last in *. rewrite last_cons_some.
        by destruct (last ms). }
      intros p Hin. rewrite (Hunread p Hin).
      rewrite (sends_by_others_sockets st st1) by done.
      change (has_reset p (SendOp sid content mtype tid now :: rest))
        with (has_reset p rest).
      cbn [after_last_reset].
      change (has_reset p (SendOp sid content mtype tid now :: rest))
        with (has_reset p rest).
      destruct (has_reset p rest) eqn:Hr; [done|].
      rewrite after_last_reset_none by done.
      unfold sends_by_others at 2. cbn [List.filter is_send_by_other].
      rewrite Hsock. unfold unread_of at 1. cbn [set_counts unreadCount set_last].
      rewrite bump_lookup
        by (by apply NoDup_ListNoDup, List.NoDup_filter, NoDup_ListNoDup).
      rewrite elem_of_others by done.
      fold (unread_of c p).
      destruct (String.eqb (s_user sock) p); simpl; unfold sends_by_others; lia.
    + rewrite Hc in Hrun.
      destruct (find_some_id c_id cid _ _ Hc) as [Hid _].
      assert (ConversationModel.findById cid
                (db (with_db (ConversationModel.resetUnread u c (db st)).2 st))
              = Some (set_unread u 0 c)) as Hc1.
      { simpl. rewrite Hid, findById_update_conversation by done.
        by rewrite Nat.eqb_refl, Hc. }
      destruct (IH _ _ _ _ Hc1 Hnd Hrun)
        as (c' & Hc' & Hparts & Hlen & Hall & Hlast & Hunread).
      exists c'. repeat (split; [done|]).
      intros p Hin. rewrite (Hunread p Hin).
      rewrite (sends_by_others_sockets st _) by done.
      apply (reset_counts u p (ResetOp u) rest st c (set_unread u 0 c)); [done|].
      unfold unread_of. simpl.
      destruct (String.eqb_spec u p) as [->|Hne].
      * by rewrite lookup_insert_eq.
      * by rewrite lookup_insert_ne.
    + destruct (ChatController.markAsRead now u cid (db st)) as [resp d'] eqn:Hmr.
      destruct resp as [status n| |]; [|done|done].
      destruct (has_participant u c) eqn:Hp.
      2:{ unfold ChatController.markAsRead in Hmr. by rewrite Hc, Hp in Hmr. }
      destruct (markAsRead_stored now u cid (db st) c Hc Hp)
        as (_ & (c1 & Hc1 & Hu1 & Hp1 & _) & _).
      rewrite Hmr in Hc1. cbn [snd] in Hc1.
      rewrite <- Hp1 in Hnd.
      destruct (IH (with_db d' st) _ _ c1 Hc1 Hnd Hrun)
        as (c' & Hc' & Hparts & Hlen & Hall & Hlast & Hunread).
      exists c'. split; [done|]. split; [congruence|].
      split; [done|]. split; [done|]. split.
      { cbn [settled]. intros [Hsend Hset]%andb_true_iff.
        by eapply sent_some_last; [| |apply Hlast]. }
      intros p Hin. rewrite <- Hp1 in Hin. rewrite (Hunread p Hin).
      rewrite (sends_by_others_sockets st _) by done.
      apply (reset_counts u p (ReadOp u now) rest st c c1); [done|].
      unfold unread_of. rewrite Hu1.
      destruct (String.eqb_spec u p) as [->|Hne].
      * by rewrite lookup_insert_eq.
      * by rewrite lookup_insert_ne.
Qed.

End SendSequences.

Lemma sends_pointer_and_unread_witness :
  match run_ops 0 ops_chat st_chat with
  | Some (st', msgs) =>
    ∃ c', ConversationModel.findById 0 (db st') = Some c'
          ∧ length msgs = 3
          ∧ points_to_last msgs
              (mkConversation 0 ["P"; "D"] (Some 2) 2%Z (<["P":=1]> (<["D":=1]> ∅))
                 true direct) c'
          ∧ unread_of c' "D" = 1 ∧ unread_of c' "P" = 0
  | None => False
  end.
Proof.
  destruct (run_ops 0 ops_chat st_chat) as [[st' msgs]|] eqn:E;
    [|vm_compute in E; discriminate].
  assert (NoDup ["P"; "D"]) as Hnd by (apply (bool_decide_unpack _); by vm_compute).
  destruct (sends_pointer_and_unread 0 ops_chat st_chat st' msgs _ eq_refl Hnd E)
    as (c' & Hc' & _ & Hlen & _ & Hlast & Hunread).
  exists c'. split; [exact Hc'|]. split; [exact Hlen|].
  split; [exact (Hlast eq_refl)|].
  split; [apply (Hunread "D") | apply (Hunread "P")]; set_solver.
Defined.

(** What the witness evaluates to: the pointer is the third message sent. *)
Example sends_chat_result :
  (λ r, (map m_id r.2,
         (λ c, (lastMessage c, lastMessageAt c, unread_of c "P", unread_of c "D"))
           <$> ConversationModel.findById 0 (db r.1)))
    <$> run_ops 0 ops_chat st_chat
  = Some ([3; 4; 5], Some (Some 5, 13%Z, 0, 1)).
Proof. vm_compute. reflexivity. Qed.

(** A send of a connected participant with valid content succeeds. *)
Lemma send_message_succeeds sid cid content mtype tid now st sock c :
  sockets st !! sid = Some sock →
  ConversationModel.findById cid (db st) = Some c →
  has_participant (s_user sock) c = true →
  MessageModel.validate content (default "text" mtype) = true →
  is_Some (sent_message
             (SocketHandlers.send_message sid (mkSendData cid content mtype tid) now st).2).
Proof.
  intros Hsock Hc Hp Hv. unfold SocketHandlers.send_message.
  cbn [conversationId sd_content sd_messageType tempId].
  rewrite Hsock, Hc, Hp. cbn [negb]. unfold MessageModel.create. rewrite Hv.
  destruct (SocketHandlers.deliver_online _ _ _ _ _ _) as [db3 delivered].
  cbn [snd]. rewrite sent_message_to_room by done. simpl. eauto.
Qed.

(** ** The store along the operations *)

Section Grows.

Implicit Types (d : Database) (c : Conversation) (m : Message).

Lemma db_grows_refl d : db_grows d d.
Proof. split; [done|]. intros id c _ Hc. by exists c. Qed.

Lemma db_grows_trans d1 d2 d3 : db_grows d1 d2 → db_grows d2 d3 → db_grows d1 d3.
Proof.
  intros [Hw1 Hf1] [Hw2 Hf2]. split; [by auto|].
  intros id c Hwf Hc. destruct (Hf1 id c Hwf Hc) as (c' & Hc' & Hp').
  destruct (Hf2 id c' (Hw1 Hwf) Hc') as (c'' & Hc'' & Hp'').
  exists c''. split; [done | congruence].
Qed.

Lemma db_grows_update_conversation id (f : Conversation → Conversation) d :
  (∀ c, c_id (f c) = c_id c) → (∀ c, participants (f c) = participants c) →
  db_grows d (ConversationModel.findByIdAndUpdate id f d).
Proof.
  intros Hid Hpart.
  assert (map c_id (conversations (ConversationModel.findByIdAndUpdate id f d))
          = map c_id (conversations d)) as Hids.
  { simpl. rewrite map_map. apply map_ext. intros c.
    by destruct (Nat.eqb (c_id c) id). }
  split.
  - intros [Hnd Hlt]. split; [by rewrite Hids|].
    simpl. apply Forall_forall. intros c Hc.
    apply list_elem_of_fmap in Hc as (c0 & -> & Hc0).
    rewrite Forall_forall in Hlt. specialize (Hlt c0 Hc0).
    destruct (Nat.eqb (c_id c0) id); [by rewrite Hid | done].
  - intros id' c _ Hc. rewrite findById_update_conversation, Hc by done.
    simpl. eexists. split; [done|]. by destruct (Nat.eqb id' id).
Qed.

Lemma db_grows_same_conversations d d' :
  conversations d' = conversations d → nextId d ≤ nextId d' → db_grows d d'.
Proof.
  intros Hc Hn. split.
  - intros [Hnd Hlt]. split; rewrite Hc; [done|].
    eapply Forall_impl; [exact Hlt|]. simpl. intros; lia.
  - intros id c _ Hf. exists c. unfold ConversationModel.findById in *.
    by rewrite Hc.
Qed.

Lemma db_grows_post_save m d : db_grows d (MessageModel.post_save m d).
Proof. by apply db_grows_update_conversation. Qed.

Lemma db_grows_markAsRead now userId m d :
  db_grows d (MessageModel.markAsRead now userId m d).2.
Proof.
  unfold MessageModel.markAsRead.
  destruct (MessageModel.isReadBy m userId); [apply db_grows_refl|].
  eapply db_grows_trans; [|apply db_grows_post_save].
  by apply db_grows_same_conversations.
Qed.

Lemma db_grows_markAsDelivered now userId m d :
  db_grows d (MessageModel.markAsDelivered now userId m d).2.
Proof.
  unfold MessageModel.markAsDelivered.
  destruct (MessageModel.isDeliveredTo m userId); [apply db_grows_refl|].
  eapply db_grows_trans; [|apply db_grows_post_save].
  by apply db_grows_same_conversations.
Qed.

Lemma db_grows_create_message cid userId content mtype now d m d' :
  MessageModel.create cid userId content mtype now d = Some (m, d') → db_grows d d'.
Proof.
  unfold MessageModel.create. destruct (MessageModel.validate _ _); [|done].
  intros [= <- <-].
  eapply db_grows_trans; [|apply db_grows_post_save].
  apply db_grows_same_conversations; simpl; [done | lia].
Qed.

Lemma db_grows_incrementUnread userId c d :
  db_grows d (ConversationModel.incrementUnread userId c d).2.
Proof. by apply db_grows_update_conversation. Qed.

Lemma db_grows_resetUnread userId c d :
  db_grows d (ConversationModel.resetUnread userId c d).2.
Proof. by apply db_grows_update_conversation. Qed.

Lemma db_grows_increment_others (others : list UserId) c d :
  db_grows d (SocketHandlers.increment_others others c d).2.
Proof.
  revert c d. induction others as [|x l IH]; intros c d; [apply db_grows_refl|].
  rewrite increment_others_cons.
  eapply db_grows_trans; [|apply IH]. by apply db_grows_update_conversation.
Qed.

Lemma db_grows_deliver_online st cid now (ps : list UserId) m d :
  db_grows d (SocketHandlers.deliver_online st cid now ps m d).1.
Proof.
  revert m d. induction ps as [|x ps IH]; intros m d; [apply db_grows_refl|].
  cbn [SocketHandlers.deliver_online].
  destruct (onlineUsers st !! x); [|apply IH].
  pose proof (db_grows_markAsDelivered now x m d) as H1.
  destruct (MessageModel.markAsDelivered now x m d) as [m' d'].
  specialize (IH m' d').
  destruct (SocketHandlers.deliver_online st cid now ps m' d') as [d'' out].
  by eapply db_grows_trans.
Qed.

Lemma db_grows_mark_each now userId (ms : list Message) d :
  db_grows d (ChatController.mark_each now userId ms d).
Proof.
  unfold ChatController.mark_each. revert d.
  induction ms as [|x ms IH]; intros d; [apply db_grows_refl|].
  simpl. eapply db_grows_trans; [apply (db_grows_markAsRead now userId x d)|apply IH].
Qed.

Lemma find_app_l {A} (f : A → bool) (l l' : list A) (x : A) :
  List.find f l = Some x → List.find f (l ++ l') = Some x.
Proof.
  induction l as [|y l IH]; simpl; [done|]. by destruct (f y).
Qed.

Lemma db_grows_create_conversation now a b d :
  db_grows d (ConversationModel.create now a b d).2.
Proof.
  split.
  - intros [Hnd Hlt]. split; simpl.
    + rewrite map_app. simpl. apply NoDup_app. split; [done|].
      split; [|apply NoDup_singleton].
      intros x Hx Hx'. apply list_elem_of_fmap in Hx as (c & -> & Hc).
      apply list_elem_of_singleton in Hx'. rewrite Forall_forall in Hlt.
      specialize (Hlt c Hc). lia.
    + apply Forall_app. split.
      * eapply Forall_impl; [exact Hlt|]. simpl. intros; lia.
      * apply Forall_singleton. simpl. lia.
  - intros id c _ Hc. exists c. split; [|done].
    unfold ConversationModel.findById in *. simpl. by apply find_app_l.
Qed.

Lemma db_grows_findOrCreate now a b d :
  db_grows d (ConversationModel.findOrCreate now a b d).2.
Proof.
  unfold ConversationModel.findOrCreate.
  destruct (ConversationModel.findBetweenUsers a b d); [apply db_grows_refl|].
  apply db_grows_create_conversation.
Qed.

Lemma db_grows_createConversation now userId participantId d :
  db_grows d (ChatController.createConversation now userId participantId d).2.
Proof.
  unfold ChatController.createConversation.
  destruct participantId as [pid|]; [|apply db_grows_refl].
  destruct (String.eqb pid ""); [apply db_grows_refl|].
  destruct (users d !! pid); [|apply db_grows_refl].
  destruct (users d !! userId); [|apply db_grows_refl].
  destruct (_ && _); [apply db_grows_refl|].
  destruct (_ && _); [apply db_grows_refl|].
  pose proof (db_grows_findOrCreate now userId pid d) as H.
  by destruct (ConversationModel.findOrCreate now userId pid d).
Qed.

Lemma db_grows_markConversationRead now userId id d :
  db_grows d (ChatController.markAsRead now userId id d).2.
Proof.
  unfold ChatController.markAsRead.
  destruct (ConversationModel.findById id d) as [c|]; [|apply db_grows_refl].
  destruct (negb _); [apply db_grows_refl|]. simpl.
  eapply db_grows_trans; [apply db_grows_mark_each|].
  by apply db_grows_update_conversation.
Qed.

End Grows.

(** ** Who receives what *)

Section Emission.

Implicit Types (st : State) (r : Room) (ev : Emitted) (x : Delivery).

Lemma elem_of_room_sockets r st sid :
  sid ∈ SocketHandlers.room_sockets r st
  ↔ ∃ sock, sockets st !! sid = Some sock ∧ r ∈ s_rooms sock.
Proof.
  unfold SocketHandlers.room_sockets. rewrite list_elem_of_omap. split.
  - intros ([sid' sock] & Hin & Hf). apply elem_of_map_to_list in Hin.
    destruct (bool_decide (r ∈ s_rooms sock)) eqn:E; [|done].
    injection Hf as ->. apply bool_decide_eq_true in E. eauto.
  - intros (sock & Hs & Hr). exists (sid, sock).
    split; [by apply elem_of_map_to_list|].
    by rewrite bool_decide_eq_true_2.
Qed.

Lemma elem_of_to_room r ev st x :
  x ∈ SocketHandlers.to_room r ev st →
  x.2 = ev ∧ ∃ sock, sockets st !! x.1 = Some sock ∧ r ∈ s_rooms sock.
Proof.
  unfold SocketHandlers.to_room. intros Hx.
  apply list_elem_of_fmap in Hx as (sid & -> & Hsid).
  split; [done|]. by apply elem_of_room_sockets.
Qed.

Lemma elem_of_to_room_except self r ev st x :
  x ∈ SocketHandlers.to_room_except self r ev st →
  x.2 = ev ∧ is_Some (sockets st !! x.1).
Proof.
  unfold SocketHandlers.to_room_except. intros Hx.
  apply list_elem_of_fmap in Hx as (sid & -> & Hsid).
  split; [done|]. apply list_elem_of_In, filter_In in Hsid as [Hsid _].
  apply list_elem_of_In, elem_of_room_sockets in Hsid as (sock & Hs & _).
  by exists sock.
Qed.

Lemma elem_of_broadcast self ev st x :
  x ∈ SocketHandlers.broadcast self ev st →
  x.2 = ev ∧ is_Some (sockets st !! x.1) ∧ x.1 ≠ self.
Proof.
  unfold SocketHandlers.broadcast. intros Hx.
  apply list_elem_of_fmap in Hx as (sid & -> & Hsid).
  split; [done|]. apply list_elem_of_In, filter_In in Hsid as [Hsid Hne].
  apply list_elem_of_In, list_elem_of_fmap in Hsid as ([sid' sock] & -> & Hin).
  apply elem_of_map_to_list in Hin. simpl in *. split; [by exists sock|].
  by apply negb_true_iff, Nat.eqb_neq in Hne.
Qed.

Lemma elem_of_to_socket sid ev st x :
  x ∈ SocketHandlers.to_socket sid ev st →
  x = (sid, ev) ∧ is_Some (sockets st !! sid).
Proof.
  unfold SocketHandlers.to_socket.
  destruct (sockets st !! sid) as [sock|] eqn:E; intros Hx.
  - apply list_elem_of_singleton in Hx. by split; [|exists sock].
  - by apply elem_of_nil in Hx.
Qed.

Lemma elem_of_deliver_online st cid now (ps : list UserId) m d x :
  x ∈ (SocketHandlers.deliver_online st cid now ps m d).2 →
  (∃ mid, x.2 = message_delivered mid cid) ∧ is_Some (sockets st !! x.1).
Proof.
  revert m d. induction ps as [|p ps IH]; intros m d; simpl.
  - intros Hx. by apply elem_of_nil in Hx.
  - destruct (onlineUsers st !! p) as [psid|]; [|apply IH].
    destruct (MessageModel.markAsDelivered now p m d) as [m' d'].
    specialize (IH m' d').
    destruct (SocketHandlers.deliver_online st cid now ps m' d') as [d'' out].
    simpl in *. intros Hx. apply elem_of_app in Hx as [Hx|Hx]; [|by apply IH].
    apply elem_of_to_socket in Hx as [-> Hs]. split; [by eexists | done].
Qed.

(** Everything a step emits goes to a socket that was connected when the
    event arrived. *)
Lemma step_emits_to_connected event st x :
  x ∈ (step event st).2 → is_Some (sockets st !! x.1).
Proof.
  destruct event as [u name|sid cid|sid data now|sid mid cid now|sid cid|sid cid|sid|
                     now u pid|now u id]; simpl.
  - intros Hx. apply elem_of_broadcast in Hx as (_ & Hs & Hne). simpl in *.
    by rewrite lookup_insert_ne in Hs.
  - unfold SocketHandlers.join_conversation.
    destruct (sockets st !! sid) as [sock|] eqn:E; [|by intros ?%elem_of_nil].
    destruct (ConversationModel.findById cid (db st)) as [c|].
    + destruct (negb _); [|by intros ?%elem_of_nil].
      intros ->%list_elem_of_singleton. by exists sock.
    + intros ->%list_elem_of_singleton. by exists sock.
  - unfold SocketHandlers.send_message.
    destruct (sockets st !! sid) as [sock|] eqn:E; [|by intros ?%elem_of_nil].
    destruct (ConversationModel.findById _ (db st)) as [c|];
      [|intros ->%list_elem_of_singleton; by exists sock].
    destruct (negb _); [intros ->%list_elem_of_singleton; by exists sock|].
    destruct (MessageModel.create _ _ _ _ _ _) as [[message db1]|];
      [|intros ->%list_elem_of_singleton; by exists sock].
    pose proof (elem_of_deliver_online st (conversationId data) now
                  (List.filter (λ p, negb (String.eqb p (s_user sock))) (participants c))
                  message
                  (SocketHandlers.increment_others
                     (List.filter (λ p, negb (String.eqb p (s_user sock)))
                        (participants c)) c db1).2 x) as Hd.
    destruct (SocketHandlers.deliver_online _ _ _ _ _ _) as [db3 delivered].
    simpl in *. intros Hx.
    apply elem_of_app in Hx as [Hx|Hx].
    { apply elem_of_to_room in Hx as (_ & sock' & Hs & _). by exists sock'. }
    apply elem_of_cons in Hx as [->|Hx]; [by exists sock|]. by apply Hd.
  - unfold SocketHandlers.message_read.
    destruct (sockets st !! sid) as [sock|] eqn:E; [|by intros ?%elem_of_nil].
    destruct (MessageModel.findById mid (db st)) as [message|];
      [|by intros ?%elem_of_nil].
    destruct (MessageModel.markAsRead _ _ _ _) as [message' db1]. simpl.
    destruct (onlineUsers st !! sender message'); [|by intros ?%elem_of_nil].
    by intros [-> ?]%elem_of_to_socket.
  - unfold SocketHandlers.typing_start.
    destruct (sockets st !! sid) as [sock|] eqn:E; [|by intros ?%elem_of_nil].
    destruct (ConversationModel.findById cid (db st)) as [c|];
      [|by intros ?%elem_of_nil].
    destruct (negb _); [by intros ?%elem_of_nil|]. simpl.
    by intros [_ ?]%elem_of_to_room_except.
  - unfold SocketHandlers.typing_stop.
    destruct (sockets st !! sid) as [sock|] eqn:E; [|by intros ?%elem_of_nil].
    simpl. by intros [_ ?]%elem_of_to_room_except.
  - unfold SocketHandlers.disconnect.
    destruct (sockets st !! sid) as [sock|] eqn:E; [|by intros ?%elem_of_nil].
    simpl. intros (_ & Hs & Hne)%elem_of_broadcast. simpl in *.
    by rewrite lookup_delete_ne in Hs.
  - by intros ?%elem_of_nil.
  - by intros ?%elem_of_nil.
Qed.

(** A [new_message] of a conversation goes to the sockets of its room. *)
Lemma step_new_message_room event st sid m cid :
  (sid, new_message m cid) ∈ (step event st).2 →
  ∃ sock, sockets st !! sid = Some sock ∧ ConversationRoom cid ∈ s_rooms sock.
Proof.
  destruct event as [u name|s cid'|s data now|s mid cid' now|s cid'|s cid'|s|
                     now u pid|now u id]; simpl.
  - by intros [? _]%elem_of_broadcast.
  - unfold SocketHandlers.join_conversation.
    destruct (sockets st !! s) as [sock|] eqn:E; [|by intros ?%elem_of_nil].
    destruct (ConversationModel.findById cid' (db st)) as [c|].
    + destruct (negb _); [|by intros ?%elem_of_nil].
      by intros ?%list_elem_of_singleton.
    + by intros ?%list_elem_of_singleton.
  - unfold SocketHandlers.send_message.
    destruct (sockets st !! s) as [sock|] eqn:E; [|by intros ?%elem_of_nil].
    destruct (ConversationModel.findById _ (db st)) as [c|];
      [|by intros ?%list_elem_of_singleton].
    destruct (negb _); [by intros ?%list_elem_of_singleton|].
    destruct (MessageModel.create _ _ _ _ _ _) as [[message db1]|];
      [|by intros ?%list_elem_of_singleton].
    pose proof (elem_of_deliver_online st (conversationId data) now
                  (List.filter (λ p, negb (String.eqb p (s_user sock))) (participants c))
                  message
                  (SocketHandlers.increment_others
                     (List.filter (λ p, negb (String.eqb p (s_user sock)))
                        (participants c)) c db1).2 (sid, new_message m cid)) as Hd.
    destruct (SocketHandlers.deliver_online _ _ _ _ _ _) as [db3 delivered].
    simpl in *. intros Hx.
    apply elem_of_app in Hx as [Hx|Hx].
    { apply elem_of_to_room in Hx as (Hev & sock' & Hs & Hr). simpl in *.
      injection Hev as _ Hcid. subst cid. by exists sock'. }
    apply elem_of_cons in Hx as [?|Hx]; [done|].
    by destruct (Hd Hx) as [[? ?] _].
  - unfold SocketHandlers.message_read.
    destruct (sockets st !! s) as [sock|] eqn:E; [|by intros ?%elem_of_nil].
    destruct (MessageModel.findById mid (db st)) as [message|];
      [|by intros ?%elem_of_nil].
    destruct (MessageModel.markAsRead _ _ _ _) as [message' db1]. simpl.
    destruct (onlineUsers st !! sender message'); [|by intros ?%elem_of_nil].
    by intros [? ?]%elem_of_to_socket.
  - unfold SocketHandlers.typing_start.
    destruct (sockets st !! s) as [sock|] eqn:E; [|by intros ?%elem_of_nil].
    destruct (ConversationModel.findById cid' (db st)) as [c|];
      [|by intros ?%elem_of_nil].
    destruct (negb _); [by intros ?%elem_of_nil|]. simpl.
    by intros [? _]%elem_of_to_room_except.
  - unfold SocketHandlers.typing_stop.
    destruct (sockets st !! s) as [sock|] eqn:E; [|by intros ?%elem_of_nil].
    simpl. by intros [? _]%elem_of_to_room_except.
  - unfold SocketHandlers.disconnect.
    destruct (sockets st !! s) as [sock|] eqn:E; [|by intros ?%elem_of_nil].
    simpl. by intros [? _]%elem_of_broadcast.
  - by intros ?%elem_of_nil.
  - by intros ?%elem_of_nil.
Qed.

End Emission.

(** ** Invariants of the server *)

Section Invariants.

Implicit Types (st : State) (d : Database) (c : Conversation) (event : Event).

Lemma has_participant_participants userId c c' :
  participants c' = participants c →
  has_participant userId c' = has_participant userId c.
Proof. unfold has_participant. by intros ->. Qed.

Lemma findById_of_elem d c :
  db_wf d → c ∈ conversations d → ConversationModel.findById (c_id c) d = Some c.
Proof.
  intros [Hnd _] Hin. unfold ConversationModel.findById.
  destruct (List.find _ _) as [c0|] eqn:E.
  - apply (find_some_id c_id) in E as [Hid Hin0]. f_equal.
    by apply (NoDup_map_inj c_id (conversations d)).
  - apply list_elem_of_In in Hin. pose proof (find_none _ _ E c Hin) as Hn.
    simpl in Hn. by rewrite Nat.eqb_refl in Hn.
Qed.

Lemma run_cons event (evs : list Event) st :
  (run (event :: evs) st).1 = (run evs (step event st).1).1
  ∧ (run (event :: evs) st).2 = (step event st).2 ++ (run evs (step event st).1).2.
Proof.
  cbn [run]. destruct (step event st) as [st1 out1]. cbn [fst snd].
  by destruct (run evs st1) as [st2 out2].
Qed.

Lemma step_db_grows event st : db_grows (db st) (db (step event st).1).
Proof.
  destruct event as [u name|sid cid|sid data now|sid mid cid now|sid cid|sid cid|sid|
                     now u pid|now u id]; simpl.
  - apply db_grows_refl.
  - unfold SocketHandlers.join_conversation.
    destruct (sockets st !! sid); [|apply db_grows_refl].
    destruct (ConversationModel.findById cid (db st)); [|apply db_grows_refl].
    destruct (negb _); apply db_grows_refl.
  - unfold SocketHandlers.send_message.
    destruct (sockets st !! sid) as [sock|]; [|apply db_grows_refl].
    destruct (ConversationModel.findById _ (db st)) as [c|]; [|apply db_grows_refl].
    destruct (negb _); [apply db_grows_refl|].
    destruct (MessageModel.create _ _ _ _ _ _) as [[message db1]|] eqn:Hcreate;
      [|apply db_grows_refl].
    pose proof (db_grows_deliver_online st (conversationId data) now
                  (List.filter (λ p, negb (String.eqb p (s_user sock))) (participants c))
                  message
                  (SocketHandlers.increment_others
                     (List.filter (λ p, negb (String.eqb p (s_user sock)))
                        (participants c)) c db1).2) as Hd.
    destruct (SocketHandlers.deliver_online _ _ _ _ _ _) as [db3 delivered].
    simpl in *.
    eapply db_grows_trans; [by eapply db_grows_create_message|].
    eapply db_grows_trans; [apply db_grows_increment_others | exact Hd].
  - unfold SocketHandlers.message_read.
    destruct (sockets st !! sid) as [sock|]; [|apply db_grows_refl].
    destruct (MessageModel.findById mid (db st)) as [message|]; [|apply db_grows_refl].
    pose proof (db_grows_markAsRead now (s_user sock) message (db st)) as Hm.
    by destruct (MessageModel.markAsRead _ _ _ _) as [message' db1].
  - unfold SocketHandlers.typing_start.
    destruct (sockets st !! sid); [|apply db_grows_refl].
    destruct (ConversationModel.findById cid (db st)); [|apply db_grows_refl].
    destruct (negb _); apply db_grows_refl.
  - unfold SocketHandlers.typing_stop.
    destruct (sockets st !! sid); apply db_grows_refl.
  - unfold SocketHandlers.disconnect.
    destruct (sockets st !! sid); apply db_grows_refl.
  - apply db_grows_createConversation.
  - apply db_grows_markConversationRead.
Qed.

(** The sockets after a step: a socket that was there, with the user it
    had and rooms it had or was allowed to join, or the socket of a new
    connection, under the next socket id. *)
Lemma step_sockets event st sid sock' :
  sockets (step event st).1 !! sid = Some sock' →
  (∃ sock,
     sockets st !! sid = Some sock ∧ s_user sock' = s_user sock
     ∧ ∀ cid, ConversationRoom cid ∈ s_rooms sock' →
              ConversationRoom cid ∈ s_rooms sock
              ∨ ∃ c, ConversationModel.findById cid (db st) = Some c
                     ∧ has_participant (s_user sock) c = true)
  ∨ (sid = nextSocket st
     ∧ ∃ u name,
         event = Connect u name
         ∧ sock' = mkSocket u name
                     ({[UserRoom u]} ∪ SocketHandlers.joinUserConversations u (db st))).
Proof.
  assert (∀ sock, sockets st !! sid = Some sock →
            ∃ sock0, sockets st !! sid = Some sock0 ∧ s_user sock = s_user sock0
              ∧ ∀ cid, ConversationRoom cid ∈ s_rooms sock →
                       ConversationRoom cid ∈ s_rooms sock0
                       ∨ ∃ c, ConversationModel.findById cid (db st) = Some c
                              ∧ has_participant (s_user sock0) c = true) as Hsame.
  { intros sock Hs. exists sock. split; [done|]. split; [done|]. by left. }
  destruct event as [u name|s cid|s data now|s mid cid now|s cid|s cid|s|
                     now u pid|now u id]; simpl.
  - destruct (decide (sid = nextSocket st)) as [->|Hne].
    + rewrite lookup_insert_eq. intros [= <-]. right. split; [done|]. by exists u, name.
    + rewrite lookup_insert_ne by done. intros Hs. left. by apply Hsame.
  - unfold SocketHandlers.join_conversation.
    destruct (sockets st !! s) as [sock|] eqn:E; [|by left; apply Hsame].
    destruct (ConversationModel.findById cid (db st)) as [c|] eqn:Hc;
      [|by left; apply Hsame].
    destruct (has_participant (s_user sock) c) eqn:Hp; [|by left; apply Hsame].
    simpl. rewrite lookup_alter. destruct (decide (s = sid)) as [->|Hne].
    + rewrite E. simpl. intros [= <-]. left. exists sock. split; [done|].
      split; [done|]. simpl. intros cid' [Hin|Hin]%elem_of_union; [|by left].
      apply elem_of_singleton in Hin as [= ->]. right. by exists c.
    + intros Hs. left. by apply Hsame.
  - unfold SocketHandlers.send_message.
    destruct (sockets st !! s) as [sock|]; [|by left; apply Hsame].
    destruct (ConversationModel.findById _ (db st)) as [c|]; [|by left; apply Hsame].
    destruct (negb _); [by left; apply Hsame|].
    destruct (MessageModel.create _ _ _ _ _ _) as [[message db1]|];
      [|by left; apply Hsame].
    destruct (SocketHandlers.deliver_online _ _ _ _ _ _) as [db3 delivered].
    simpl. by left; apply Hsame.
  - unfold SocketHandlers.message_read.
    destruct (sockets st !! s) as [sock|]; [|by left; apply Hsame].
    destruct (MessageModel.findById mid (db st)) as [message|];
      [|by left; apply Hsame].
    destruct (MessageModel.markAsRead _ _ _ _) as [message' db1].
    simpl. by left; apply Hsame.
  - unfold SocketHandlers.typing_start.
    destruct (sockets st !! s); [|by left; apply Hsame].
    destruct (ConversationModel.findById cid (db st)); [|by left; apply Hsame].
    destruct (negb _); by left; apply Hsame.
  - unfold SocketHandlers.typing_stop.
    destruct (sockets st !! s); by left; apply Hsame.
  - unfold SocketHandlers.disconnect.
    destruct (sockets st !! s) as [sock|]; [|by left; apply Hsame].
    simpl. rewrite lookup_delete. destruct (decide (s = sid)); [done|].
    by left; apply Hsame.
  - by left; apply Hsame.
  - by left; apply Hsame.
Qed.

Lemma step_nextSocket event st :
  nextSocket st ≤ nextSocket (step event st).1
  ∧ ∀ u name, event = Connect u name → nextSocket (step event st).1 = S (nextSocket st).
Proof.
  destruct event as [u name|s cid|s data now|s mid cid now|s cid|s cid|s|
                     now u pid|now u id]; simpl;
    try (split; [lia | done]).
  - unfold SocketHandlers.join_conversation.
    destruct (sockets st !! s); [|by split].
    destruct (ConversationModel.findById cid (db st)); [|by split].
    destruct (negb _); by split.
  - unfold SocketHandlers.send_message.
    destruct (sockets st !! s) as [sock|]; [|by split].
    destruct (ConversationModel.findById _ (db st)) as [c|]; [|by split].
    destruct (negb _); [by split|].
    destruct (MessageModel.create _ _ _ _ _ _) as [[message db1]|]; [|by split].
    destruct (SocketHandlers.deliver_online _ _ _ _ _ _) as [db3 delivered].
    by split.
  - unfold SocketHandlers.message_read.
    destruct (sockets st !! s) as [sock|]; [|by split].
    destruct (MessageModel.findById mid (db st)) as [message|]; [|by split].
    destruct (MessageModel.markAsRead _ _ _ _) as [message' db1]. by split.
  - unfold SocketHandlers.typing_start.
    destruct (sockets st !! s); [|by split].
    destruct (ConversationModel.findById cid (db st)); [|by split].
    destruct (negb _); by split.
  - unfold SocketHandlers.typing_stop. destruct (sockets st !! s); by split.
  - unfold SocketHandlers.disconnect. destruct (sockets st !! s); by split.
Qed.

Lemma step_connect_db u name st : db (step (Connect u name) st).1 = db st.
Proof. done. Qed.

Lemma step_state_inv event st : state_inv st → state_inv (step event st).1.
Proof.
  intros (Hwf & Hsock & Hrooms).
  destruct (step_db_grows event st) as [Hwf' Hfind].
  destruct (step_nextSocket event st) as [Hle Hnew].
  split; [by apply Hwf'|]. split.
  - intros sid sock' Hs.
    destruct (step_sockets event st sid sock' Hs)
      as [(sock & Hs0 & _)|(-> & u & name & -> & _)].
    + specialize (Hsock sid sock Hs0). lia.
    + rewrite (Hnew u name eq_refl). lia.
  - intros sid sock' cid Hs Hr.
    destruct (step_sockets event st sid sock' Hs)
      as [(sock & Hs0 & Hu & Hold)|(-> & u & name & -> & ->)].
    + assert (∃ c, ConversationModel.findById cid (db st) = Some c
                   ∧ has_participant (s_user sock) c = true) as (c & Hc & Hp).
      { destruct (Hold cid Hr) as [Hr0|?]; [by eapply Hrooms | done]. }
      destruct (Hfind cid c Hwf Hc) as (c' & Hc' & Hp').
      exists c'. split; [done|].
      by rewrite Hu, (has_participant_participants _ c c').
    + rewrite step_connect_db. simpl in Hr.
      apply elem_of_union in Hr as [Hr|Hr]; [by apply elem_of_singleton in Hr|].
      unfold SocketHandlers.joinUserConversations in Hr.
      apply elem_of_list_to_set, list_elem_of_fmap in Hr as (c & [= ->] & Hc).
      apply list_elem_of_In, filter_In in Hc as [Hc Hq].
      apply andb_true_iff in Hq as [Hq _]. apply list_elem_of_In in Hc.
      exists c. split; [by apply findById_of_elem | done].
Qed.

Lemma initial_state_inv d : db_wf d → state_inv (initial d).
Proof.
  intros Hwf. split; [done|]. split.
  - intros sid sock Hs. simpl in Hs. by rewrite lookup_empty in Hs.
  - intros sid sock cid Hs. simpl in Hs. by rewrite lookup_empty in Hs.
Qed.

Lemma run_state_inv (evs : list Event) st : state_inv st → state_inv (run evs st).1.
Proof.
  revert st. induction evs as [|event evs IH]; intros st Hinv; [done|].
  destruct (run_cons event evs st) as [-> _]. by apply IH, step_state_inv.
Qed.

(** The participants of a conversation never change. *)
Lemma run_participants (evs : list Event) st cid c :
  state_inv st → ConversationModel.findById cid (db st) = Some c →
  ∃ c', ConversationModel.findById cid (db (run evs st).1) = Some c'
        ∧ participants c' = participants c.
Proof.
  revert st c. induction evs as [|event evs IH]; intros st c Hinv Hc.
  - by exists c.
  - destruct (run_cons event evs st) as [-> _].
    destruct (step_db_grows event st) as [_ Hfind].
    destruct (Hfind cid c (proj1 Hinv) Hc) as (c1 & Hc1 & Hp1).
    destruct (IH _ c1 (step_state_inv event st Hinv) Hc1) as (c' & Hc' & Hp').
    exists c'. split; [done | congruence].
Qed.

Lemma step_sockets_inv event st : sockets_inv st → sockets_inv (step event st).1.
Proof.
  intros Hsock sid sock' Hs.
  destruct (step_nextSocket event st) as [Hle Hnew].
  destruct (step_sockets event st sid sock' Hs)
    as [(sock & Hs0 & _)|(-> & u & name & -> & _)].
  - specialize (Hsock sid sock Hs0). lia.
  - rewrite (Hnew u name eq_refl). lia.
Qed.

Lemma initial_sockets_inv d : sockets_inv (initial d).
Proof. intros sid sock Hs. simpl in Hs. by rewrite lookup_empty in Hs. Qed.

Lemma run_sockets_inv (evs : list Event) st :
  sockets_inv st → sockets_inv (run evs st).1.
Proof.
  revert st. induction evs as [|event evs IH]; intros st Hinv; [done|].
  destruct (run_cons event evs st) as [-> _]. by apply IH, step_sockets_inv.
Qed.

(** A socket that is gone stays gone: ids of sockets are not reused. *)
Lemma step_socket_gone event st sid :
  sockets st !! sid = None → sid < nextSocket st →
  sockets (step event st).1 !! sid = None ∧ sid < nextSocket (step event st).1.
Proof.
  intros Hnone Hlt. destruct (step_nextSocket event st) as [Hle _].
  split; [|lia].
  destruct (sockets (step event st).1 !! sid) as [sock'|] eqn:E; [|done].
  destruct (step_sockets event st sid sock' E) as [(sock & Hs & _)|(Heq & _)].
  - by pose proof (eq_trans (eq_sym Hs) Hnone).
  - lia.
Qed.

Lemma run_socket_gone (evs : list Event) st sid x :
  sockets st !! sid = None → sid < nextSocket st →
  x ∈ (run evs st).2 → x.1 ≠ sid.
Proof.
  revert st. induction evs as [|event evs IH]; intros st Hnone Hlt Hx.
  - by apply elem_of_nil in Hx.
  - destruct (run_cons event evs st) as [_ Hout]. rewrite Hout in Hx.
    apply elem_of_app in Hx as [Hx|Hx].
    + apply step_emits_to_connected in Hx as [sock Hs]. congruence.
    + destruct (step_socket_gone event st sid Hnone Hlt) as [Hnone' Hlt'].
      by apply (IH _ Hnone' Hlt').
Qed.

End Invariants.

(** ** Non-participants *)

(** C6. In every state the server reaches from its start, on a well-formed
    store, for a conversation C of the store and a connected socket whose
    user u is not a participant of C: [join_conversation] and
    [send_message] on C answer the error event [Not authorized] to that
    socket alone and leave the whole state as it was (no room joined, no
    message stored, no counter changed); no event whatever makes the server
    emit a [new_message] of C to that socket; and u is still not a
    participant of C after any further events. *)
Theorem non_participant_forbidden (d : Database) (evs : list Event)
    (cid : ObjectId) (c : Conversation) (sid : SocketId) (sock : Socket) :
  db_wf d →
  let st := (run evs (initial d)).1 in
  ConversationModel.findById cid (db st) = Some c →
  sockets st !! sid = Some sock →
  has_participant (s_user sock) c = false →
  SocketHandlers.join_conversation sid cid st = (st, [(sid, error "Not authorized")])
  ∧ (∀ content mtype tid now,
       SocketHandlers.send_message sid (mkSendData cid content mtype tid) now st
       = (st, [(sid, error "Not authorized")]))
  ∧ (∀ event m, (sid, new_message m cid) ∉ (step event st).2)
  ∧ (∀ evs', ∃ c', ConversationModel.findById cid (db (run evs' st).1) = Some c'
                   ∧ has_participant (s_user sock) c' = false).
Proof.
  intros Hwf st Hc Hs Hp.
  assert (state_inv st) as Hinv by (by apply run_state_inv, initial_state_inv).
  split. { unfold SocketHandlers.join_conversation. by rewrite Hs, Hc, Hp. }
  split.
  { intros content mtype tid now. unfold SocketHandlers.send_message.
    cbn [conversationId]. by rewrite Hs, Hc, Hp. }
  split.
  { intros event m Hin.
    apply step_new_message_room in Hin as (sock0 & Hs0 & Hr).
    destruct Hinv as (_ & _ & Hrooms).
    destruct (Hrooms sid sock0 cid Hs0 Hr) as (c0 & Hc0 & Hp0).
    rewrite Hs in Hs0. injection Hs0 as <-. rewrite Hc in Hc0.
    injection Hc0 as <-. congruence. }
  intros evs'. destruct (run_participants evs' st cid c Hinv Hc) as (c' & Hc' & Hp').
  exists c'. split; [done|]. by rewrite (has_participant_participants _ c c').
Qed.

Lemma non_participant_forbidden_witness :
  let st := (run evs_three (initial db_chat)).1 in
  SocketHandlers.join_conversation 2 0 st = (st, [(2, error "Not authorized")])
  ∧ ∀ event m, (2, new_message m 0) ∉ (step event st).2.
Proof.
  assert (db_wf db_chat) as Hwf.
  { split; [apply (bool_decide_unpack _); by vm_compute|].
    apply Forall_singleton. simpl. lia. }
  destruct (non_participant_forbidden db_chat evs_three 0
              (mkConversation 0 ["P"; "D"] (Some 2) 2%Z (<["P":=1]> (<["D":=1]> ∅))
                 true direct)
              2 (mkSocket "X" "Xen" {[UserRoom "X"]}) Hwf)
    as (Hjoin & _ & Hnew & _).
  - reflexivity.
  - vm_compute. reflexivity.
  - reflexivity.
  - split; [exact Hjoin | exact Hnew].
Defined.

(** ** Disconnection *)

(** C8. After the [disconnect] event of a connected socket, in any state
    the server reaches from its start and whatever rooms the socket had
    joined: the user of the socket is absent from [onlineUsers], the socket
    is connected no more and is in no room, and nothing the server emits on
    any later events reaches it. *)
Theorem disconnect_clears (d : Database) (evs : list Event) (sid : SocketId)
    (sock : Socket) :
  let st := (run evs (initial d)).1 in
  sockets st !! sid = Some sock →
  let st' := (SocketHandlers.disconnect sid st).1 in
  onlineUsers st' !! s_user sock = None
  ∧ SocketHandlers.isUserOnline (s_user sock) st' = false
  ∧ sockets st' !! sid = None
  ∧ (∀ r, sid ∉ SocketHandlers.room_sockets r st')
  ∧ (∀ evs' x, x ∈ (run evs' st').2 → x.1 ≠ sid).
Proof.
  intros st Hs st'.
  assert (sockets_inv st) as Hsi by apply run_sockets_inv, initial_sockets_inv.
  assert (st' = mkState (db st) (delete (s_user sock) (onlineUsers st))
                  (delete sid (sockets st)) (nextSocket st)) as Hst'.
  { unfold st', SocketHandlers.disconnect. by rewrite Hs. }
  assert (sockets st' !! sid = None) as Hgone.
  { rewrite Hst'. simpl. apply lookup_delete_eq. }
  split. { rewrite Hst'. simpl. apply lookup_delete_eq. }
  split.
  { unfold SocketHandlers.isUserOnline. apply bool_decide_eq_false_2.
    rewrite Hst'. simpl. rewrite lookup_delete_eq. by intros [? ?]. }
  split; [done|]. split.
  { intros r Hin. apply elem_of_room_sockets in Hin as (k & Hk & _). congruence. }
  intros evs' x Hx. apply (run_socket_gone evs' st' sid x Hgone); [|done].
  rewrite Hst'. simpl. by apply (Hsi sid sock).
Qed.

Lemma disconnect_clears_witness :
  let st' := (SocketHandlers.disconnect 1 (run evs_three (initial db_chat)).1).1 in
  onlineUsers st' !! "D" = None
  ∧ sockets st' !! 1 = None
  ∧ ∀ evs' x, x ∈ (run evs' st').2 → x.1 ≠ 1.
Proof.
  destruct (disconnect_clears db_chat evs_three 1
              (mkSocket "D" "Doc" ({[UserRoom "D"]} ∪ {[ConversationRoom 0]})))
    as (Hon & _ & Hgone & _ & Hlater).
  - vm_compute. reflexivity.
  - split; [exact Hon|]. split; [exact Hgone | exact Hlater].
Defined.

(** ** A first exchange *)

(** After the first exchange the conversation points to the message, nobody
    has unread messages, and the message is delivered to D and read by D. *)
Example hello_exchange :
  let st := (run evs_hello (initial db_empty)).1 in
  map (λ c, (c_id c, participants c, lastMessage c, unread_of c "P", unread_of c "D"))
    (conversations (db st))
  = [(0, ["P"; "D"], Some 1, 0, 0)]
  ∧ map (λ m, (m_id m, sender m, content m, readBy m, deliveredTo m)) (messages (db st))
    = [(1, "P", js "Hello", [mkReceipt "D" 3%Z], [mkReceipt "D" 2%Z])].
Proof. split; vm_compute; reflexivity. Qed.

(** * Further properties of the handlers *)

(** ** Sends: refusal and effects *)

Section SendEffects.

Implicit Types (st : State) (d : Database) (c : Conversation) (m : Message)
  (ps : list UserId).

Lemma trim_start_blank (s : JsString) :
  blank s = true → MessageModel.trim_start s = [].
Proof.
  unfold blank. induction s as [|a s IH]; simpl; [done|].
  intros [Ha Hs]%andb_true_iff. rewrite Ha. by apply IH.
Qed.

Lemma trim_blank (s : JsString) : blank s = true → MessageModel.trim s = [].
Proof.
  intros H. unfold MessageModel.trim. rewrite (trim_start_blank s H). reflexivity.
Qed.

Lemma validate_refuses (content : JsString) (mtype : string) :
  blank content = true
  ∨ 5000 < length (MessageModel.trim content)
  ∨ mtype ∉ MessageModel.messageTypes →
  MessageModel.validate content mtype = false.
Proof.
  unfold MessageModel.validate. intros [H|[H|H]].
  - by rewrite (trim_blank _ H).
  - apply Nat.leb_gt in H. rewrite H. by rewrite andb_false_r.
  - destruct (existsb _ MessageModel.messageTypes) eqn:E; [|by rewrite andb_false_r].
    apply existsb_exists in E as (t & Hin & Heq%String.eqb_eq). subst.
    by apply list_elem_of_In in Hin.
Qed.

Lemma messages_increment_others ps c d :
  messages (SocketHandlers.increment_others ps c d).2 = messages d.
Proof.
  revert c d. induction ps as [|x ps IH]; intros c d; [done|].
  rewrite increment_others_cons. by rewrite IH.
Qed.

Lemma add_delivered_nil m : add_delivered [] m = m.
Proof. destruct m. unfold add_delivered. simpl. by rewrite app_nil_r. Qed.

Lemma add_delivered_push r (rs : list Receipt) m :
  add_delivered rs (push_deliveredTo r m) = add_delivered (r :: rs) m.
Proof. unfold add_delivered, push_deliveredTo. simpl. by rewrite <- app_assoc. Qed.

(** The delivery loop: one record for each recipient that is online, one
    event to each of their registered sockets. *)
Lemma deliver_online_effect st cid now ps m d :
  NoDup ps → (∀ p, p ∈ ps → MessageModel.isDeliveredTo m p = false) →
  messages (SocketHandlers.deliver_online st cid now ps m d).1
  = map (λ x, if Nat.eqb (m_id x) (m_id m)
              then add_delivered (online_receipts st now ps) x else x) (messages d)
  ∧ (SocketHandlers.deliver_online st cid now ps m d).2
    = delivery_events st cid (m_id m) ps.
Proof.
  intros Hnd. revert m d. induction Hnd as [|p ps Hp Hnd IH]; intros m d Hnot.
  - simpl. split; [|done]. rewrite <- (map_id (messages d)) at 1.
    apply map_ext. intros x. destruct (Nat.eqb _ _); [|done].
    by rewrite add_delivered_nil.
  - cbn [SocketHandlers.deliver_online delivery_events flat_map].
    unfold online_receipts, online_of. cbn [List.filter].
    destruct (onlineUsers st !! p) as [s|] eqn:Hon.
    + rewrite bool_decide_eq_true_2 by eauto.
      unfold MessageModel.markAsDelivered.
      rewrite (Hnot p) by set_solver. cbn [map].
      set (r := mkReceipt p now).
      destruct (IH (push_deliveredTo r m)
                  (MessageModel.post_save (push_deliveredTo r m)
                     (MessageModel.update (m_id m) (push_deliveredTo r) d)))
        as [IHm IHo].
      { intros q Hq. rewrite isDeliveredTo_push. rewrite (Hnot q) by set_solver.
        simpl. apply String.eqb_neq. intros ->. done. }
      destruct (SocketHandlers.deliver_online st cid now ps _ _) as [d'' out].
      simpl in *. split; [|by rewrite IHo].
      rewrite IHm, map_map. apply map_ext. intros x.
      destruct (Nat.eqb (m_id x) (m_id m)) eqn:E; simpl; rewrite E; [|done].
      apply add_delivered_push.
    + rewrite bool_decide_eq_false_2 by (intros [? ?]; done).
      apply IH. intros q Hq. apply Hnot. set_solver.
Qed.

End SendEffects.

(** A send of a connected participant is refused as a whole when the
    content is empty or made of white space only (the white space of
    [String.prototype.trim], the no-break space included), when it has more
    than 5000 UTF-16 code units once trimmed, or when the message type is
    not one of the four of the schema: the sender alone gets [Failed to send
    message], and neither the store, the rooms nor [onlineUsers] change. *)
Theorem send_message_refused sid cid content mtype tid now st sock c :
  sockets st !! sid = Some sock →
  ConversationModel.findById cid (db st) = Some c →
  has_participant (s_user sock) c = true →
  blank content = true
  ∨ 5000 < length (MessageModel.trim content)
  ∨ default "text" mtype ∉ MessageModel.messageTypes →
  SocketHandlers.send_message sid (mkSendData cid content mtype tid) now st
  = (st, [(sid, error "Failed to send message")]).
Proof.
  intros Hs Hc Hp Hbad. unfold SocketHandlers.send_message.
  cbn [conversationId sd_content sd_messageType].
  rewrite Hs, Hc, Hp. cbn [negb]. unfold MessageModel.create.
  by rewrite (validate_refuses _ _ Hbad).
Qed.

Lemma send_message_refused_witness :
  SocketHandlers.send_message 0 (mkSendData 0 [160; 32; 8233]%N None None) 9%Z st_chat
  = (st_chat, [(0, error "Failed to send message")])
  ∧ SocketHandlers.send_message 0 (mkSendData 0 (js "x") (Some "video") None) 9%Z st_chat
    = (st_chat, [(0, error "Failed to send message")]).
Proof.
  split.
  - apply (send_message_refused 0 0 [160; 32; 8233]%N None None 9%Z st_chat
             (mkSocket "P" "Pat" ({[UserRoom "P"]} ∪ {[ConversationRoom 0]}))
             (mkConversation 0 ["P"; "D"] (Some 2) 2%Z (<["P":=1]> (<["D":=1]> ∅))
                true direct)).
    + vm_compute. reflexivity.
    + reflexivity.
    + reflexivity.
    + left. reflexivity.
  - apply (send_message_refused 0 0 (js "x") (Some "video") None 9%Z st_chat
             (mkSocket "P" "Pat" ({[UserRoom "P"]} ∪ {[ConversationRoom 0]}))
             (mkConversation 0 ["P"; "D"] (Some 2) 2%Z (<["P":=1]> (<["D":=1]> ∅))
                true direct)).
    + vm_compute. reflexivity.
    + reflexivity.
    + reflexivity.
    + right. right. simpl. unfold MessageModel.messageTypes.
      intros H. repeat (apply elem_of_cons in H as [H|H]; [discriminate|]).
      by apply elem_of_nil in H.
Defined.

(** A successful send, for a connected participant of a conversation with
    pairwise distinct participants, on a store whose message ids are below
    the id counter. The server emits [new_message] to the sockets of the
    room of the conversation, then [message_sent] with the [tempId] of the
    request to the sender, then one [message_delivered] to the registered
    socket of each other participant that is in [onlineUsers]. The store
    gains exactly one message, the trimmed content under a fresh id, with no
    read record and one delivery record for each other participant that is
    online; the messages stored before are untouched, and so are the
    sockets and [onlineUsers]. *)
Theorem send_message_delivers sid cid content mtype tid now st sock c :
  sockets st !! sid = Some sock →
  ConversationModel.findById cid (db st) = Some c →
  has_participant (s_user sock) c = true →
  MessageModel.validate content (default "text" mtype) = true →
  NoDup (participants c) →
  Forall (λ m, m_id m < nextId (db st)) (messages (db st)) →
  let m := sent_doc (db st) cid (s_user sock) content mtype now in
  let others := others_of (s_user sock) c in
  let r := SocketHandlers.send_message sid (mkSendData cid content mtype tid) now st in
  r.2 = SocketHandlers.to_room (ConversationRoom cid) (new_message m cid) st
        ++ [(sid, message_sent tid m)]
        ++ delivery_events st cid (m_id m) others
  ∧ messages (db r.1)
    = messages (db st) ++ [add_delivered (online_receipts st now others) m]
  ∧ sockets r.1 = sockets st ∧ onlineUsers r.1 = onlineUsers st
  ∧ nextId (db r.1) = S (nextId (db st)).
Proof.
  intros Hs Hc Hp Hv Hnd Hlt m others r.
  assert (NoDup others) as Hndo.
  { by apply NoDup_ListNoDup, List.NoDup_filter, NoDup_ListNoDup. }
  set (d1 := MessageModel.post_save m
               (mkDatabase (conversations (db st)) (messages (db st) ++ [m])
                  (users (db st)) (S (nextId (db st))))).
  set (d2 := (SocketHandlers.increment_others others c d1).2).
  destruct (deliver_online_effect st cid now others m d2 Hndo) as [Hmsgs Hout];
    [done|].
  assert (r = (with_db (SocketHandlers.deliver_online st cid now others m d2).1 st,
               SocketHandlers.to_room (ConversationRoom cid) (new_message m cid) st
               ++ [(sid, message_sent tid m)]
               ++ (SocketHandlers.deliver_online st cid now others m d2).2)) as ->.
  { unfold r, SocketHandlers.send_message.
    cbn [conversationId sd_content sd_messageType tempId].
    rewrite Hs, Hc, Hp. cbn [negb]. unfold MessageModel.create. rewrite Hv.
    unfold d2, d1, others, others_of, m, sent_doc.
    by destruct (SocketHandlers.deliver_online _ _ _ _ _ _). }
  cbn [fst snd with_db db sockets onlineUsers].
  split; [by rewrite Hout|]. split.
  - rewrite Hmsgs. unfold d2. rewrite messages_increment_others.
    unfold d1, MessageModel.post_save. cbn [messages ConversationModel.findByIdAndUpdate].
    rewrite map_app. cbn [map]. rewrite Nat.eqb_refl. f_equal.
    rewrite <- (map_id (messages (db st))) at 2. apply map_ext_in.
    intros x Hx. apply list_elem_of_In in Hx. rewrite Forall_forall in Hlt.
    specialize (Hlt x Hx). cbn [m_id m sent_doc].
    destruct (Nat.eqb_spec (m_id x) (nextId (db st))); [lia | done].
  - split; [done|]. split; [done|].
    assert (∀ ps cv d, nextId (SocketHandlers.increment_others ps cv d).2 = nextId d)
      as Hn2.
    { induction ps as [|x ps IH]; intros cv d; [done|].
      rewrite increment_others_cons. by rewrite IH. }
    assert (∀ ps mm d, nextId (SocketHandlers.deliver_online st cid now ps mm d).1
                       = nextId d) as Hn3.
    { induction ps as [|x ps IH]; intros mm d; [done|].
      cbn [SocketHandlers.deliver_online].
      destruct (onlineUsers st !! x); [|apply IH].
      unfold MessageModel.markAsDelivered.
      destruct (MessageModel.isDeliveredTo mm x).
      - specialize (IH mm d).
        by destruct (SocketHandlers.deliver_online st cid now ps mm d).
      - specialize (IH (push_deliveredTo (mkReceipt x now) mm)
                      (MessageModel.post_save (push_deliveredTo (mkReceipt x now) mm)
                         (MessageModel.update (m_id mm)
                            (push_deliveredTo (mkReceipt x now)) d))).
        by destruct (SocketHandlers.deliver_online st cid now ps _ _). }
    rewrite Hn3. unfold d2. rewrite Hn2. done.
Qed.

Lemma send_message_delivers_witness :
  let r :=
    SocketHandlers.send_message 0
      (mkSendData 0 (160%N :: js " Hi" ++ [10; 65279]%N) None (Some "t")) 9%Z st_chat in
  messages (db r.1)
  = [msg1; msg2; mkMessage 3 0 "P" (js "Hi") "text" [] [mkReceipt "D" 9%Z] false 9%Z]
  ∧ nextId (db r.1) = 4.
Proof.
  destruct (send_message_delivers 0 0 (160%N :: js " Hi" ++ [10; 65279]%N) None (Some "t")
              9%Z st_chat
              (mkSocket "P" "Pat" ({[UserRoom "P"]} ∪ {[ConversationRoom 0]}))
              (mkConversation 0 ["P"; "D"] (Some 2) 2%Z (<["P":=1]> (<["D":=1]> ∅))
                 true direct))
    as (_ & Hm & _ & _ & Hn).
  - vm_compute. reflexivity.
  - reflexivity.
  - reflexivity.
  - reflexivity.
  - apply (bool_decide_unpack _). by vm_compute.
  - apply (bool_decide_unpack _). by vm_compute.
  - split; [exact Hm | exact Hn].
Defined.

(** ** Read receipts over the socket *)

Lemma with_db_same (st : State) : with_db (db st) st = st.
Proof. by destruct st. Qed.

Lemma to_socket_sockets s ev (st st' : State) :
  sockets st' = sockets st →
  SocketHandlers.to_socket s ev st' = SocketHandlers.to_socket s ev st.
Proof. intros H. unfold SocketHandlers.to_socket. by rewrite H. Qed.

(** [message_read] of a connected socket. For an unknown message nothing
    happens and nothing is emitted. For a stored message the user of the
    socket is recorded as a reader unless already recorded, and a read
    receipt carrying the conversation id of the request goes to the
    registered socket of the sender of the message when the sender is in
    [onlineUsers], to nobody otherwise. Repeating the event leaves the state
    exactly as the first one left it and emits the receipt again. *)
Theorem message_read_effect sid mid cid now st sock :
  sockets st !! sid = Some sock →
  match MessageModel.findById mid (db st) with
  | None => SocketHandlers.message_read sid mid cid now st = (st, [])
  | Some message =>
    let u := s_user sock in
    let receipt cid' now' :=
      match onlineUsers st !! sender message with
      | Some s => SocketHandlers.to_socket s (message_read_receipt mid cid' u now') st
      | None => []
      end in
    let r := SocketHandlers.message_read sid mid cid now st in
    r.2 = receipt cid now
    ∧ MessageModel.findById mid (db r.1)
      = Some (if MessageModel.isReadBy message u then message
              else push_readBy (mkReceipt u now) message)
    ∧ sockets r.1 = sockets st ∧ onlineUsers r.1 = onlineUsers st
    ∧ ∀ cid' now', SocketHandlers.message_read sid mid cid' now' r.1
                   = (r.1, receipt cid' now')
  end.
Proof.
  intros Hs. destruct (MessageModel.findById mid (db st)) as [message|] eqn:Hm.
  - destruct (find_some_id m_id mid _ _ Hm) as [Hid _].
    set (u := s_user sock).
    set (m1 := if MessageModel.isReadBy message u then message
               else push_readBy (mkReceipt u now) message).
    assert (MessageModel.isReadBy m1 u = true ∧ sender m1 = sender message) as [Hr1 Hs1].
    { unfold m1. destruct (MessageModel.isReadBy message u) eqn:E; [done|].
      rewrite isReadBy_push. simpl. by rewrite String.eqb_refl, orb_true_r. }
    assert (MessageModel.markAsRead now u message (db st)
            = (m1, (MessageModel.markAsRead now u message (db st)).2)
            ∧ MessageModel.findById mid (MessageModel.markAsRead now u message (db st)).2
              = Some m1) as [Hmark Hfind].
    { unfold m1, MessageModel.markAsRead.
      destruct (MessageModel.isReadBy message u); [done|]. simpl. split; [done|].
      rewrite <- Hid. destruct (first_mark_stored now u message (db st)) as [-> _].
      by rewrite Hid, Hm. }
    set (d1 := (MessageModel.markAsRead now u message (db st)).2) in *.
    assert (SocketHandlers.message_read sid mid cid now st
            = (with_db d1 st,
               match onlineUsers st !! sender message with
               | Some s => SocketHandlers.to_socket s (message_read_receipt mid cid u now) st
               | None => []
               end)) as Hfirst.
    { unfold SocketHandlers.message_read. rewrite Hs, Hm. fold u.
      rewrite Hmark. by rewrite Hs1. }
    cbn zeta. rewrite Hfirst. cbn [fst snd with_db db sockets onlineUsers].
    split; [done|]. split; [done|]. split; [done|]. split; [done|].
    intros cid' now'. unfold SocketHandlers.message_read.
    cbn [with_db db sockets onlineUsers]. rewrite Hs, Hfind. fold u.
    unfold MessageModel.markAsRead. rewrite Hr1. rewrite Hs1. f_equal.
  - unfold SocketHandlers.message_read. by rewrite Hs, Hm.
Qed.

Lemma message_read_effect_witness :
  let r := SocketHandlers.message_read 1 2 0 7%Z st_chat in
  r.2 = [(0, message_read_receipt 2 0 "D" 7%Z)]
  ∧ SocketHandlers.message_read 1 2 0 8%Z r.1 = (r.1, [(0, message_read_receipt 2 0 "D" 8%Z)]).
Proof.
  pose proof (message_read_effect 1 2 0 7%Z st_chat
                (mkSocket "D" "Doc" ({[UserRoom "D"]} ∪ {[ConversationRoom 0]}))) as H.
  change (MessageModel.findById 2 (db st_chat)) with (Some msg2) in H.
  destruct H as (Hout & _ & _ & _ & Hagain).
  - vm_compute. reflexivity.
  - split; [exact Hout | exact (Hagain 0 8%Z)].
Defined.

(** ** Typing indicators *)

Lemma elem_of_to_room_except_iff self r ev (st : State) (x : Delivery) :
  x ∈ SocketHandlers.to_room_except self r ev st
  ↔ x.2 = ev ∧ x.1 ≠ self ∧ x.1 ∈ SocketHandlers.room_sockets r st.
Proof.
  unfold SocketHandlers.to_room_except. rewrite list_elem_of_fmap. split.
  - intros (s & -> & Hin). apply list_elem_of_In, filter_In in Hin as [Hin Hne].
    apply negb_true_iff, Nat.eqb_neq in Hne. by apply list_elem_of_In in Hin.
  - intros (Hev & Hne & Hin). exists x.1. split; [destruct x; simpl in *; by subst|].
    apply list_elem_of_In, filter_In. split; [by apply list_elem_of_In|].
    by apply negb_true_iff, Nat.eqb_neq.
Qed.

(** Typing events of a connected socket never change the state and never
    come back to the socket itself. [typing_stop] makes no membership check:
    [user_stop_typing] reaches every other socket of the room named in the
    request, whoever sends it. [typing_start] reaches the same sockets, but
    only when the conversation exists and the user of the socket is one of
    its participants; otherwise nothing is emitted. *)
Theorem typing_events sid cid st sock :
  sockets st !! sid = Some sock →
  (SocketHandlers.typing_start sid cid st).1 = st
  ∧ (SocketHandlers.typing_stop sid cid st).1 = st
  ∧ (∀ x, x ∈ (SocketHandlers.typing_stop sid cid st).2
          ↔ x.2 = user_stop_typing cid (s_user sock) ∧ x.1 ≠ sid
            ∧ x.1 ∈ SocketHandlers.room_sockets (ConversationRoom cid) st)
  ∧ (∀ x, x ∈ (SocketHandlers.typing_start sid cid st).2
          ↔ x.2 = user_typing cid (s_user sock) (s_name sock) ∧ x.1 ≠ sid
            ∧ x.1 ∈ SocketHandlers.room_sockets (ConversationRoom cid) st
            ∧ ∃ c, ConversationModel.findById cid (db st) = Some c
                   ∧ has_participant (s_user sock) c = true).
Proof.
  intros Hs. unfold SocketHandlers.typing_start, SocketHandlers.typing_stop.
  rewrite Hs. split.
  { destruct (ConversationModel.findById cid (db st)); [|done]. by destruct (negb _). }
  split; [done|]. split.
  { intros x. simpl. apply elem_of_to_room_except_iff. }
  intros x. destruct (ConversationModel.findById cid (db st)) as [c|] eqn:Hc.
  - destruct (has_participant (s_user sock) c) eqn:Hp; simpl.
    + rewrite elem_of_to_room_except_iff. split.
      * intros (? & ? & ?). repeat split; try done. by exists c.
      * intros (? & ? & ? & _). done.
    + split; [by intros ?%elem_of_nil|].
      intros (_ & _ & _ & c' & [= <-] & Hp'). congruence.
  - simpl. split; [by intros ?%elem_of_nil|]. by intros (_ & _ & _ & c' & ? & _).
Qed.

Lemma typing_events_witness :
  let st := (run evs_three (initial db_chat)).1 in
  (SocketHandlers.typing_start 2 0 st).2 = []
  ∧ (1, user_stop_typing 0 "X") ∈ (SocketHandlers.typing_stop 2 0 st).2.
Proof.
  destruct (typing_events 2 0 (run evs_three (initial db_chat)).1
              (mkSocket "X" "Xen" {[UserRoom "X"]}))
    as (_ & _ & Hstop & Hstart).
  - vm_compute. reflexivity.
  - split.
    + destruct (SocketHandlers.typing_start 2 0 (run evs_three (initial db_chat)).1).2
        as [|x l] eqn:E; [done|].
      assert (x ∈ x :: l) as Hx by (apply elem_of_cons; by left).
      apply Hstart in Hx as (_ & _ & _ & c & Hc & Hp).
      vm_compute in Hc. injection Hc as <-. vm_compute in Hp. discriminate.
    + apply Hstop. split; [done|]. split; [done|].
      apply elem_of_room_sockets.
      exists (mkSocket "D" "Doc" ({[UserRoom "D"]} ∪ {[ConversationRoom 0]})).
      split; [vm_compute; reflexivity|]. set_solver.
Defined.

(** ** Joining a room *)

Lemma join_twice sid r (st : State) :
  SocketHandlers.join sid r (SocketHandlers.join sid r st) = SocketHandlers.join sid r st.
Proof.
  unfold SocketHandlers.join. simpl. f_equal. apply map_eq. intros s.
  destruct (decide (sid = s)) as [->|Hne].
  - rewrite !lookup_alter, !decide_True by done.
    destruct (sockets st !! s) as [sock|]; [|done]. simpl. do 2 f_equal. set_solver.
  - by rewrite !lookup_alter, !decide_False by done.
Qed.

(** [join_conversation] of a connected socket. For an unknown conversation
    the socket gets [Conversation not found] and nothing changes. For a
    participant nothing is emitted, the store and [onlineUsers] are
    untouched, the socket is added to the room of the conversation and no
    other membership of any room changes; joining again changes nothing. *)
Theorem join_conversation_effect sid cid st sock :
  sockets st !! sid = Some sock →
  match ConversationModel.findById cid (db st) with
  | None =>
    SocketHandlers.join_conversation sid cid st
    = (st, [(sid, error "Conversation not found")])
  | Some c =>
    has_participant (s_user sock) c = true →
    let r := SocketHandlers.join_conversation sid cid st in
    r.2 = [] ∧ db r.1 = db st ∧ onlineUsers r.1 = onlineUsers st
    ∧ (∀ rm s, s ∈ SocketHandlers.room_sockets rm r.1
               ↔ s ∈ SocketHandlers.room_sockets rm st
                 ∨ (s = sid ∧ rm = ConversationRoom cid))
    ∧ SocketHandlers.join_conversation sid cid r.1 = (r.1, [])
  end.
Proof.
  intros Hs.
  destruct (ConversationModel.findById cid (db st)) as [c|] eqn:Hc;
    [|unfold SocketHandlers.join_conversation; by rewrite Hs, Hc].
  intros Hp.
  assert (SocketHandlers.join_conversation sid cid st
          = (SocketHandlers.join sid (ConversationRoom cid) st, [])) as ->.
  { unfold SocketHandlers.join_conversation. by rewrite Hs, Hc, Hp. }
  cbn [negb fst snd].
  split; [done|]. split; [done|]. split; [done|]. split.
  - intros rm s. rewrite !elem_of_room_sockets. unfold SocketHandlers.join.
    cbn [sockets]. rewrite lookup_alter. destruct (decide (sid = s)) as [<-|Hne].
    + rewrite Hs. simpl. split.
      * intros (k & [= <-] & Hr). simpl in Hr.
        apply elem_of_union in Hr as [->%elem_of_singleton|Hr]; [by right|].
        left. by exists sock.
      * intros [(k & [= <-] & Hr)|[_ ->]]; eexists; (split; [done|]); set_solver.
    + split; [by left|]. intros [?|[? _]]; [done|]. by subst.
  - unfold SocketHandlers.join_conversation. unfold SocketHandlers.join at 1 2.
    cbn [sockets db]. rewrite lookup_alter. rewrite decide_True by done.
    rewrite Hs. cbn [fmap option_fmap option_map s_user]. rewrite Hc, Hp. cbn [negb].
    by rewrite join_twice.
Qed.

Lemma join_conversation_effect_witness :
  let r := SocketHandlers.join_conversation 0 0 (run evs_three (initial db_chat)).1 in
  r.2 = [] ∧ SocketHandlers.join_conversation 0 0 r.1 = (r.1, []).
Proof.
  pose proof (join_conversation_effect 0 0 (run evs_three (initial db_chat)).1
                (mkSocket "P" "Pat" ({[UserRoom "P"]} ∪ {[ConversationRoom 0]}))) as H.
  change (ConversationModel.findById 0 (db (run evs_three (initial db_chat)).1))
    with (Some (mkConversation 0 ["P"; "D"] (Some 2) 2%Z (<["P":=1]> (<["D":=1]> ∅))
                  true direct)) in H.
  destruct H as (Hout & _ & _ & _ & Hagain).
  - vm_compute. reflexivity.
  - reflexivity.
  - split; [exact Hout | exact Hagain].
Defined.

(** ** Connections and presence *)

Lemma elem_of_broadcast_iff self ev (st : State) (x : Delivery) :
  x ∈ SocketHandlers.broadcast self ev st
  ↔ x.2 = ev ∧ is_Some (sockets st !! x.1) ∧ x.1 ≠ self.
Proof.
  split; [apply elem_of_broadcast|].
  intros (Hev & [sock Hs] & Hne). unfold SocketHandlers.broadcast.
  apply list_elem_of_fmap. exists x.1. split; [destruct x; simpl in *; by subst|].
  apply list_elem_of_In, filter_In. split.
  - apply list_elem_of_In, list_elem_of_fmap. exists (x.1, sock).
    split; [done|]. by apply elem_of_map_to_list.
  - by apply negb_true_iff, Nat.eqb_neq.
Qed.

(** A connection of user u, in a state whose socket ids are below the
    socket counter. The new socket is registered for u in [onlineUsers],
    replacing what was registered, and no other user's entry changes. It is
    in the room of u and in the rooms of exactly the active conversations u
    is a participant of. Every socket that was connected gets [user_online],
    the new socket does not; the store and the other sockets are
    untouched. *)
Theorem connection_effect u name st :
  sockets_inv st →
  let sid := nextSocket st in
  let r := SocketHandlers.connection u name st in
  onlineUsers r.1 !! u = Some sid
  ∧ (∀ u', u' ≠ u → onlineUsers r.1 !! u' = onlineUsers st !! u')
  ∧ db r.1 = db st
  ∧ (∃ sock, sockets r.1 !! sid = Some sock ∧ s_user sock = u ∧ s_name sock = name
             ∧ (∀ u', UserRoom u' ∈ s_rooms sock ↔ u' = u)
             ∧ (∀ cid, ConversationRoom cid ∈ s_rooms sock
                       ↔ ∃ c, c ∈ conversations (db st) ∧ c_id c = cid
                              ∧ has_participant u c = true ∧ isActive c = true))
  ∧ (∀ s, s ≠ sid → sockets r.1 !! s = sockets st !! s)
  ∧ (∀ x, x ∈ r.2 ↔ x.2 = user_online u name ∧ is_Some (sockets st !! x.1)).
Proof.
  intros Hinv sid r. unfold r, SocketHandlers.connection. fold sid.
  cbn [fst snd onlineUsers sockets db].
  split; [apply lookup_insert_eq|].
  split; [by intros u' Hne; rewrite lookup_insert_ne|].
  split; [done|]. split.
  { eexists. split; [apply lookup_insert_eq|]. simpl.
    split; [done|]. split; [done|].
    assert (∀ rm, rm ∈ SocketHandlers.joinUserConversations u (db st)
                  ↔ ∃ c, c ∈ conversations (db st) ∧ rm = ConversationRoom (c_id c)
                         ∧ has_participant u c = true ∧ isActive c = true) as Hj.
    { intros rm. unfold SocketHandlers.joinUserConversations.
      rewrite elem_of_list_to_set, list_elem_of_fmap. split.
      - intros (c & -> & Hc). apply list_elem_of_In, filter_In in Hc as [Hc Hq].
        apply andb_true_iff in Hq as [? ?]. exists c.
        split; [by apply list_elem_of_In | done].
      - intros (c & Hc & -> & Hp & Ha). exists c. split; [done|].
        apply list_elem_of_In, filter_In. split; [by apply list_elem_of_In|].
        by rewrite Hp, Ha. }
    split.
    - intros u'. rewrite elem_of_union, elem_of_singleton, Hj. split.
      + intros [[= ->]|(c & _ & ? & _)]; done.
      + intros ->. by left.
    - intros cid. rewrite elem_of_union, elem_of_singleton, Hj. split.
      + intros [?|(c & Hc & [= ->] & Hp & Ha)]; [done|]. by exists c.
      + intros (c & Hc & <- & Hp & Ha). right. by exists c. }
  split; [by intros s Hne; rewrite lookup_insert_ne|].
  intros x. rewrite elem_of_broadcast_iff. cbn [sockets]. split.
  - intros (Hev & Hs & Hne). split; [done|]. by rewrite lookup_insert_ne in Hs.
  - intros (Hev & [k Hk]). specialize (Hinv _ _ Hk). fold sid in Hinv.
    split; [done|]. split; [|lia]. rewrite lookup_insert_ne by lia. by exists k.
Qed.

Lemma connection_effect_witness :
  let r := SocketHandlers.connection "D" "Doc" (initial db_chat) in
  onlineUsers r.1 !! "D" = Some 0 ∧ r.2 = [].
Proof.
  destruct (connection_effect "D" "Doc" (initial db_chat)) as (Hon & _ & _ & _ & _ & Hout).
  - intros s k Hk. simpl in Hk. by rewrite lookup_empty in Hk.
  - split; [exact Hon|].
    destruct (SocketHandlers.connection "D" "Doc" (initial db_chat)).2 as [|x l];
      [done|].
    assert (x ∈ x :: l) as Hx by (apply elem_of_cons; by left).
    apply Hout in Hx as [_ [k Hk]]. simpl in Hk. by rewrite lookup_empty in Hk.
Defined.

(** One entry per user: a second connection of a user takes the entry
    over, and the disconnection of the first socket then deletes the entry
    although the second socket is still connected. The user is reported
    offline while connected. *)
Theorem reconnect_then_disconnect u name1 name2 st :
  let sid1 := nextSocket st in
  let st2 :=
    (SocketHandlers.connection u name2 (SocketHandlers.connection u name1 st).1).1 in
  let st3 := (SocketHandlers.disconnect sid1 st2).1 in
  onlineUsers st2 !! u = Some (S sid1)
  ∧ SocketHandlers.isUserOnline u st3 = false
  ∧ (u ∉ SocketHandlers.getOnlineUsers st3)
  ∧ ∃ sock, sockets st3 !! (S sid1) = Some sock ∧ s_user sock = u
            ∧ s_name sock = name2.
Proof.
  intros sid1 st2 st3.
  assert (sockets st2 !! sid1
          = Some (mkSocket u name1
                    ({[UserRoom u]} ∪ SocketHandlers.joinUserConversations u (db st))))
    as Hs1.
  { unfold st2, SocketHandlers.connection. cbn [fst sockets nextSocket].
    rewrite lookup_insert_ne by (unfold sid1; lia). apply lookup_insert_eq. }
  assert (onlineUsers st3 !! u = None) as Hoff.
  { unfold st3, SocketHandlers.disconnect. rewrite Hs1. cbn [fst onlineUsers s_user].
    apply lookup_delete_eq. }
  split. { unfold st2, SocketHandlers.connection. cbn [fst onlineUsers nextSocket].
           apply lookup_insert_eq. }
  split. { unfold SocketHandlers.isUserOnline. apply bool_decide_eq_false_2.
           rewrite Hoff. by intros [? ?]. }
  split.
  { unfold SocketHandlers.getOnlineUsers. intros Hin.
    apply list_elem_of_fmap in Hin as ([u' s] & -> & Hin).
    apply elem_of_map_to_list in Hin. simpl in Hoff. congruence. }
  unfold st3, SocketHandlers.disconnect. rewrite Hs1. cbn [fst sockets].
  rewrite lookup_delete_ne by (unfold sid1; lia).
  unfold st2, SocketHandlers.connection. cbn [fst sockets nextSocket].
  rewrite lookup_insert_eq. by eexists.
Qed.

Section Presence.

Implicit Types (st : State) (event : Event).

Lemma step_keeps_registry event st :
  (∀ u n, event ≠ Connect u n) → (∀ s, event ≠ Disconnect s) →
  onlineUsers (step event st).1 = onlineUsers st
  ∧ ∀ s sock, sockets st !! s = Some sock →
              ∃ sock', sockets (step event st).1 !! s = Some sock'
                       ∧ s_user sock' = s_user sock.
Proof.
  intros Hc Hd.
  assert (∀ st', onlineUsers st' = onlineUsers st → sockets st' = sockets st →
            onlineUsers st' = onlineUsers st
            ∧ ∀ s sock, sockets st !! s = Some sock →
                        ∃ sock', sockets st' !! s = Some sock'
                                 ∧ s_user sock' = s_user sock) as Hsame.
  { intros st' Ho Hs. split; [done|]. intros s sock H. exists sock. by rewrite Hs. }
  destruct event as [u name|sid cid|sid data now|sid mid cid now|sid cid|sid cid|sid|
                     now u pid|now u id]; simpl.
  - by destruct (Hc u name).
  - unfold SocketHandlers.join_conversation.
    destruct (sockets st !! sid) as [k|] eqn:E; [|by apply Hsame].
    destruct (ConversationModel.findById cid (db st)); [|by apply Hsame].
    destruct (negb _); [by apply Hsame|]. simpl. split; [done|].
    intros s sock Hs. rewrite lookup_alter. destruct (decide (sid = s)) as [->|Hne].
    + rewrite Hs. simpl. by eexists.
    + by exists sock.
  - unfold SocketHandlers.send_message.
    destruct (sockets st !! sid) as [sock|]; [|by apply Hsame].
    destruct (ConversationModel.findById _ (db st)) as [c|]; [|by apply Hsame].
    destruct (negb _); [by apply Hsame|].
    destruct (MessageModel.create _ _ _ _ _ _) as [[message db1]|]; [|by apply Hsame].
    destruct (SocketHandlers.deliver_online _ _ _ _ _ _) as [db3 delivered].
    by apply Hsame.
  - unfold SocketHandlers.message_read.
    destruct (sockets st !! sid) as [sock|]; [|by apply Hsame].
    destruct (MessageModel.findById mid (db st)) as [message|]; [|by apply Hsame].
    destruct (MessageModel.markAsRead _ _ _ _) as [message' db1]. by apply Hsame.
  - unfold SocketHandlers.typing_start.
    destruct (sockets st !! sid); [|by apply Hsame].
    destruct (ConversationModel.findById cid (db st)); [|by apply Hsame].
    destruct (negb _); by apply Hsame.
  - unfold SocketHandlers.typing_stop. destruct (sockets st !! sid); by apply Hsame.
  - by destruct (Hd sid).
  - by apply Hsame.
  - by apply Hsame.
Qed.

Lemma step_presence_inv event st :
  sockets_inv st → presence_inv st → presence_inv (step event st).1.
Proof.
  intros Hsi Hpi.
  destruct event as [u name|sid cid|sid data now|sid mid cid now|sid cid|sid cid|sid|
                     now u pid|now u id];
    try (match goal with
         | |- presence_inv (step ?e st).1 =>
           destruct (step_keeps_registry e st) as [Ho Hs]; [done|done|]
         end;
         intros u0 s0 Hon; rewrite Ho in Hon;
         destruct (Hpi u0 s0 Hon) as (k & Hk & Hu);
         destruct (Hs s0 k Hk) as (k' & Hk' & Hu'); exists k'; split; [done|congruence]).
  - intros u0 s0 Hon. simpl in *.
    destruct (decide (u = u0)) as [->|Hne].
    + rewrite lookup_insert_eq in Hon. injection Hon as <-.
      rewrite lookup_insert_eq. by eexists.
    + rewrite lookup_insert_ne in Hon by done.
      destruct (Hpi u0 s0 Hon) as (k & Hk & Hu). specialize (Hsi _ _ Hk).
      rewrite lookup_insert_ne by lia. by exists k.
  - intros u0 s0 Hon. simpl in *. unfold SocketHandlers.disconnect in *.
    destruct (sockets st !! sid) as [sock|] eqn:E; [|by apply Hpi].
    simpl in *. destruct (decide (s_user sock = u0)) as [<-|Hne].
    + by rewrite lookup_delete_eq in Hon.
    + rewrite lookup_delete_ne in Hon by done.
      destruct (Hpi u0 s0 Hon) as (k & Hk & Hu). exists k. split; [|done].
      rewrite lookup_delete_ne; [done|]. intros ->. congruence.
Qed.

Lemma run_presence_inv (evs : list Event) st :
  sockets_inv st → presence_inv st → presence_inv (run evs st).1.
Proof.
  revert st. induction evs as [|event evs IH]; intros st Hsi Hpi; [done|].
  destruct (run_cons event evs st) as [-> _].
  apply IH; [by apply step_sockets_inv | by apply step_presence_inv].
Qed.

End Presence.

(** In every state the server reaches from its start, [getOnlineUsers]
    lists exactly the users [isUserOnline] accepts, each once, and each of
    them has a registered socket that is connected and is a socket of that
    user: [onlineUsers] never names a socket that has gone or that belongs
    to somebody else. *)
Theorem presence_registry_sound (d : Database) (evs : list Event) (u : UserId) :
  let st := (run evs (initial d)).1 in
  (u ∈ SocketHandlers.getOnlineUsers st ↔ SocketHandlers.isUserOnline u st = true)
  ∧ NoDup (SocketHandlers.getOnlineUsers st)
  ∧ (SocketHandlers.isUserOnline u st = true →
     ∃ s sock, onlineUsers st !! u = Some s ∧ sockets st !! s = Some sock
               ∧ s_user sock = u).
Proof.
  intros st.
  assert (presence_inv st) as Hpi.
  { apply run_presence_inv; [apply initial_sockets_inv|].
    intros u0 s0 H. simpl in H. by rewrite lookup_empty in H. }
  unfold SocketHandlers.getOnlineUsers, SocketHandlers.isUserOnline.
  split; [|split].
  - rewrite bool_decide_eq_true. split.
    + intros ([u' s] & -> & Hin)%list_elem_of_fmap.
      apply elem_of_map_to_list in Hin. by exists s.
    + intros [s Hs]. apply list_elem_of_fmap. exists (u, s).
      split; [done|]. by apply elem_of_map_to_list.
  - apply NoDup_fst_map_to_list.
  - rewrite bool_decide_eq_true. intros [s Hs].
    destruct (Hpi u s Hs) as (sock & Hk & Hu). by exists s, sock.
Qed.

(** ** Unread counters of the conversation model *)

(** [incrementUnread] changes the document it is called on in place and
    writes to the store the count of that document plus one, whatever the
    store holds. Two calls on one document therefore count two. A call on
    another copy of the document, loaded before the first call, starts from
    the count it was loaded with: after the two calls the stored counter has
    moved by one only. [resetUnread] brings the stored counter to 0, and no
    call touches another user's counter. *)
Theorem incrementUnread_counts (u : UserId) (s : Conversation) (d : Database) :
  ConversationModel.findById (c_id s) d = Some s →
  let first := ConversationModel.incrementUnread u s d in
  let same_document := ConversationModel.incrementUnread u first.1 first.2 in
  let earlier_copy := ConversationModel.incrementUnread u s first.2 in
  let stored d' := ConversationModel.findById (c_id s) d' in
  stored first.2 = Some (set_unread u (unread_of s u + 1) s)
  ∧ ConversationModel.hasUnreadMessages first.1 u = true
  ∧ stored same_document.2 = Some (set_unread u (unread_of s u + 2) s)
  ∧ stored earlier_copy.2 = Some (set_unread u (unread_of s u + 1) s)
  ∧ stored (ConversationModel.resetUnread u same_document.1 same_document.2).2
    = Some (set_unread u 0 s)
  ∧ ∀ k, k ≠ u → unreadCount (set_unread u (unread_of s u + 2) s) !! k
                 = unreadCount s !! k.
Proof.
  intros Hs. cbn zeta.
  unfold ConversationModel.incrementUnread, ConversationModel.resetUnread.
  cbn [fst snd c_id set_unread].
  assert (∀ n m, set_unread u n (set_unread u m s) = set_unread u n s) as Hset.
  { intros n m. unfold set_unread. simpl. by rewrite insert_insert_eq. }
  rewrite !findById_update_conversation by done. rewrite !Nat.eqb_refl, Hs. simpl.
  rewrite !Hset. split; [done|]. split.
  { unfold ConversationModel.hasUnreadMessages. simpl. rewrite lookup_insert_eq.
    apply Nat.ltb_lt. lia. }
  split.
  { do 2 f_equal. unfold unread_of at 1. simpl. rewrite lookup_insert_eq. simpl. lia. }
  split; [done|]. split; [done|].
  intros k Hk. simpl. by rewrite lookup_insert_ne.
Qed.

Lemma incrementUnread_counts_witness :
  let s := mkConversation 0 ["P"; "D"] (Some 2) 2%Z (<["P":=1]> (<["D":=1]> ∅))
             true direct in
  let first := ConversationModel.incrementUnread "D" s db_chat in
  (λ c, unread_of c "D")
    <$> ConversationModel.findById 0
          (ConversationModel.incrementUnread "D" first.1 first.2).2
  = Some 3
  ∧ (λ c, unread_of c "D")
      <$> ConversationModel.findById 0 (ConversationModel.incrementUnread "D" s first.2).2
    = Some 2.
Proof.
  destruct (incrementUnread_counts "D"
              (mkConversation 0 ["P"; "D"] (Some 2) 2%Z (<["P":=1]> (<["D":=1]> ∅))
                 true direct) db_chat eq_refl)
    as (_ & _ & Hsame & Hcopy & _).
  cbn zeta. simpl c_id in Hsame, Hcopy. rewrite Hsame, Hcopy. split; reflexivity.
Defined.

(** ** The requests of the chat routes *)

(** Marking a conversation read twice: on a store with distinct message
    ids, the second request of the same participant reports 0 messages and
    leaves the store exactly as the first one left it. *)
Theorem markAsRead_twice (now1 now2 : Date) (u : UserId) (id : ObjectId)
    (d : Database) (c : Conversation) :
  NoDup (map m_id (messages d)) →
  ConversationModel.findById id d = Some c →
  has_participant u c = true →
  let d1 := (ChatController.markAsRead now1 u id d).2 in
  ChatController.markAsRead now2 u id d1 = (Json 200 0, d1).
Proof.
  intros Hnd Hc Hp d1.
  destruct (markAsRead_stored now1 u id d c Hc Hp)
    as (_ & (c1 & Hc1 & Hu1 & Hp1 & _) & _).
  fold d1 in Hc1.
  assert (messages d1
          = map (λ m, if ChatController.unread_query id u m
                      then push_readBy (mkReceipt u now1) m else m) (messages d))
    as Hmsgs.
  { unfold d1, ChatController.markAsRead. rewrite Hc, Hp. simpl.
    by apply mark_each_query. }
  assert (List.filter (ChatController.unread_query id u) (messages d1) = []) as Hnone.
  { rewrite Hmsgs. clear. induction (messages d) as [|m l IH]; [done|].
    cbn [map List.filter].
    destruct (ChatController.unread_query id u m) eqn:Hq.
    - assert (ChatController.unread_query id u (push_readBy (mkReceipt u now1) m)
              = false) as ->; [|exact IH].
      unfold ChatController.unread_query. rewrite isReadBy_push. simpl.
      by rewrite String.eqb_refl, orb_true_r, andb_false_r.
    - rewrite Hq. exact IH. }
  destruct (find_some_id c_id id _ _ Hc) as [Hid _].
  destruct (find_some_id c_id id _ _ Hc1) as [Hid1 _].
  assert (conversations d1
          = map (λ x, if Nat.eqb (c_id x) id then set_unread u 0 x else x)
              (conversations
                 (ChatController.mark_each now1 u
                    (List.filter (ChatController.unread_query id u) (messages d)) d)))
    as Hconv.
  { unfold d1, ChatController.markAsRead. rewrite Hc, Hp. simpl. by rewrite Hid. }
  unfold ChatController.markAsRead. rewrite Hc1.
  rewrite (has_participant_participants u c c1 Hp1), Hp. cbn [negb].
  rewrite Hnone. cbn [length ChatController.mark_each fold_left]. f_equal.
  unfold ConversationModel.resetUnread, ConversationModel.findByIdAndUpdate.
  cbn [snd]. rewrite Hid1. destruct d1 as [cs ms us n]. simpl in *. f_equal.
  rewrite Hconv, map_map. apply map_ext. intros x.
  destruct (Nat.eqb (c_id x) id) eqn:E; simpl; rewrite E; [|done].
  unfold set_unread. simpl. by rewrite insert_insert_eq.
Qed.

Lemma markAsRead_twice_witness :
  ChatController.markAsRead 10%Z "P" 0 (ChatController.markAsRead 9%Z "P" 0 db_chat).2
  = (Json 200 0, (ChatController.markAsRead 9%Z "P" 0 db_chat).2).
Proof.
  apply (markAsRead_twice 9%Z 10%Z "P" 0 db_chat
           (mkConversation 0 ["P"; "D"] (Some 2) 2%Z (<["P":=1]> (<["D":=1]> ∅))
              true direct)).
  - apply (bool_decide_unpack _). by vm_compute.
  - reflexivity.
  - reflexivity.
Defined.

(** The find-or-create request never touches the messages, the users or
    the conversations already stored, and it adds at most one conversation,
    which only a 201 answer does. A missing or empty [participantId] is
    answered 400 and an unknown participant 404, in that order and before
    the caller or any conversation is looked up. *)
Theorem createConversation_outcomes (now : Date) (u : UserId)
    (participantId : option UserId) (d : Database) :
  let r := ChatController.createConversation now u participantId d in
  (participantId = None ∨ participantId = Some "" →
   r = (Failed 400 "Please provide participantId", d))
  ∧ (∀ p, participantId = Some p → p ≠ "" → users d !! p = None →
          r = (Failed 404 "User not found", d))
  ∧ messages r.2 = messages d ∧ users r.2 = users d
  ∧ (r.2 = d
     ∨ ∃ p c, participantId = Some p ∧ r.1 = Json 201 c
              ∧ conversations r.2 = conversations d ++ [c]
              ∧ participants c = [u; p] ∧ c_id c = nextId d).
Proof.
  cbn zeta. unfold ChatController.createConversation.
  split. { intros [->| ->]; done. }
  split. { intros p -> Hne Hp. apply String.eqb_neq in Hne. by rewrite Hne, Hp. }
  destruct participantId as [p|]; [|by repeat split; left].
  destruct (String.eqb p ""); [by repeat split; left|].
  destruct (users d !! p); [|by repeat split; left].
  destruct (users d !! u); [|by repeat split; left].
  destruct (_ && _); [by repeat split; left|].
  destruct (_ && _); [by repeat split; left|].
  unfold ConversationModel.findOrCreate.
  destruct (ConversationModel.findBetweenUsers u p d); [by repeat split; left|].
  simpl. split; [done|]. split; [done|]. right. by eexists p, _.
Qed.

(** Nothing stops a conversation with oneself: a caller whose role is
    neither patient nor doctor who names their own id as the participant gets a
    new conversation whose two participants are both the caller, with one
    unread counter; it has no other participant, and a send in it has no
    recipient. *)
Theorem createConversation_self (now : Date) (u : UserId) (d : Database)
    (currentUser : User) :
  u ≠ "" →
  users d !! u = Some currentUser →
  role currentUser ≠ "patient" → role currentUser ≠ "doctor" →
  ConversationModel.findBetweenUsers u u d = None →
  ∃ c, ChatController.createConversation now u (Some u) d
       = (Json 201 c,
          mkDatabase (conversations d ++ [c]) (messages d) (users d) (S (nextId d)))
       ∧ participants c = [u; u]
       ∧ dom (unreadCount c) = {[u]}
       ∧ ConversationModel.getOtherParticipant c u = None
       ∧ others_of u c = [].
Proof.
  intros Hne Hu Hp Hd Hnone. unfold ChatController.createConversation.
  apply String.eqb_neq in Hne, Hp, Hd. rewrite Hne, Hu, Hp, Hd. simpl.
  unfold ConversationModel.findOrCreate. rewrite Hnone. simpl.
  eexists. split; [done|]. simpl. split; [done|].
  split. { rewrite !dom_insert_L. set_solver. }
  unfold ConversationModel.getOtherParticipant, others_of. simpl.
  by rewrite String.eqb_refl.
Qed.

Lemma createConversation_self_witness :
  ∃ c, ChatController.createConversation 5%Z "R" (Some "R") db_empty
       = (Json 201 c, mkDatabase [c] [] users_ex 1)
       ∧ participants c = ["R"; "R"].
Proof.
  destruct (createConversation_self 5%Z "R" db_empty (mkUser "Root" "admin"))
    as (c & Hc & Hp & _); [discriminate|reflexivity|discriminate|discriminate|reflexivity|].
  exists c. split; [exact Hc | exact Hp].
Defined.

(** What a request returns only to participants. [getConversation] and
    [getMessages] answer with data only when the conversation exists and the
    caller is one of its participants, and the messages returned belong to
    that conversation; for any other caller or id the three requests answer
    404 or 403 and mark-as-read leaves the store as it is. *)
Theorem requests_for_participants_only (u : UserId) (id : ObjectId) (d : Database) :
  (∀ status data, ChatController.getConversation u id d = Json status data →
                  ConversationModel.findById id d = Some data
                  ∧ has_participant u data = true)
  ∧ (∀ limit before status msgs,
       ChatController.getMessages u id limit before d = Json status msgs →
       (∃ c, ConversationModel.findById id d = Some c ∧ has_participant u c = true)
       ∧ Forall (λ m, conversation m = id) msgs)
  ∧ ((∀ c, ConversationModel.findById id d = Some c → has_participant u c = false) →
     ∀ now limit before,
       (ChatController.markAsRead now u id d).2 = d
       ∧ ∃ status e,
           (status = 404 ∨ status = 403)
           ∧ (ChatController.markAsRead now u id d).1 = Failed status e
           ∧ ChatController.getMessages u id limit before d = Failed status e
           ∧ ChatController.getConversation u id d = Failed status e).
Proof.
  split; [|split].
  - intros status data. unfold ChatController.getConversation.
    destruct (ConversationModel.findById id d) as [c|]; [|done].
    destruct (has_participant u c) eqn:Hp; [|done]. simpl. by intros [= _ <-].
  - intros limit before status msgs H.
    destruct (ConversationModel.findById id d) as [c|] eqn:Hc;
      [|unfold ChatController.getMessages in H; by rewrite Hc in H].
    destruct (has_participant u c) eqn:Hp;
      [|unfold ChatController.getMessages in H; by rewrite Hc, Hp in H].
    split; [by exists c|].
    unfold ChatController.getMessages in H. rewrite Hc, Hp in H. simpl in H.
    injection H as _ <-. apply Forall_forall. intros m Hm.
    apply page_matches in Hm as [_ Hq]. unfold ChatController.messages_query in Hq.
    apply andb_true_iff in Hq as [Hq _]. apply andb_true_iff in Hq as [Hq _].
    by apply Nat.eqb_eq.
  - intros Hno now limit before.
    unfold ChatController.markAsRead, ChatController.getMessages,
      ChatController.getConversation.
    destruct (ConversationModel.findById id d) as [c|].
    + rewrite (Hno c eq_refl). simpl. split; [done|]. eexists 403, _. by repeat split; [right|..].
    + simpl. split; [done|]. eexists 404, _. by repeat split; [left|..].
Qed.

Lemma requests_for_participants_only_witness :
  (ChatController.markAsRead 9%Z "X" 0 db_chat).2 = db_chat
  ∧ ∃ status e, (status = 404 ∨ status = 403)
                ∧ ChatController.getConversation "X" 0 db_chat = Failed status e.
Proof.
  destruct (requests_for_participants_only "X" 0 db_chat) as (_ & _ & H).
  destruct (H (λ c Hc, match Hc in _ = o return
                         match o with Some c' => has_participant "X" c' = false
                                    | None => True end
                       with eq_refl => eq_refl end) 9%Z None None)
    as (Hd & status & e & Hs & _ & _ & Hg).
  split; [exact Hd|]. exists status, e. split; [exact Hs | exact Hg].
Defined.

(** A cursor that names no stored message is ignored: the request answers
    as it does without a cursor. *)
Theorem getMessages_unknown_cursor (u : UserId) (id b : ObjectId)
    (limit : option positive) (d : Database) :
  MessageModel.findById b d = None →
  ChatController.getMessages u id limit (Some b) d
  = ChatController.getMessages u id limit None d.
Proof.
  intros Hb. unfold ChatController.getMessages, ChatController.before_bound.
  by rewrite Hb.
Qed.

Lemma getMessages_unknown_cursor_witness :
  ChatController.getMessages "P" 0 (Some 1%positive) (Some 99) db_chat = Json 200 [msg2].
Proof.
  rewrite (getMessages_unknown_cursor "P" 0 99 (Some 1%positive) db_chat eq_refl).
  vm_compute. reflexivity.
Defined.

(** ** The list of conversations *)

Global Instance later_first_trans : Transitive later_first.
Proof. unfold later_first. intros x y z ??. lia. Qed.

Global Instance later_first_total : Total later_first.
Proof. unfold later_first. intros x y. lia. Qed.

Lemma populate_participants_find (u p : UserId) (usr : User) (d : Database)
    (c : Conversation) :
  List.find (λ q, negb (String.eqb (fst q) u)) (ChatController.populate_participants d c)
  = Some (p, usr) →
  p ≠ u ∧ p ∈ participants c ∧ users d !! p = Some usr.
Proof.
  intros H. apply find_some in H as [Hin Hne]. simpl in Hne.
  apply negb_true_iff, String.eqb_neq in Hne. split; [done|].
  apply list_elem_of_In in Hin. unfold ChatController.populate_participants in Hin.
  apply list_elem_of_omap in Hin as (q & Hq & Hsome).
  destruct (users d !! q) as [usr'|] eqn:Hu; [|done].
  injection Hsome as -> ->. done.
Qed.

(** [getConversations] always answers 200. The list has one entry for each
    active conversation the caller is in, inactive ones and those of other
    people left out, ordered by time of last activity, latest first. An
    entry carries the caller's own unread counter (0 when the conversation
    has none for the caller), and the participant it shows, if any, is a
    stored user of the conversation other than the caller. *)
Theorem getConversations_lists (u : UserId) (d : Database) :
  ∃ views,
    ChatController.getConversations u d = Json 200 views
    ∧ v_id <$> views
      ≡ₚ c_id <$> List.filter (λ c, has_participant u c && isActive c) (conversations d)
    ∧ Sorted (λ a b, (v_lastMessageAt b ≤ v_lastMessageAt a)%Z) views
    ∧ Forall (λ v, ∃ c, c ∈ conversations d
                        ∧ u ∈ participants c ∧ isActive c = true
                        ∧ v_id v = c_id c
                        ∧ v_lastMessageAt v = lastMessageAt c
                        ∧ v_unreadCount v = default 0 (unreadCount c !! u)
                        ∧ ∀ p usr, v_participant v = Some (p, usr) →
                                   p ≠ u ∧ p ∈ participants c
                                   ∧ users d !! p = Some usr) views.
Proof.
  eexists. split; [reflexivity|].
  set (cs := List.filter _ (conversations d)).
  split.
  { change (map (ChatController.format_conversation u d) (merge_sort later_first cs))
      with (ChatController.format_conversation u d <$> merge_sort later_first cs).
    rewrite <- list_fmap_compose.
    by rewrite (merge_sort_Permutation later_first cs). }
  split.
  { apply (Sorted_fmap (ChatController.format_conversation u d) later_first);
      [by intros x y|].
    apply Sorted_merge_sort. apply _. }
  apply Forall_forall. intros v Hv.
  apply list_elem_of_fmap in Hv as (c & -> & Hc).
  rewrite (merge_sort_Permutation later_first cs) in Hc.
  apply list_elem_of_In, filter_In in Hc as [Hin Hq].
  apply andb_true_iff in Hq as [Hp Ha].
  exists c. split; [by apply list_elem_of_In|].
  split; [by apply has_participant_elem|]. split; [done|].
  split; [done|]. split; [done|]. split; [done|].
  intros p usr Hf. simpl in Hf. by apply populate_participants_find in Hf.
Qed.

(** ** Paging back through a conversation *)

Lemma filter_query_bound (id : ObjectId) (t : Date) (l : list Message) :
  List.filter (ChatController.messages_query id (Some t)) l
  = List.filter (λ m, Z.ltb (createdAt m) t)
      (List.filter (ChatController.messages_query id None) l).
Proof.
  induction l as [|m l IH]; [done|]. cbn [List.filter]. rewrite IH.
  unfold ChatController.messages_query.
  destruct (Nat.eqb _ _ && negb _); simpl; done.
Qed.

Lemma filter_perm {A} (f : A → bool) (l l' : list A) :
  l ≡ₚ l' → List.filter f l ≡ₚ List.filter f l'.
Proof.
  induction 1 as [|x l l' _ IH|x y l|l l' l'' _ IH1 _ IH2]; simpl.
  - done.
  - destruct (f x); [by constructor | done].
  - destruct (f x), (f y); try done. apply perm_swap.
  - by etrans.
Qed.

Lemma filter_none {A} (f : A → bool) (l : list A) :
  (∀ x, x ∈ l → f x = false) → List.filter f l = [].
Proof.
  induction l as [|x l IH]; simpl; intros H; [done|].
  rewrite (H x) by (apply elem_of_cons; by left).
  apply IH. intros y Hy. apply H. apply elem_of_cons. by right.
Qed.

Lemma filter_all {A} (f : A → bool) (l : list A) :
  (∀ x, x ∈ l → f x = true) → List.filter f l = l.
Proof.
  induction l as [|x l IH]; simpl; intros H; [done|].
  rewrite (H x) by (apply elem_of_cons; by left).
  f_equal. apply IH. intros y Hy. apply H. apply elem_of_cons. by right.
Qed.

Lemma NoDup_fmap_eq {A B} (f : A → B) (l : list A) (x y : A) :
  NoDup (f <$> l) → x ∈ l → y ∈ l → f x = f y → x = y.
Proof.
  induction l as [|z l IH]; intros Hnd Hx Hy Heq; [by apply elem_of_nil in Hx|].
  rewrite fmap_cons in Hnd. apply NoDup_cons in Hnd as [Hz Hnd].
  apply elem_of_cons in Hx as [->|Hx]; apply elem_of_cons in Hy as [->|Hy];
    [done| | |by apply IH].
  - exfalso. apply Hz. rewrite Heq. apply list_elem_of_fmap. by exists y.
  - exfalso. apply Hz. rewrite <- Heq. apply list_elem_of_fmap. by exists x.
Qed.

(** In a list ordered latest first with no creation time twice, the
    messages strictly older than the last of the first [n] are exactly those
    after the first [n]. *)
Lemma cursor_cut (s pre : list Message) (n : nat) (o : Message) :
  StronglySorted newer_first s →
  NoDup (createdAt <$> s) →
  take n s = pre ++ [o] →
  List.filter (λ m, Z.ltb (createdAt m) (createdAt o)) s = drop n s.
Proof.
  intros Hs Hnd Ht.
  rewrite <- (take_drop n s) in Hs, Hnd.
  rewrite <- (take_drop n s) at 1. rewrite Ht in *.
  rewrite List.filter_app, filter_none, filter_all; [done| |].
  - intros x Hx. apply Z.ltb_lt.
    assert (newer_first o x) as Hle.
    { apply (StronglySorted_app_1_elem_of _ _ _ _ _ Hs); [|done].
      apply elem_of_app. right. apply list_elem_of_singleton. done. }
    unfold newer_first in Hle.
    assert (createdAt x ≠ createdAt o); [|lia].
    intros Heq. rewrite fmap_app in Hnd. apply NoDup_app in Hnd as (_ & Hnd & _).
    apply (Hnd (createdAt o)).
    + rewrite fmap_app. apply elem_of_app. right. apply list_elem_of_singleton. done.
    + rewrite <- Heq. apply list_elem_of_fmap. by exists x.
  - intros x Hx. apply Z.ltb_ge.
    apply elem_of_app in Hx as [Hx|Hx].
    + apply StronglySorted_app_1_l in Hs.
      apply (StronglySorted_app_1_elem_of _ _ _ _ _ Hs Hx).
      apply list_elem_of_singleton. done.
    + apply list_elem_of_singleton in Hx. subst. lia.
Qed.

(** Paging back with the cursor loses nothing and repeats nothing. When no
    two messages of the conversation left undeleted share a creation time, a
    page of L messages followed by the page of L messages before its oldest
    message is the page of 2L messages. *)
Theorem getMessages_pages_compose (u : UserId) (id : ObjectId) (L : positive)
    (d : Database) (oldest : Message) (rest : list Message) :
  NoDup (map m_id (messages d)) →
  NoDup (createdAt
           <$> List.filter (ChatController.messages_query id None) (messages d)) →
  ChatController.getMessages u id (Some L) None d = Json 200 (oldest :: rest) →
  ∃ earlier,
    ChatController.getMessages u id (Some L) (Some (m_id oldest)) d = Json 200 earlier
    ∧ ChatController.getMessages u id (Some (2 * L)%positive) None d
      = Json 200 (earlier ++ oldest :: rest).
Proof.
  intros Hids Htimes H. unfold ChatController.getMessages in *.
  destruct (ConversationModel.findById id d) as [c|]; [|done].
  destruct (negb (has_participant u c)); [done|].
  cbn [default ChatController.before_bound] in *.
  injection H as H.
  set (cands := List.filter (ChatController.messages_query id None) (messages d)) in *.
  set (s := merge_sort newer_first cands) in *.
  assert (take (Pos.to_nat L) s = reverse rest ++ [oldest]) as Ht.
  { rewrite <- reverse_cons, <- H. by rewrite reverse_involutive. }
  assert (oldest ∈ messages d) as Hin.
  { assert (oldest ∈ reverse (take (Pos.to_nat L) s)) as Ho
      by (rewrite H; apply elem_of_cons; by left).
    by apply page_matches in Ho as [Ho _]. }
  assert (MessageModel.findById (m_id oldest) d = Some oldest) as ->.
  { unfold MessageModel.findById.
    destruct (List.find _ _) as [m0|] eqn:E.
    - apply (find_some_id m_id) in E as [Hid Hin0]. f_equal.
      by apply (NoDup_map_inj m_id (messages d)).
    - apply list_elem_of_In in Hin. pose proof (find_none _ _ E oldest Hin) as Hn.
      simpl in Hn. by rewrite Nat.eqb_refl in Hn. }
  assert (StronglySorted newer_first s) as Hs
    by (apply StronglySorted_merge_sort; apply _).
  assert (s ≡ₚ cands) as Hperm by apply merge_sort_Permutation.
  assert (NoDup (createdAt <$> s)) as Hnd by (by rewrite Hperm).
  assert (merge_sort newer_first
            (List.filter (ChatController.messages_query id (Some (createdAt oldest)))
               (messages d))
          = drop (Pos.to_nat L) s) as ->.
  { rewrite filter_query_bound. fold cands.
    rewrite <- (cursor_cut s (reverse rest) _ oldest Hs Hnd Ht).
    apply (StronglySorted_unique_strong newer_first).
    - intros x1 x2 Hx1 Hx2 H12 H21. unfold newer_first in *.
      rewrite merge_sort_Permutation in Hx1.
      apply list_elem_of_In, filter_In in Hx1 as [Hx1 _].
      apply list_elem_of_In, filter_In in Hx2 as [Hx2 _].
      apply list_elem_of_In in Hx1, Hx2. rewrite <- Hperm in Hx1.
      apply (NoDup_fmap_eq createdAt s); [done..|lia].
    - apply StronglySorted_merge_sort; apply _.
    - rewrite (cursor_cut s (reverse rest) _ oldest Hs Hnd Ht).
      rewrite <- (take_drop (Pos.to_nat L) s) in Hs.
      by apply StronglySorted_app_1_r in Hs.
    - rewrite merge_sort_Permutation. apply filter_perm. by symmetry. }
  eexists. split; [reflexivity|]. f_equal.
  rewrite <- H, <- reverse_app, take_take_drop. unfold Datatypes.id.
  rewrite Pos2Nat.inj_mul. change (Pos.to_nat 2) with 2. do 2 f_equal. lia.
Qed.

Lemma getMessages_pages_compose_witness :
  ChatController.getMessages "P" 0 (Some 2%positive) None db_chat = Json 200 [msg1; msg2].
Proof.
  destruct (getMessages_pages_compose "P" 0 1%positive db_chat msg2 [])
    as (earlier & H1 & H2).
  - apply NoDup_ListNoDup. vm_compute. repeat constructor; simpl; intros []; try done; lia.
  - apply NoDup_ListNoDup. vm_compute. repeat constructor; simpl; intros []; try done; lia.
  - vm_compute. reflexivity.
  - change (2 * 1)%positive with 2%positive in H2. rewrite H2. f_equal.
    vm_compute in H1. injection H1 as <-. reflexivity.
Defined.

(** ** What the events write to the store *)

Section HandlerWrites.

Implicit Types (d : Database) (doc m : Message) (c : Conversation).

Lemma stored_as_same doc doc' d :
  m_id doc' = m_id doc → conversation doc' = conversation doc →
  createdAt doc' = createdAt doc → stored_as doc d → stored_as doc' d.
Proof. intros H1 H2 H3 (m & Hm & ? & ? & ?). exists m. by rewrite H1, H2, H3. Qed.

Lemma stored_as_elem m d : m ∈ messages d → stored_as m d.
Proof. intros Hm. by exists m. Qed.

Lemma write_stored_as doc d d' : StoreWrite d d' → stored_as doc d → stored_as doc d'.
Proof.
  intros Hw (m & Hm & H1 & H2 & H3).
  destruct Hw as [id r|id r|doc' _|cid ps key n _ _|doc' _|now a b].
  - exists (if Nat.eqb (m_id m) id then push_readBy r m else m).
    split; [|by destruct (Nat.eqb _ _)]. simpl.
    by apply (list_elem_of_fmap_2 (λ m, if Nat.eqb (m_id m) id then push_readBy r m else m)).
  - exists (if Nat.eqb (m_id m) id then push_deliveredTo r m else m).
    split; [|by destruct (Nat.eqb _ _)]. simpl.
    by apply (list_elem_of_fmap_2
                (λ m, if Nat.eqb (m_id m) id then push_deliveredTo r m else m)).
  - by exists m.
  - by exists m.
  - exists m. split; [|done]. simpl. apply elem_of_app. by left.
  - by exists m.
Qed.

Lemma write_has_conversation cid ps d d' :
  StoreWrite d d' → has_conversation cid ps d → has_conversation cid ps d'.
Proof.
  intros Hw (c & Hc & H1 & H2).
  destruct Hw as [id r|id r|doc' _|cid' ps' key n _ _|doc' _|now a b].
  - by exists c.
  - by exists c.
  - exists (if Nat.eqb (c_id c) (conversation doc')
            then set_last (m_id doc') (createdAt doc') c else c).
    split; [|by destruct (Nat.eqb _ _)]. simpl.
    by apply (list_elem_of_fmap_2
                (λ c, if Nat.eqb (c_id c) (conversation doc')
                      then set_last (m_id doc') (createdAt doc') c else c)).
  - exists (if Nat.eqb (c_id c) cid' then set_unread key n c else c).
    split; [|by destruct (Nat.eqb _ _)]. simpl.
    by apply (list_elem_of_fmap_2
                (λ c, if Nat.eqb (c_id c) cid' then set_unread key n c else c)).
  - by exists c.
  - exists c. split; [|done]. simpl. apply elem_of_app. by left.
Qed.

Lemma writes_stored_as doc d d' : StoreWrites d d' → stored_as doc d → stored_as doc d'.
Proof. induction 1; [done|]. eauto using write_stored_as. Qed.

Lemma writes_has_conversation cid ps d d' :
  StoreWrites d d' → has_conversation cid ps d → has_conversation cid ps d'.
Proof. induction 1; [done|]. eauto using write_has_conversation. Qed.

Lemma has_conversation_found cid c d :
  ConversationModel.findById cid d = Some c → has_conversation cid (participants c) d.
Proof. intros H. apply (find_some_id c_id) in H as [Hid Hin]. by exists c. Qed.

(** *** The methods of the models *)

Lemma markAsRead_writes now u this d :
  stored_as this d → StoreWrites d (MessageModel.markAsRead now u this d).2.
Proof.
  intros Hs. unfold MessageModel.markAsRead.
  destruct (MessageModel.isReadBy this u); [done|]. simpl.
  eapply rtc_l; [apply write_readBy|]. apply rtc_once, write_last.
  apply (stored_as_same this); [done..|].
  eapply write_stored_as; [apply write_readBy|done].
Qed.

Lemma markAsDelivered_writes now u this d :
  stored_as this d → StoreWrites d (MessageModel.markAsDelivered now u this d).2.
Proof.
  intros Hs. unfold MessageModel.markAsDelivered.
  destruct (MessageModel.isDeliveredTo this u); [done|]. simpl.
  eapply rtc_l; [apply write_deliveredTo|]. apply rtc_once, write_last.
  apply (stored_as_same this); [done..|].
  eapply write_stored_as; [apply write_deliveredTo|done].
Qed.

Lemma markAsDelivered_same now u this d :
  let m' := (MessageModel.markAsDelivered now u this d).1 in
  m_id m' = m_id this ∧ conversation m' = conversation this
  ∧ createdAt m' = createdAt this.
Proof.
  unfold MessageModel.markAsDelivered.
  by destruct (MessageModel.isDeliveredTo this u).
Qed.

Lemma create_message_writes cid u content mtype now d doc d' :
  MessageModel.create cid u content mtype now d = Some (doc, d') →
  StoreWrites d d' ∧ stored_as doc d' ∧ conversation doc = cid.
Proof.
  unfold MessageModel.create. destruct (MessageModel.validate _ _); [|done].
  intros [= <- <-].
  set (doc := mkMessage _ _ _ _ _ _ _ _ _).
  set (d1 := mkDatabase _ _ _ _).
  assert (stored_as doc d1) as Hs.
  { apply stored_as_elem. simpl. apply elem_of_app. right.
    by apply list_elem_of_singleton. }
  assert (StoreWrite d1 (MessageModel.post_save doc d1)) as Hw by by apply write_last.
  split; [|split; [|done]].
  - eapply rtc_l; [by apply (write_message d doc)|]. by apply rtc_once.
  - by eapply write_stored_as.
Qed.

Lemma create_conversation_writes now a b d :
  StoreWrites d (ConversationModel.findOrCreate now a b d).2.
Proof.
  unfold ConversationModel.findOrCreate.
  destruct (ConversationModel.findBetweenUsers a b d); [done|].
  apply rtc_once, write_conversation.
Qed.

(** *** The loops of the handlers and the handlers *)

Lemma mark_each_writes now u (l : list Message) d :
  Forall (λ m, stored_as m d) l → StoreWrites d (ChatController.mark_each now u l d).
Proof.
  unfold ChatController.mark_each. revert d.
  induction l as [|x l IH]; intros d Hall; [done|].
  apply Forall_cons in Hall as [Hx Hall]. simpl.
  pose proof (markAsRead_writes now u x d Hx) as Hw.
  etrans; [exact Hw|]. apply IH.
  eapply Forall_impl; [exact Hall|]. intros m. by apply writes_stored_as.
Qed.

Lemma increment_others_writes (others : list UserId) c d :
  has_conversation (c_id c) (participants c) d →
  Forall (λ p, p ∈ participants c) others →
  StoreWrites d (SocketHandlers.increment_others others c d).2.
Proof.
  revert c d. induction others as [|x l IH]; intros c d Hc Hall; [done|].
  apply Forall_cons in Hall as [Hx Hall]. rewrite increment_others_cons.
  assert (StoreWrite d (ConversationModel.findByIdAndUpdate (c_id c)
                     (set_unread x (unread_of c x + 1)) d)) as Hw
    by by apply (write_unread d (c_id c) (participants c)).
  eapply rtc_l; [exact Hw|]. apply IH; [|done]. simpl.
  by eapply write_has_conversation.
Qed.

Lemma deliver_online_writes st cid now (ps : list UserId) m d :
  stored_as m d → StoreWrites d (SocketHandlers.deliver_online st cid now ps m d).1.
Proof.
  revert m d. induction ps as [|x ps IH]; intros m d Hs; [done|].
  cbn [SocketHandlers.deliver_online].
  destruct (onlineUsers st !! x); [|by apply IH].
  pose proof (markAsDelivered_writes now x m d Hs) as Hw.
  pose proof (markAsDelivered_same now x m d) as (H1 & H2 & H3).
  destruct (MessageModel.markAsDelivered now x m d) as [m' d']. simpl in *.
  assert (stored_as m' d') as Hs'.
  { apply (stored_as_same m); [done..|]. by eapply writes_stored_as. }
  specialize (IH m' d' Hs').
  destruct (SocketHandlers.deliver_online st cid now ps m' d') as [d'' out].
  simpl in *. by etrans.
Qed.

Lemma send_message_writes sid data now st :
  StoreWrites (db st) (db (SocketHandlers.send_message sid data now st).1).
Proof.
  unfold SocketHandlers.send_message.
  destruct (sockets st !! sid) as [sock|]; [|done].
  destruct (ConversationModel.findById _ (db st)) as [c|] eqn:Hc; [|done].
  destruct (negb _); [done|].
  destruct (MessageModel.create _ _ _ _ _ _) as [[message db1]|] eqn:Hm; [|done].
  apply create_message_writes in Hm as (Hw1 & Hs1 & _).
  set (others := List.filter _ (participants c)).
  assert (StoreWrites db1 (SocketHandlers.increment_others others c db1).2) as Hw2.
  { apply increment_others_writes.
    - apply (find_some_id c_id) in Hc as [Hid Hin].
      eapply writes_has_conversation; [exact Hw1|]. by exists c.
    - apply Forall_forall. intros p Hp.
      apply list_elem_of_In, filter_In in Hp as [Hp _]. by apply list_elem_of_In. }
  pose proof (deliver_online_writes st (conversationId data) now others message
                (SocketHandlers.increment_others others c db1).2
                (writes_stored_as _ _ _ Hw2 Hs1)) as Hw3.
  destruct (SocketHandlers.deliver_online _ _ _ _ _ _) as [db3 delivered].
  simpl in *. etrans; [exact Hw1|]. by etrans.
Qed.

Lemma message_read_writes sid mid cid now st :
  StoreWrites (db st) (db (SocketHandlers.message_read sid mid cid now st).1).
Proof.
  unfold SocketHandlers.message_read.
  destruct (sockets st !! sid) as [sock|]; [|done].
  destruct (MessageModel.findById mid (db st)) as [message|] eqn:Hm; [|done].
  apply (find_some_id m_id) in Hm as [_ Hin].
  pose proof (markAsRead_writes now (s_user sock) message (db st)
                (stored_as_elem _ _ Hin)) as Hw.
  by destruct (MessageModel.markAsRead _ _ _ _) as [message' db1].
Qed.

Lemma createConversation_writes now u pid d :
  StoreWrites d (ChatController.createConversation now u pid d).2.
Proof.
  unfold ChatController.createConversation.
  destruct pid as [p|]; [|done].
  destruct (String.eqb p ""); [done|].
  destruct (users d !! p); [|done].
  destruct (users d !! u); [|done].
  destruct (_ && _); [done|].
  destruct (_ && _); [done|].
  pose proof (create_conversation_writes now u p d) as H.
  by destruct (ConversationModel.findOrCreate now u p d).
Qed.

Lemma markConversationRead_writes now u id d :
  StoreWrites d (ChatController.markAsRead now u id d).2.
Proof.
  unfold ChatController.markAsRead.
  destruct (ConversationModel.findById id d) as [c|] eqn:Hc; [|done].
  destruct (negb _) eqn:Hp; [done|]. simpl.
  apply negb_false_iff, has_participant_elem in Hp.
  set (unread := List.filter _ (messages d)).
  assert (StoreWrites d (ChatController.mark_each now u unread d)) as Hw.
  { apply mark_each_writes, Forall_forall. intros m Hm.
    apply list_elem_of_In, filter_In in Hm as [Hm _].
    by apply stored_as_elem, list_elem_of_In. }
  etrans; [exact Hw|]. apply rtc_once.
  apply (write_unread _ (c_id c) (participants c)); [|done].
  apply (find_some_id c_id) in Hc as [Hid Hin].
  eapply writes_has_conversation; [exact Hw|]. by exists c.
Qed.

Lemma step_writes event st : StoreWrites (db st) (db (step event st).1).
Proof.
  destruct event as [u name|sid cid|sid data now|sid mid cid now|sid cid|sid cid|sid|
                     now u pid|now u id]; simpl.
  - done.
  - unfold SocketHandlers.join_conversation.
    destruct (sockets st !! sid); [|done].
    destruct (ConversationModel.findById cid (db st)); [|done].
    by destruct (negb _).
  - apply send_message_writes.
  - apply message_read_writes.
  - unfold SocketHandlers.typing_start.
    destruct (sockets st !! sid); [|done].
    destruct (ConversationModel.findById cid (db st)); [|done].
    by destruct (negb _).
  - unfold SocketHandlers.typing_stop. by destruct (sockets st !! sid).
  - unfold SocketHandlers.disconnect. by destruct (sockets st !! sid).
  - apply createConversation_writes.
  - apply markConversationRead_writes.
Qed.

Lemma run_writes (evs : list Event) st : StoreWrites (db st) (db (run evs st).1).
Proof.
  revert st. induction evs as [|event evs IH]; intros st; [done|].
  destruct (run_cons event evs st) as [-> _].
  etrans; [apply step_writes | apply IH].
Qed.

End HandlerWrites.

(** ** What no event undoes *)

Section StoreInvariants.

Implicit Types (d : Database) (doc m : Message) (c : Conversation).

Global Instance receipts_added_refl : Reflexive receipts_added.
Proof. intros m. by repeat split. Qed.

Global Instance receipts_added_trans : Transitive receipts_added.
Proof.
  intros m1 m2 m3 (?&?&?&?&?&?&?&?&?) (?&?&?&?&?&?&?&?&?).
  repeat split; try congruence; by etrans.
Qed.

Lemma receipts_added_map (g : Message → Message) (id : ObjectId) (l : list Message) :
  (∀ m, receipts_added m (g m)) →
  Forall2 receipts_added l (map (λ m, if Nat.eqb (m_id m) id then g m else m) l).
Proof.
  intros Hg. induction l as [|m l IH]; simpl; constructor; [|done].
  by destruct (Nat.eqb _ _).
Qed.

Lemma messages_kept_same d d' : messages d' = messages d → messages_kept d d'.
Proof. intros H. exists (messages d), []. split; [by rewrite app_nil_r | done]. Qed.

Lemma messages_kept_refl d : messages_kept d d.
Proof. by apply messages_kept_same. Qed.

Lemma messages_kept_trans d1 d2 d3 :
  messages_kept d1 d2 → messages_kept d2 d3 → messages_kept d1 d3.
Proof.
  intros (k1 & a1 & E1 & H1) (k2 & a2 & E2 & H2).
  rewrite E1 in H2. apply Forall2_app_inv_l in H2 as (k2a & k2b & Ha & Hb & ->).
  exists k2a, (k2b ++ a2). split; [by rewrite E2, <- app_assoc|].
  by etrans.
Qed.

Lemma write_messages_kept d d' : StoreWrite d d' → messages_kept d d'.
Proof.
  intros [id r|id r|doc' _|cid ps key n _ _|doc' _|now a b].
  - eexists _, []. split; [by rewrite app_nil_r|]. simpl.
    apply receipts_added_map. intros m. repeat split; simpl; try done.
    by apply prefix_app_r.
  - eexists _, []. split; [by rewrite app_nil_r|]. simpl.
    apply receipts_added_map. intros m. repeat split; simpl; try done.
    by apply prefix_app_r.
  - by apply messages_kept_same.
  - by apply messages_kept_same.
  - by exists (messages d), [doc'].
  - by apply messages_kept_same.
Qed.

Lemma writes_messages_kept d d' : StoreWrites d d' → messages_kept d d'.
Proof.
  induction 1 as [|d1 d2 d3 Hw _ IH]; [apply messages_kept_refl|].
  eapply messages_kept_trans; [by apply write_messages_kept | done].
Qed.

Lemma write_last_inv d d' : StoreWrite d d' → last_inv d → last_inv d'.
Proof.
  intros Hw Hinv c mid Hc Hl.
  destruct Hw as [id r|id r|doc' Hs|cid ps key n _ _|doc' _|now a b].
  - destruct (Hinv c mid Hc Hl) as (m & Hm & H1 & H2 & H3).
    exists (if Nat.eqb (m_id m) id then push_readBy r m else m).
    split; [|by destruct (Nat.eqb _ _)]. simpl.
    by apply (list_elem_of_fmap_2 (λ m, if Nat.eqb (m_id m) id then push_readBy r m else m)).
  - destruct (Hinv c mid Hc Hl) as (m & Hm & H1 & H2 & H3).
    exists (if Nat.eqb (m_id m) id then push_deliveredTo r m else m).
    split; [|by destruct (Nat.eqb _ _)]. simpl.
    by apply (list_elem_of_fmap_2
                (λ m, if Nat.eqb (m_id m) id then push_deliveredTo r m else m)).
  - simpl in Hc. apply list_elem_of_fmap in Hc as (c0 & -> & Hc0).
    destruct (Nat.eqb (c_id c0) (conversation doc')) eqn:E.
    + apply Nat.eqb_eq in E. simpl in Hl. injection Hl as <-.
      destruct Hs as (m & Hm & H1 & H2 & H3). exists m. simpl.
      repeat split; [done|done|congruence|done].
    + by apply Hinv.
  - simpl in Hc. apply list_elem_of_fmap in Hc as (c0 & -> & Hc0).
    destruct (Nat.eqb (c_id c0) cid); [|by apply Hinv].
    simpl in *. by apply Hinv.
  - simpl in Hc. destruct (Hinv c mid Hc Hl) as (m & Hm & H).
    exists m. split; [|done]. simpl. apply elem_of_app. by left.
  - simpl in Hc. apply elem_of_app in Hc as [Hc|Hc]; [by apply Hinv|].
    apply list_elem_of_singleton in Hc. by subst.
Qed.

Lemma writes_last_inv d d' : StoreWrites d d' → last_inv d → last_inv d'.
Proof. induction 1; [done|]. eauto using write_last_inv. Qed.

Lemma write_ids_wf d d' : StoreWrite d d' → ids_wf d → ids_wf d'.
Proof.
  intros Hw (Hwf & Hnd & Hlt).
  assert (∀ (g : Message → Message) id,
            (∀ m, m_id (g m) = m_id m) →
            map m_id (map (λ m, if Nat.eqb (m_id m) id then g m else m) (messages d))
            = map m_id (messages d)) as Hmap.
  { intros g id Hg. rewrite map_map. apply map_ext. intros m.
    by destruct (Nat.eqb _ _). }
  assert (∀ (g : Message → Message) id,
            (∀ m, m_id (g m) = m_id m) →
            Forall (λ m, m_id m < nextId d)
              (map (λ m, if Nat.eqb (m_id m) id then g m else m) (messages d))) as Hall.
  { intros g id Hg. apply Forall_forall. intros m Hm.
    apply list_elem_of_fmap in Hm as (m0 & -> & Hm0).
    rewrite Forall_forall in Hlt. specialize (Hlt m0 Hm0).
    destruct (Nat.eqb _ _); [by rewrite Hg | done]. }
  destruct Hw as [id r|id r|doc' _|cid ps key n _ _|doc' Hid|now a b].
  - split; [done|]. simpl. split; [by rewrite Hmap | by apply Hall].
  - split; [done|]. simpl. split; [by rewrite Hmap | by apply Hall].
  - split; [|done]. by apply (db_grows_post_save doc' d).
  - split; [|done]. by apply (db_grows_update_conversation cid (set_unread key n) d).
  - split; [|split]; simpl.
    + destruct Hwf as [Hc Hclt]. split; [done|]. simpl.
      eapply Forall_impl; [exact Hclt|]. simpl. intros; lia.
    + rewrite map_app. simpl. apply NoDup_app. split; [done|].
      split; [|apply NoDup_singleton].
      intros x Hx Hx'. apply list_elem_of_fmap in Hx as (m & -> & Hm).
      apply list_elem_of_singleton in Hx'. rewrite Forall_forall in Hlt.
      specialize (Hlt m Hm). lia.
    + apply Forall_app. split.
      * eapply Forall_impl; [exact Hlt|]. simpl. intros; lia.
      * apply Forall_singleton. lia.
  - split; [by apply (db_grows_create_conversation now a b d)|]. simpl.
    split; [done|]. eapply Forall_impl; [exact Hlt|]. simpl. intros; lia.
Qed.

Lemma writes_ids_wf d d' : StoreWrites d d' → ids_wf d → ids_wf d'.
Proof. induction 1; [done|]. eauto using write_ids_wf. Qed.

Lemma write_unread_inv d d' : StoreWrite d d' → db_wf d → unread_inv d → unread_inv d'.
Proof.
  intros Hw [Hnd _] Hinv c k Hc Hk.
  destruct Hw as [id r|id r|doc' _|cid ps key n Hhas Hkey|doc' _|now a b].
  - by apply Hinv.
  - by apply Hinv.
  - simpl in Hc. apply list_elem_of_fmap in Hc as (c0 & -> & Hc0).
    destruct (Nat.eqb (c_id c0) (conversation doc')); simpl in *; by apply Hinv.
  - simpl in Hc. apply list_elem_of_fmap in Hc as (c0 & -> & Hc0).
    destruct (Nat.eqb (c_id c0) cid) eqn:E; [|by apply Hinv].
    apply Nat.eqb_eq in E. simpl in *.
    destruct (decide (k = key)) as [->|Hne].
    + destruct Hhas as (c1 & Hc1 & Hid & <-).
      by rewrite (NoDup_map_inj c_id (conversations d) c0 c1) by congruence.
    + rewrite lookup_insert_ne in Hk by done. by apply Hinv.
  - by apply Hinv.
  - simpl in Hc. apply elem_of_app in Hc as [Hc|Hc]; [by apply Hinv|].
    apply list_elem_of_singleton in Hc. subst c. simpl in *.
    destruct (decide (k = b)) as [->|Hb]; [set_solver|].
    rewrite lookup_insert_ne in Hk by done.
    destruct (decide (k = a)) as [->|Ha]; [set_solver|].
    rewrite lookup_insert_ne, lookup_empty in Hk by done. by destruct Hk.
Qed.

Lemma writes_unread_inv d d' :
  StoreWrites d d' → ids_wf d → unread_inv d → unread_inv d'.
Proof.
  induction 1 as [|d1 d2 d3 Hw _ IH]; [done|]. intros Hwf Hinv.
  apply IH; [by eapply write_ids_wf|].
  eapply write_unread_inv; [done|apply Hwf|done].
Qed.

End StoreInvariants.

Lemma writes_users d d' : StoreWrites d d' → users d' = users d.
Proof.
  induction 1 as [|d1 d2 d3 Hw _ IH]; [done|]. rewrite IH.
  by destruct Hw.
Qed.

Lemma findById_message_of_elem m d :
  NoDup (map m_id (messages d)) → m ∈ messages d →
  MessageModel.findById (m_id m) d = Some m.
Proof.
  intros Hnd Hin. unfold MessageModel.findById.
  destruct (List.find _ _) as [m0|] eqn:E.
  - apply (find_some_id m_id) in E as [Hid Hin0]. f_equal.
    by apply (NoDup_map_inj m_id (messages d)).
  - apply list_elem_of_In in Hin. pose proof (find_none _ _ E m Hin) as Hn.
    simpl in Hn. by rewrite Nat.eqb_refl in Hn.
Qed.

(** No event deletes, edits or reorders a stored message, and none touches
    the users: whatever the events, the store ends with the messages it had,
    in the same order and each with the same id, conversation, sender,
    content, type, deletion flag and creation time, its receipts at most
    extended at the end; the messages sent come after them. *)
Theorem run_keeps_messages (evs : list Event) (st : State) :
  let d' := db (run evs st).1 in
  users d' = users (db st)
  ∧ ∃ kept added,
      messages d' = kept ++ added
      ∧ Forall2 receipts_added (messages (db st)) kept.
Proof.
  pose proof (run_writes evs st) as Hw. cbn zeta. split.
  - by apply writes_users.
  - by apply writes_messages_kept.
Qed.

(** The last-message pointers stay sound. From a store with distinct ids
    where every pointer names a stored message of its conversation, created
    at the conversation's time of last activity, this still holds after any
    events, so the pointer of every conversation [getConversations] lists
    resolves. *)
Theorem run_last_message (evs : list Event) (st : State) :
  ids_wf (db st) → last_inv (db st) →
  let d' := db (run evs st).1 in
  ∀ c mid, c ∈ conversations d' → lastMessage c = Some mid →
    ∃ m, ChatController.populate_lastMessage d' c = Some m
         ∧ m_id m = mid ∧ conversation m = c_id c
         ∧ createdAt m = lastMessageAt c.
Proof.
  intros Hwf Hinv. cbn zeta. intros c mid Hc Hl.
  pose proof (run_writes evs st) as Hw.
  apply (writes_last_inv _ _ Hw) in Hinv.
  apply (writes_ids_wf _ _ Hw) in Hwf as (_ & Hnd & _).
  destruct (Hinv c mid Hc Hl) as (m & Hm & H1 & H2 & H3).
  exists m. unfold ChatController.populate_lastMessage. rewrite Hl, <- H1.
  by rewrite (findById_message_of_elem m _ Hnd Hm).
Qed.

Lemma run_last_message_witness :
  let d' := db (run [Connect "D" "Doc"; SendMessage 0 (mkSendData 0 (js "Yo") None None) 5%Z;
                     MessageRead 0 1 0 6%Z]
                  (initial db_chat)).1 in
  Forall (λ c, ∀ mid, lastMessage c = Some mid →
               ∃ m, ChatController.populate_lastMessage d' c = Some m
                    ∧ m_id m = mid ∧ conversation m = c_id c
                    ∧ createdAt m = lastMessageAt c) (conversations d').
Proof.
  cbn zeta. apply Forall_forall. intros c Hc mid.
  apply (run_last_message _ (initial db_chat)); [| |exact Hc].
  - split; [split|split].
    + apply (bool_decide_unpack _). by vm_compute.
    + apply Forall_singleton. simpl. lia.
    + apply (bool_decide_unpack _). by vm_compute.
    + simpl. repeat constructor.
  - intros c0 mid0 Hc0 Hl. apply list_elem_of_singleton in Hc0. subst c0.
    injection Hl as <-. exists msg2. split; [|done].
    apply elem_of_cons. right. by apply list_elem_of_singleton.
Defined.

(** Only participants ever get an unread counter. From a store with
    distinct ids where the unread counters of every conversation are those
    of participants, this still holds after any events. *)
Theorem run_unread_keys (evs : list Event) (st : State) :
  ids_wf (db st) → unread_inv (db st) →
  ∀ c key, c ∈ conversations (db (run evs st).1) →
           is_Some (unreadCount c !! key) → key ∈ participants c.
Proof.
  intros Hwf Hinv. by apply (writes_unread_inv _ _ (run_writes evs st)).
Qed.

Lemma run_unread_keys_witness :
  Forall (λ c, ∀ key, is_Some (unreadCount c !! key) → key ∈ participants c)
    (conversations (db (run evs_hello (initial db_empty)).1)).
Proof.
  apply Forall_forall. intros c Hc key.
  apply (run_unread_keys evs_hello (initial db_empty)); [| |exact Hc].
  - split; [split|split]; simpl; constructor.
  - intros c0 key0 Hc0. by apply elem_of_nil in Hc0.
Defined.

(** ** Overlapping sends *)

Lemma deliver_online_with_db (d0 : Database) st cid now (ps : list UserId) m d :
  SocketHandlers.deliver_online (with_db d0 st) cid now ps m d
  = SocketHandlers.deliver_online st cid now ps m d.
Proof.
  revert m d. induction ps as [|p ps IH]; intros m d; [done|].
  cbn [SocketHandlers.deliver_online onlineUsers with_db].
  destruct (onlineUsers st !! p); [|apply IH].
  destruct (MessageModel.markAsDelivered now p m d) as [m' d']. by rewrite IH.
Qed.

(** The stages of a handler, run with nothing in between, are the handler. *)
Lemma send_stages_whole sid data now st :
  let '(k1, st1, out1) := send_step (Loading sid data now) st in
  let '(k2, st2, out2) := send_step k1 st1 in
  let '(k3, st3, out3) := send_step k2 st2 in
  (st3, out1 ++ out2 ++ out3) = SocketHandlers.send_message sid data now st.
Proof.
  unfold SocketHandlers.send_message. cbn [send_step].
  destruct (sockets st !! sid) as [sock|] eqn:Hs; [|done].
  destruct (ConversationModel.findById _ (db st)) as [c|]; [|done].
  destruct (negb _); [done|]. cbn [send_step].
  destruct (MessageModel.create _ _ _ _ _ _) as [[message db1]|].
  - cbn [send_step db with_db]. rewrite deliver_online_with_db.
    destruct (SocketHandlers.deliver_online _ _ _ _ _ _) as [db3 delivered].
    unfold SocketHandlers.to_socket, with_db. cbn [sockets]. by rewrite Hs.
  - unfold SocketHandlers.to_socket. by rewrite Hs.
Qed.

(** Two sends of P to D in a conversation [findOrCreate] made, D online and
    never resetting. Handled one after the other (the schedule that runs
    the three stages of the first handler, then those of the second, which
    is what [run_ops] does), the second message is the last message and D
    has two unread messages. When both handlers have loaded the
    conversation before either counts, and the first delivers last, both
    sends succeed but D has one unread message and the last-message pointer
    and time are those of the first message sent. *)
Lemma sends_overlap_lose_increment :
  let st :=
    (run [Connect "P" "Pat"; Connect "D" "Doc"; PostConversation 1%Z "P" (Some "D")]
       (initial db_empty)).1 in
  let sends := [Loading 0 (mkSendData 0 (js "a") None None) 2%Z;
                Loading 0 (mkSendData 0 (js "b") None None) 3%Z] in
  let result (r : list Sending * State) :=
    (map sent_id r.1,
     (λ c, (lastMessage c, lastMessageAt c, unread_of c "D"))
       <$> ConversationModel.findById 0 (db r.2)) in
  run_ops 0 [SendOp 0 (js "a") None None 2%Z; SendOp 0 (js "b") None None 3%Z] st
  = Some ((run_sends [0; 0; 0; 1; 1; 1] sends st).2,
          [mkMessage 1 0 "P" (js "a") "text" [] [] false 2%Z;
           mkMessage 2 0 "P" (js "b") "text" [] [] false 3%Z])
  ∧ result (run_sends [0; 0; 0; 1; 1; 1] sends st)
    = ([Some 1; Some 2], Some (Some 2, 3%Z, 2))
  ∧ result (run_sends [0; 1; 0; 1; 1; 0] sends st)
    = ([Some 1; Some 2], Some (Some 1, 2%Z, 1)).
Proof. split; [|split]; vm_compute; reflexivity. Qed.

(** ** The conversations the code produces *)

Lemma as_created_set_last mid t c : as_created (set_last mid t c) ↔ as_created c.
Proof. done. Qed.

Lemma as_created_set_unread key n c : as_created (set_unread key n c) ↔ as_created c.
Proof. done. Qed.

Lemma write_conversations_inv d d' :
  StoreWrite d d' → conversations_inv d → conversations_inv d'.
Proof.
  unfold conversations_inv.
  intros [id r|id r|doc' _|cid ps key n _ _|doc' _|now a b] Hinv; simpl; try done.
  - apply Forall_forall. intros c Hc.
    apply list_elem_of_fmap in Hc as (c0 & -> & Hc0).
    rewrite Forall_forall in Hinv. specialize (Hinv c0 Hc0).
    by destruct (Nat.eqb _ _).
  - apply Forall_forall. intros c Hc.
    apply list_elem_of_fmap in Hc as (c0 & -> & Hc0).
    rewrite Forall_forall in Hinv. specialize (Hinv c0 Hc0).
    by destruct (Nat.eqb _ _).
  - apply Forall_app. split; [done|]. by apply Forall_singleton.
Qed.

Lemma writes_conversations_inv d d' :
  StoreWrites d d' → conversations_inv d → conversations_inv d'.
Proof. induction 1; [done|]. eauto using write_conversations_inv. Qed.

Lemma as_created_exact (a b : UserId) (c : Conversation) :
  a ≠ b → as_created c → a ∈ participants c → b ∈ participants c →
  active_direct_exactly a b c.
Proof.
  intros Hne (Hact & Hdir & Hlen) Ha Hb. split; [done|]. split; [done|].
  destruct (participants c) as [|x [|y [|z l]]]; try done.
  intros w. set_solver.
Qed.

(** C1. On every store the code produces (any events, from a store whose
    conversations are as [findOrCreate] creates them, the empty collection
    in particular) and for distinct A and B: the conversation
    [findOrCreate(A, B)] returns is an active direct conversation whose
    participants are exactly A and B; when the store has such a conversation
    the call returns a stored one and creates nothing; when it has none the
    call appends one conversation, under a fresh id, whose unread-count map
    has the entries 0 for A and 0 for B. *)
Theorem findOrCreate_on_stores_produced (now : Date) (a b : UserId)
    (evs : list Event) (st : State) :
  a ≠ b →
  conversations_inv (db st) →
  let d := db (run evs st).1 in
  let r := ConversationModel.findOrCreate now a b d in
  active_direct_exactly a b r.1
  ∧ ((∃ c, c ∈ conversations d ∧ active_direct_exactly a b c) →
     r.2 = d ∧ r.1 ∈ conversations d)
  ∧ ((∀ c, c ∈ conversations d → ¬ active_direct_exactly a b c) →
     r.2 = mkDatabase (conversations d ++ [r.1]) (messages d) (users d) (S (nextId d))
     ∧ c_id r.1 = nextId d
     ∧ unreadCount r.1 !! a = Some 0 ∧ unreadCount r.1 !! b = Some 0
     ∧ dom (unreadCount r.1) = {[a; b]}).
Proof.
  intros Hne Hinv. cbn zeta.
  apply (writes_conversations_inv _ _ (run_writes evs st)) in Hinv.
  set (d := db (run evs st).1) in *.
  pose proof (findOrCreate_cases now a b d) as H.
  destruct (ConversationModel.findBetweenUsers a b d) as [c|].
  - destruct H as (-> & Hin & Hdir & Ha & Hb). cbn [fst snd].
    assert (active_direct_exactly a b c) as Hex.
    { apply as_created_exact; try done.
      unfold conversations_inv in Hinv. rewrite Forall_forall in Hinv. by apply Hinv. }
    split; [done|]. split; [done|].
    intros Hnone. by destruct (Hnone c Hin).
  - destruct H as (Hnone & c & -> & Hid & Hex & _ & _ & Hua & Hub & Hdom).
    cbn [fst snd]. split; [done|]. split; [|done].
    intros (c0 & Hin & _ & Hdir & Hp). destruct (Hnone c0 Hin).
    split; [done|]. split; apply Hp; [by left | by right].
Qed.

Lemma findOrCreate_on_stores_produced_witness :
  let d := db (run evs_hello (initial db_empty)).1 in
  active_direct_exactly "D" "P" (ConversationModel.findOrCreate 9%Z "D" "P" d).1
  ∧ (ConversationModel.findOrCreate 9%Z "D" "P" d).2 = d
  ∧ active_direct_exactly "P" "X" (ConversationModel.findOrCreate 9%Z "P" "X" d).1
  ∧ c_id (ConversationModel.findOrCreate 9%Z "P" "X" d).1 = nextId d.
Proof.
  cbn zeta.
  destruct (findOrCreate_on_stores_produced 9%Z "D" "P" evs_hello (initial db_empty))
    as (Hex & Hfound & _); [discriminate | constructor |].
  destruct (findOrCreate_on_stores_produced 9%Z "P" "X" evs_hello (initial db_empty))
    as (Hex' & _ & Hnew); [discriminate | constructor |].
  split; [exact Hex|]. split.
  - apply Hfound. eexists. split; [|exact Hex].
    vm_compute. apply elem_of_cons. left. reflexivity.
  - split; [exact Hex'|]. apply Hnew.
    intros c Hc (_ & _ & Hp). vm_compute in Hc.
    apply list_elem_of_singleton in Hc. subst c.
    specialize (Hp "X"). simpl in Hp. destruct Hp as [_ Hp].
    specialize (Hp (or_intror eq_refl)).
    repeat (apply elem_of_cons in Hp as [Hp|Hp]; [discriminate|]).
    by apply elem_of_nil in Hp.
Defined.
